(** * BPMN migration analyzer: a shallow embedding of [bpmn_migration.py]

    The development follows the Python source: the [BPMNAnalyzer] object is a
    record threaded through every rule group, [add_issue] appends to its
    issue list, [process_variables] is a finite set of strings, and the
    dictionaries of the statistics record are finite maps keyed by strings.

    Python [str] values are modelled by [string]; a character is a code point
    below 256, which covers every literal of the source.  The XML document is
    the tree that [xml.etree.ElementTree] hands back: tags and attribute keys
    are in Clark notation ([{uri}local]). *)

From Stdlib Require Import Ascii.
From stdpp Require Import base gmap sets list strings pretty sorting.

(** ** Python string primitives used by the source *)

Module Py.

(** [bool(s)] for a [str]: the empty string is falsy. *)
Definition nonempty (s : string) : bool :=
  match s with "" => false | String _ _ => true end.

(** [bool(o)] for a value that is [None] or a [str]. *)
Definition truthy (o : option string) : bool :=
  match o with Some s => nonempty s | None => false end.

(** [f"{o}"]: [None] is rendered as the text [None]. *)
Definition fmt (o : option string) : string :=
  match o with Some s => s | None => "None" end.

(** [s.startswith(p)] *)
Fixpoint startswith (p s : string) : bool :=
  match p, s with
  | "", _ => true
  | String a p', String b s' => if decide (a = b) then startswith p' s' else false
  | String _ _, "" => false
  end.

(** [p in s] for two strings: [p] occurs at some offset of [s]. *)
Fixpoint contains (p s : string) : bool :=
  startswith p s ||
  match s with
  | "" => false
  | String _ s' => contains p s'
  end.

(** [str.isspace] on one character, which is also what [\s] matches in a
    [str] pattern: TAB..CR, FS..US, SPACE, NEL and NBSP below 256. *)
Definition isspace (c : ascii) : bool :=
  let n := nat_of_ascii c in
  ((9 <=? n) && (n <=? 13)) || ((28 <=? n) && (n <=? 32))
  || (n =? 133) || (n =? 160).

Fixpoint lstrip (s : string) : string :=
  match s with
  | "" => ""
  | String c s' => if isspace c then lstrip s' else s
  end.

Fixpoint rstrip (s : string) : string :=
  match s with
  | "" => ""
  | String c s' =>
      match rstrip s' with
      | "" => if isspace c then "" else String c ""
      | r => String c r
      end
  end.

(** [s.strip()] *)
Definition strip (s : string) : string := rstrip (lstrip s).

(** [str.lower] on one character: A..Z and the upper-case letters of the
    Latin-1 supplement (all of 192..222 but the multiplication sign). *)
Definition lower_char (c : ascii) : ascii :=
  let n := nat_of_ascii c in
  if ((65 <=? n) && (n <=? 90))
     || ((192 <=? n) && (n <=? 222) && negb (n =? 215))
  then ascii_of_nat (n + 32) else c.

Fixpoint lower (s : string) : string :=
  match s with
  | "" => ""
  | String c s' => String (lower_char c) (lower s')
  end.

(** [x in l] for a list of strings. *)
Definition mem (x : string) (l : list string) : bool :=
  bool_decide (x ∈ l).

(** [str(n)] for a non-negative [int]. *)
Definition str_of_nat (n : nat) : string := pretty n.

End Py.

(** ** The element tree *)

(** One node of the parsed document: [tag], [attrib], [text] and the child
    elements in document order. *)
#[warnings="-register-all"]
Inductive Element : Type :=
  Node (tag : string) (attrib : gmap string string)
       (text : option string) (children : list Element).

Definition tag (e : Element) : string :=
  match e with Node t _ _ _ => t end.
Definition attrib (e : Element) : gmap string string :=
  match e with Node _ a _ _ => a end.
Definition text (e : Element) : option string :=
  match e with Node _ _ x _ => x end.
Definition children (e : Element) : list Element :=
  match e with Node _ _ _ cs => cs end.

(** [e.get(key)] and [e.get(key, default)] *)
Definition get (e : Element) (key : string) : option string := attrib e !! key.
Definition get_or (e : Element) (key dflt : string) : string :=
  default dflt (attrib e !! key).

(** The entries of [self.namespace] that the source resolves. *)
Definition bpmn (local : string) : string :=
  "{http://www.omg.org/spec/BPMN/20100524/MODEL}" +:+ local.
Definition camunda (local : string) : string :=
  "{http://camunda.org/schema/1.0/bpmn}" +:+ local.
Definition xsi (local : string) : string :=
  "{http://www.w3.org/2001/XMLSchema-instance}" +:+ local.

(** [e.iter()]: the element and all its descendants, in document order. *)
Fixpoint iter (e : Element) : list Element :=
  match e with
  | Node _ _ _ cs => e :: flat_map iter cs
  end.

(** [root.findall('.//*')]: every proper descendant. *)
Definition descendants (root : Element) : list Element :=
  flat_map iter (children root).

(** [root.findall('.//T')] for a resolved tag [T]. *)
Definition findall_desc (root : Element) (t : string) : list Element :=
  filter (λ e, tag e = t) (descendants root).

(** [e.findall('T')] and [e.find('T')]: direct children only. *)
Definition findall_child (e : Element) (t : string) : list Element :=
  filter (λ c, tag c = t) (children e).
Definition find_child (e : Element) (t : string) : option Element :=
  head (findall_child e t).

(** ** Issues and the analyzer object *)

Inductive Severity : Type := CRITICAL | WARNING | INFO.

Global Instance Severity_eq_dec : EqDecision Severity.
Proof. solve_decision. Defined.

(** [Severity.value] *)
Definition severity_value (s : Severity) : string :=
  match s with
  | CRITICAL => "CRITICAL"
  | WARNING => "WARNING"
  | INFO => "INFO"
  end.

Record MigrationIssue : Type := mkIssue {
  severity : Severity;
  category : string;
  element_id : string;
  element_name : string;
  message : string;
  details : string
}.

Global Instance MigrationIssue_eq_dec : EqDecision MigrationIssue.
Proof. solve_decision. Defined.

Record Statistics : Type := mkStatistics {
  total_elements : nat;
  element_counts : gmap string nat;
  total_issues : nat;
  issue_counts_by_severity : gmap string nat;
  issue_counts_by_category : gmap string nat;
  total_variables_detected : nat
}.

(** The fields of [BPMNAnalyzer] that the analysis reads and writes.
    [root] is [None] until [parse] succeeds; [statistics] is [None] while it
    is the empty dictionary of [__init__]. *)
Record Analyzer : Type := mkAnalyzer {
  bpmn_file : string;
  root : option Element;
  issues : list MigrationIssue;
  statistics : option Statistics;
  process_variables : gset string
}.

(** [BPMNAnalyzer.__init__] *)
Definition init (file : string) : Analyzer :=
  {| bpmn_file := file; root := None; issues := [];
     statistics := None; process_variables := ∅ |}.

Definition set_issues (l : list MigrationIssue) (self : Analyzer) : Analyzer :=
  {| bpmn_file := bpmn_file self; root := root self; issues := l;
     statistics := statistics self; process_variables := process_variables self |}.

Definition set_variables (v : gset string) (self : Analyzer) : Analyzer :=
  {| bpmn_file := bpmn_file self; root := root self; issues := issues self;
     statistics := statistics self; process_variables := v |}.

Definition set_root (r : option Element) (self : Analyzer) : Analyzer :=
  {| bpmn_file := bpmn_file self; root := r; issues := issues self;
     statistics := statistics self; process_variables := process_variables self |}.

Definition set_statistics (s : option Statistics) (self : Analyzer) : Analyzer :=
  {| bpmn_file := bpmn_file self; root := root self; issues := issues self;
     statistics := s; process_variables := process_variables self |}.

(** [add_issue]: [self.issues.append(MigrationIssue(...))] *)
Definition add_issue (sev : Severity) (cat eid ename msg det : string)
    (self : Analyzer) : Analyzer :=
  set_issues (issues self ++ [mkIssue sev cat eid ename msg det]) self.

(** [self.process_variables.update(vs)] *)
Definition update_variables (vs : gset string) (self : Analyzer) : Analyzer :=
  set_variables (process_variables self ∪ vs) self.

(** ** Exceptions and control flow *)

(** A call either returns or raises; the only exception the rule groups can
    meet comes from the element-path compiler (see [find_by_id]). *)
Inductive outcome (A : Type) : Type :=
  | Done (a : A)
  | Raised.
Global Arguments Done {A} a.
Global Arguments Raised {A}.

Global Instance outcome_ret : MRet outcome := λ A a, Done a.
Global Instance outcome_bind : MBind outcome := λ A B k m,
  match m with
  | Done a => k a
  | Raised => Raised
  end.

(** A statement of a method body: it takes the analyzer and hands it back
    updated. *)
Abbreviation stmt := (Analyzer → Analyzer) (only parsing).

(** [if cond: body] *)
Definition when (cond : bool) (body : stmt) : stmt :=
  λ self, if cond then body self else self.

(** [if value: body] for a value that is [None] or a [str]: the body runs
    on a value that is present and not empty. *)
Definition if_str (value : option string) (body : string → stmt) : stmt :=
  λ self,
    match value with
    | Some s => if Py.nonempty s then body s self else self
    | None => self
    end.

(** [if elem is not None: body] *)
Definition if_some {A : Type} (elem : option A) (body : A → stmt) : stmt :=
  λ self,
    match elem with
    | Some x => body x self
    | None => self
    end.

(** [for x in l: body] with a body that never raises. *)
Definition for_each {A : Type} (l : list A) (body : A → stmt) : stmt :=
  λ self, foldl (λ s x, body x s) self l.

(** [for x in l: body] with a body that may raise: the first exception
    ends the loop. *)
Fixpoint for_each_exc {A : Type} (l : list A)
    (body : A → Analyzer → outcome Analyzer) (self : Analyzer)
    : outcome Analyzer :=
  match l with
  | [] => Done self
  | x :: l' => self' ← body x self; for_each_exc l' body self'
  end.

(** ** Expression validation *)

(** The inner text of a match of [[$#]\{([^}]+)\}] that starts right after
    the opening brace: the longest run of characters other than the closing
    brace, provided the run is not empty and a closing brace follows it.
    Returns the captured group and the text after the match. *)
Fixpoint scan_group (s : string) : option (string * string) :=
  match s with
  | "" => None
  | String c s' =>
      if decide (c = "}"%char) then Some ("", s')
      else match scan_group s' with
           | Some (g, rest) => Some (String c g, rest)
           | None => None
           end
  end.

Definition match_here (s : string) : option (string * string) :=
  match s with
  | String c (String "{"%char s') =>
      if bool_decide (c = "$"%char) || bool_decide (c = "#"%char) then
        match scan_group s' with
        | Some (String g0 g, rest) => Some (String g0 g, rest)
        | _ => None
        end
      else None
  | _ => None
  end.

(** [re.findall(r'[$#]\{([^}]+)\}', s)]: the non-overlapping matches from
    left to right.  The fuel bounds the number of characters still to scan;
    [String.length s] is always enough. *)
Fixpoint findall_groups (fuel : nat) (s : string) : list string :=
  match fuel with
  | O => []
  | S fuel' =>
      match match_here s with
      | Some (g, rest) => g :: findall_groups fuel' rest
      | None =>
          match s with
          | "" => []
          | String _ s' => findall_groups fuel' s'
          end
      end
  end.

Definition re_findall (s : string) : list string :=
  findall_groups (String.length s) s.

(** [re.split(r'[\.\[\(\s]', m)[0]]: the text before the first dot, opening
    bracket, opening parenthesis or white space. *)
Definition is_name_end (c : ascii) : bool :=
  bool_decide (c = "."%char) || bool_decide (c = "["%char)
  || bool_decide (c = "("%char) || Py.isspace c.

Fixpoint split_head (m : string) : string :=
  match m with
  | "" => ""
  | String c m' => if is_name_end c then "" else String c (split_head m')
  end.

(** The loop of [extract_variables_from_expression] over the matches. *)
Fixpoint collect_variables (matches : list string) (variables : gset string)
    : gset string :=
  match matches with
  | [] => variables
  | m :: ms =>
      let var_name := split_head m in
      collect_variables ms
        (if Py.nonempty var_name then variables ∪ {[ var_name ]} else variables)
  end.

(** [extract_variables_from_expression]; [None] is a missing input. *)
Definition extract_variables_from_expression (expression : option string)
    : gset string :=
  match expression with
  | None => ∅
  | Some e =>
      if negb (Py.nonempty e) then ∅
      else collect_variables (re_findall e) ∅
  end.

(** [validate_expression_syntax] *)
Definition validate_expression_syntax
    (expression element_id element_name context : string) : stmt :=
  λ self,
    if negb (Py.nonempty expression) then self
    else
      let variables := extract_variables_from_expression (Some expression) in
      let self := update_variables variables self in
      let self :=
        when (Py.contains "${" expression || Py.contains "#{" expression)
          (add_issue CRITICAL "Expression" element_id element_name
             ("JUEL/UEL expression detected in " +:+ context)
             ("Expression '" +:+ expression +:+
              "' uses Camunda 7 syntax. Must be converted to FEEL in Camunda 8. "
              +:+ "Example: '${myVar}' -> '=myVar'")) self in
      when ((Py.contains "${" expression && negb (Py.contains "}" expression))
            || (Py.contains "#{" expression
                && negb (Py.contains "}" expression)))
        (add_issue CRITICAL "Expression" element_id element_name
           ("Malformed expression in " +:+ context)
           ("Expression '" +:+ expression +:+ "' appears to be incomplete"))
        self.

(** ** Service tasks *)

Definition service_task_body (task : Element) : stmt :=
  λ self,
    let task_id := get_or task "id" "unknown" in
    let task_name := get_or task "name" "Unnamed" in
    let task_type := get task (camunda "type") in
    let topic := get task (camunda "topic") in
    let delegate_expression := get task (camunda "delegateExpression") in
    let class_name := get task (camunda "class") in
    let expression := get task (camunda "expression") in
    let connector_id := get task (camunda "connectorId") in
    let self :=
      when (bool_decide (task_type = Some "external"))
        (add_issue INFO "Service Task" task_id task_name
           "External task pattern already compatible"
           ("Topic: " +:+ Py.fmt topic +:+
            ". Ensure workers are updated to use Camunda 8 client.")) self in
    let self :=
      if_str delegate_expression (λ d self,
        let self := validate_expression_syntax d task_id task_name
                      "delegateExpression" self in
        add_issue CRITICAL "Service Task" task_id task_name
          "Delegate expression must be converted to Job Worker"
          ("Delegate: " +:+ d +:+
           ". Implement as external task worker in Camunda 8.") self) self in
    let self :=
      if_str class_name (λ c,
        add_issue CRITICAL "Service Task" task_id task_name
          "Java delegate class must be converted to Job Worker"
          ("Class: " +:+ c +:+
           ". Implement as external task worker in Camunda 8.")) self in
    let self :=
      if_str expression (λ e,
        validate_expression_syntax e task_id task_name "expression attribute")
        self in
    let self :=
      if_str connector_id (λ c,
        add_issue CRITICAL "Connector" task_id task_name
          "Camunda Connector must be migrated"
          ("Connector ID: " +:+ c +:+
           ". Convert to Camunda 8 Connector Template or Job Worker.")) self in
    let async_before := get task (camunda "asyncBefore") in
    let async_after := get task (camunda "asyncAfter") in
    let self :=
      when (bool_decide (async_before = Some "true")
            || bool_decide (async_after = Some "true"))
        (add_issue INFO "Configuration" task_id task_name
           "Async configuration not needed in Camunda 8"
           "All service tasks are asynchronous by default in Camunda 8.")
        self in
    let retry := get task (camunda "failedJobRetryTimeCycle") in
    if_str retry (λ r,
      add_issue WARNING "Configuration" task_id task_name
        "Retry configuration uses different syntax"
        ("Current: " +:+ r +:+ ". Use Zeebe retry headers in Camunda 8."))
      self.

Definition validate_service_tasks (rt : Element) : stmt :=
  for_each (findall_desc rt (bpmn "serviceTask")) service_task_body.

(** ** Script tasks *)

Definition script_task_body (task : Element) : stmt :=
  λ self,
    let task_id := get_or task "id" "unknown" in
    let task_name := get_or task "name" "Unnamed" in
    let script_format := get task (camunda "scriptFormat") in
    let script_element := find_child task (bpmn "script") in
    let script_content :=
      match script_element with
      | Some s => text s
      | None => Some ""
      end in
    let self :=
      if_some script_format (λ f,
        if Py.nonempty f
           && negb (Py.mem (Py.lower f) ["feel"; "javascript"; "groovy"]) then
          add_issue CRITICAL "Script Task" task_id task_name
            ("Script format '" +:+ f +:+ "' not supported in Camunda 8")
            "Consider converting to FEEL or implementing as Job Worker."
        else
          when (Py.nonempty f
                && Py.mem (Py.lower f) ["groovy"; "javascript"])
            (add_issue WARNING "Script Task" task_id task_name
               ("Script format '" +:+ f +:+ "' support is limited")
               "Groovy and JavaScript support may differ. Test thoroughly or convert to FEEL."))
        self in
    if_str script_content (λ c,
      update_variables (extract_variables_from_expression (Some c))) self.

Definition validate_script_tasks (rt : Element) : stmt :=
  for_each (findall_desc rt (bpmn "scriptTask")) script_task_body.

(** ** User tasks and forms *)

Definition user_task_body (task : Element) : stmt :=
  λ self,
    let task_id := get_or task "id" "unknown" in
    let task_name := get_or task "name" "Unnamed" in
    let form_key := get task (camunda "formKey") in
    let form_ref := get task (camunda "formRef") in
    let self :=
      if_str form_key (λ k,
        if Py.startswith "embedded:" k || Py.startswith "camunda-forms:" k then
          add_issue CRITICAL "User Task" task_id task_name
            "Embedded form must be converted to Camunda 8 Forms"
            ("Form key: " +:+ k +:+ ". Migrate to Camunda Forms JSON schema.")
        else
          add_issue WARNING "User Task" task_id task_name
            "External form reference needs review"
            ("Form key: " +:+ k +:+ ". Ensure form is accessible in Camunda 8."))
        self in
    let self :=
      if_str form_ref (λ r,
        add_issue WARNING "User Task" task_id task_name
          "Form reference needs verification"
          ("Form ref: " +:+ r)) self in
    let self :=
      if_some (find_child task (bpmn "extensionElements")) (λ ext_elements,
        if_some (find_child ext_elements (camunda "formData")) (λ form_data,
          let form_fields := findall_child form_data (camunda "formField") in
          when (bool_decide (form_fields ≠ []))
            (add_issue CRITICAL "User Task" task_id task_name
               ("Embedded form with " +:+ Py.str_of_nat (length form_fields)
                +:+ " fields must be migrated")
               "Convert form fields to Camunda 8 Forms JSON schema.")))
        self in
    let assignee := get task (camunda "assignee") in
    let candidate_users := get task (camunda "candidateUsers") in
    let candidate_groups := get task (camunda "candidateGroups") in
    let self :=
      if_str assignee (λ a,
        validate_expression_syntax a task_id task_name "assignee") self in
    let self :=
      if_str candidate_users (λ a,
        validate_expression_syntax a task_id task_name "candidateUsers")
        self in
    if_str candidate_groups (λ a,
      validate_expression_syntax a task_id task_name "candidateGroups") self.

Definition validate_user_tasks (rt : Element) : stmt :=
  for_each (findall_desc rt (bpmn "userTask")) user_task_body.

(** ** Listeners *)

Definition validate_listener (listener : Element)
    (element_id element_name listener_type : string) : stmt :=
  λ self,
    let event := get listener "event" in
    let delegate_expression := get listener "delegateExpression" in
    let class_name := get listener "class" in
    let expression := get listener "expression" in
    when (Py.truthy delegate_expression || Py.truthy class_name
          || Py.truthy expression)
      (λ self,
         let self :=
           add_issue CRITICAL listener_type element_id element_name
             (listener_type +:+ " not supported in Camunda 8")
             ("Event: " +:+ Py.fmt event +:+
              ". Convert listener logic to Job Worker or process redesign.")
             self in
         let self :=
           if_str delegate_expression (λ d,
             validate_expression_syntax d element_id element_name
               listener_type) self in
         if_str expression (λ e,
           validate_expression_syntax e element_id element_name listener_type)
           self)
      self.

Definition listeners_body (element : Element) : stmt :=
  λ self,
    let element_id := get_or element "id" "unknown" in
    let element_name := get_or element "name" "Unnamed" in
    if_some (find_child element (bpmn "extensionElements")) (λ ext_elements self,
      let self :=
        for_each (findall_child ext_elements (camunda "taskListener"))
          (λ listener,
             validate_listener listener element_id element_name
               "Task Listener") self in
      for_each (findall_child ext_elements (camunda "executionListener"))
        (λ listener,
           validate_listener listener element_id element_name
             "Execution Listener") self)
      self.

Definition validate_listeners (rt : Element) : stmt :=
  for_each (descendants rt) listeners_body.

(** ** Call activities and business rule tasks *)

Definition call_activity_body (activity : Element) : stmt :=
  λ self,
    let activity_id := get_or activity "id" "unknown" in
    let activity_name := get_or activity "name" "Unnamed" in
    let called_element := get activity "calledElement" in
    let self :=
      if_str called_element (λ c self,
        let self := validate_expression_syntax c activity_id activity_name
                      "calledElement" self in
        add_issue WARNING "Call Activity" activity_id activity_name
          "Call activity requires verification"
          ("Called element: " +:+ c +:+
           ". Ensure called process exists in Camunda 8.") self) self in
    if_some (find_child activity (bpmn "extensionElements")) (λ ext_elements,
      let in_mappings := findall_child ext_elements (camunda "in") in
      let out_mappings := findall_child ext_elements (camunda "out") in
      when (bool_decide (in_mappings ≠ []) || bool_decide (out_mappings ≠ []))
        (add_issue WARNING "Call Activity" activity_id activity_name
           "Variable mapping syntax differs in Camunda 8"
           ("Found " +:+ Py.str_of_nat (length in_mappings) +:+ " input and "
            +:+ Py.str_of_nat (length out_mappings) +:+ " output mappings.")))
      self.

Definition validate_call_activities (rt : Element) : stmt :=
  for_each (findall_desc rt (bpmn "callActivity")) call_activity_body.

Definition business_rule_task_body (task : Element) : stmt :=
  λ self,
    let task_id := get_or task "id" "unknown" in
    let task_name := get_or task "name" "Unnamed" in
    let decision_ref := get task (camunda "decisionRef") in
    if_str decision_ref (λ d self,
      let self := validate_expression_syntax d task_id task_name
                    "decisionRef" self in
      add_issue WARNING "Business Rule Task" task_id task_name
        "DMN decision reference needs verification"
        ("Decision: " +:+ d +:+
         ". Ensure DMN is deployed and compatible with Camunda 8.") self) self.

Definition validate_business_rule_tasks (rt : Element) : stmt :=
  for_each (findall_desc rt (bpmn "businessRuleTask")) business_rule_task_body.

(** ** Multi-instance characteristics and subprocesses *)

(** Every node below [p], paired with the node it is a child of.  The
    source finds the parent of a node by scanning [root.iter()] for the
    first element that has this very node (compared by identity) among its
    children; in a tree that element is the node's parent, which the
    traversal records on the way down. *)
Fixpoint iter_with_parent (p e : Element) {struct e}
    : list (Element * Element) :=
  match e with
  | Node _ _ _ cs => (p, e) :: flat_map (iter_with_parent e) cs
  end.

Definition descendants_with_parent (rt : Element)
    : list (Element * Element) :=
  flat_map (iter_with_parent rt) (children rt).

Definition multi_instance_body (pm : Element * Element) : stmt :=
  λ self,
    let parent := pm.1 in
    let mi := pm.2 in
    let parent_id := get_or parent "id" "unknown" in
    let parent_name := get_or parent "name" "Unnamed" in
    let collection := get mi (camunda "collection") in
    let self :=
      if_str collection (λ c,
        validate_expression_syntax c parent_id parent_name
          "multi-instance collection") self in
    if_some (find_child mi (bpmn "completionCondition"))
      (λ completion_condition,
         if_str (text completion_condition) (λ t,
           validate_expression_syntax (Py.strip t) parent_id parent_name
             "multi-instance completion condition"))
      self.

Definition validate_multi_instance (rt : Element) : stmt :=
  for_each
    (filter (λ pm, tag pm.2 = bpmn "multiInstanceLoopCharacteristics")
       (descendants_with_parent rt))
    multi_instance_body.

Definition subprocess_body (subprocess : Element) : stmt :=
  λ self,
    let subprocess_id := get_or subprocess "id" "unknown" in
    let subprocess_name := get_or subprocess "name" "Unnamed" in
    let triggered_by_event := get subprocess "triggeredByEvent" in
    when (bool_decide (triggered_by_event = Some "true"))
      (add_issue WARNING "Subprocess" subprocess_id subprocess_name
         "Event subprocess behavior may differ in Camunda 8"
         "Review event subprocess triggering and variable scope.") self.

Definition validate_subprocesses (rt : Element) : stmt :=
  for_each (findall_desc rt (bpmn "subProcess")) subprocess_body.

(** ** Input/output mappings *)

Definition io_param_body (element_id element_name : string) (param : Element)
    : stmt :=
  λ self,
    let param_name := get param "name" in
    let param_text := text param in
    let self :=
      if_str param_text (λ t,
        validate_expression_syntax (Py.strip t) element_id element_name
          ("I/O parameter " +:+ Py.fmt param_name)) self in
    if_some (find_child param (camunda "script")) (λ _,
      add_issue CRITICAL "I/O Mapping" element_id element_name
        "Script in I/O parameter not supported"
        ("Parameter: " +:+ Py.fmt param_name +:+
         ". Convert to FEEL expression or Job Worker.")) self.

Definition input_output_body (element : Element) : stmt :=
  λ self,
    let element_id := get_or element "id" "unknown" in
    let element_name := get_or element "name" "Unnamed" in
    if_some (find_child element (bpmn "extensionElements")) (λ ext_elements,
      if_some (find_child ext_elements (camunda "inputOutput")) (λ input_output,
        let input_params :=
          findall_child input_output (camunda "inputParameter") in
        let output_params :=
          findall_child input_output (camunda "outputParameter") in
        for_each (input_params ++ output_params)
          (io_param_body element_id element_name)))
      self.

Definition validate_input_output_mappings (rt : Element) : stmt :=
  for_each (descendants rt) input_output_body.

(** ** Configuration and namespace checks *)

Definition configuration_body (element : Element) : stmt :=
  λ self,
    let element_id := get_or element "id" "unknown" in
    let element_name := get_or element "name" "Unnamed" in
    let history_ttl := get element (camunda "historyTimeToLive") in
    let self :=
      if_str history_ttl (λ h,
        add_issue INFO "Configuration" element_id element_name
          "History TTL configuration not applicable in Camunda 8"
          ("TTL: " +:+ h +:+
           ". Camunda 8 has different data retention mechanisms.")) self in
    let job_priority := get element (camunda "jobPriority") in
    if_str job_priority (λ j,
      add_issue INFO "Configuration" element_id element_name
        "Job priority not supported in Camunda 8"
        ("Priority: " +:+ j)) self.

Definition validate_configurations (rt : Element) : stmt :=
  for_each (descendants rt) configuration_body.

Definition validate_namespaces (rt : Element) : stmt :=
  λ self,
    let bpmn_ns := get rt (xsi "schemaLocation") in
    when (negb (Py.truthy bpmn_ns)
          || negb (Py.contains "BPMN/20100524" (default "" bpmn_ns)))
      (add_issue WARNING "BPMN" "root" "BPMN Document"
         "BPMN 2.0 namespace may be incorrect or missing"
         "Ensure BPMN uses correct BPMN 2.0 namespace.") self.

(** ** Statistics *)

Definition element_types : list string :=
  [ "serviceTask"; "userTask"; "scriptTask"; "businessRuleTask"; "callActivity";
    "startEvent"; "endEvent"; "intermediateCatchEvent"; "intermediateThrowEvent";
    "boundaryEvent"; "exclusiveGateway"; "parallelGateway"; "inclusiveGateway";
    "eventBasedGateway"; "subProcess" ].

(** The counting loop: one dictionary entry per element type and the
    running total. *)
Definition count_step (rt : Element) (acc : gmap string nat * nat)
    (elem_type : string) : gmap string nat * nat :=
  let count := length (findall_desc rt (bpmn elem_type)) in
  (<[elem_type := count]> acc.1, acc.2 + count).

Definition count_elements (rt : Element) (types : list string)
    : gmap string nat * nat :=
  foldl (count_step rt) (∅, 0) types.

Definition count_severity (sev : Severity) (l : list MigrationIssue) : nat :=
  length (filter (λ i, severity i = sev) l).

(** [category_counts[c] = category_counts.get(c, 0) + 1] over the issues. *)
Definition count_categories (l : list MigrationIssue) : gmap string nat :=
  foldl (λ cc i, <[category i := default 0 (cc !! category i) + 1]> cc) ∅ l.

Definition calculate_statistics (rt : Element) (self : Analyzer) : Analyzer :=
  let counted := count_elements rt element_types in
  let issue_counts : gmap string nat :=
    <["CRITICAL" := count_severity CRITICAL (issues self)]>
      (<["WARNING" := count_severity WARNING (issues self)]>
         (<["INFO" := count_severity INFO (issues self)]> ∅)) in
  set_statistics
    (Some {| total_elements := counted.2;
             element_counts := counted.1;
             total_issues := length (issues self);
             issue_counts_by_severity := issue_counts;
             issue_counts_by_category := count_categories (issues self);
             total_variables_detected := size (process_variables self) |})
    self.

(** [sum(d.values())] *)
Definition sum_values (d : gmap string nat) : nat :=
  map_fold (λ _ v acc, v + acc) 0 d.

(** ** The report *)

(** [MigrationIssue.to_dict] *)
Record IssueDict : Type := mkIssueDict {
  d_severity : string;
  d_category : string;
  d_element_id : string;
  d_element_name : string;
  d_message : string;
  d_details : string
}.

Definition to_dict (i : MigrationIssue) : IssueDict :=
  {| d_severity := severity_value (severity i);
     d_category := category i;
     d_element_id := element_id i;
     d_element_name := element_name i;
     d_message := message i;
     d_details := details i |}.

Record Report : Type := mkReport {
  r_file : string;
  r_timestamp : string;
  r_statistics : option Statistics;
  r_issues : list IssueDict;
  r_process_variables : list string
}.

(** What [analyze] returns: the empty dictionary or the report. *)
Inductive AnalysisResult : Type :=
  | EmptyDict
  | ReportDict (r : Report).

(** [sorted(l)] on strings: ascending code-point order. *)
Definition sorted (l : list string) : list string := merge_sort String.le l.

(** What a run reads from outside the document: the clock behind
    [datetime.now().isoformat()] and the order in which [list(s)] walks a
    set, which for strings changes with the hash seed of the process. *)
Record Ambient : Type := mkAmbient {
  now_isoformat : string;
  set_order : gset string → list string
}.

(** [list(s)] yields each member of [s] once, in some order. *)
Definition set_order_ok (a : Ambient) : Prop :=
  ∀ s, set_order a s ≡ₚ elements s.

Section Run.

(** [ET.parse] applied to a path: the root of the tree, or [None] when
    it raises (unreadable file, malformed document). *)
Variable ET_parse : string → option Element.

(** What [root.find] does with the path [.//T[@id='V']] when [V] itself
    holds an apostrophe.  The path compiler then sees other tokens than
    the one quoted value; it may reject the path or select by another
    rule.  Left to the library. *)
Variable find_quoted : Element → string → string → outcome (option Element).

(** [root.find(f".//T[@id='{v}']")]: the first descendant with tag [T]
    whose [id] attribute is [v]. *)
Definition find_by_id (rt : Element) (t v : string)
    : outcome (option Element) :=
  if Py.contains "'" v then find_quoted rt t v
  else Done (head (filter (λ e, tag e = t ∧ get e "id" = Some v)
                     (descendants rt))).

(** *** Gateways *)

Definition gateway_types : list string :=
  [ "exclusiveGateway"; "parallelGateway"; "inclusiveGateway";
    "eventBasedGateway"; "complexGateway" ].

Definition outgoing_body (rt : Element) (gw_id gw_name : string)
    (outgoing : Element) (self : Analyzer) : outcome Analyzer :=
  match text outgoing with
  | Some flow_id =>
      if Py.nonempty flow_id then
        flow ← find_by_id rt (bpmn "sequenceFlow") flow_id;
        Done
          (if_some flow (λ fl,
             if_some (find_child fl (bpmn "conditionExpression"))
               (λ condition,
                  if_str (text condition) (λ t,
                    validate_expression_syntax (Py.strip t) gw_id gw_name
                      ("gateway condition on flow " +:+ flow_id))))
             self)
      else Done self
  | None => Done self
  end.

Definition gateway_body (rt : Element) (gw_type : string)
    (gateway : Element) (self : Analyzer) : outcome Analyzer :=
  let gw_id := get_or gateway "id" "unknown" in
  let gw_name := get_or gateway "name" "Unnamed" in
  self ← for_each_exc (findall_child gateway (bpmn "outgoing"))
           (outgoing_body rt gw_id gw_name) self;
  let self :=
    when (bool_decide (gw_type = "complexGateway"))
      (add_issue CRITICAL "Gateway" gw_id gw_name
         "Complex gateway not supported in Camunda 8"
         "Consider redesigning using exclusive or parallel gateways.")
      self in
  Done
    (when (bool_decide (gw_type = "eventBasedGateway"))
       (add_issue WARNING "Gateway" gw_id gw_name
          "Event-based gateway behavior may differ"
          "Review event correlation and timing in Camunda 8.") self).

Definition validate_gateways (rt : Element) (self : Analyzer)
    : outcome Analyzer :=
  for_each_exc gateway_types (λ gw_type,
    for_each_exc (findall_desc rt (bpmn gw_type)) (gateway_body rt gw_type))
    self.

(** *** Events *)

Definition event_types : list string :=
  [ "startEvent"; "endEvent"; "intermediateCatchEvent";
    "intermediateThrowEvent"; "boundaryEvent" ].

Definition timer_body (event_id event_name : string)
    (tt : option Element * string) : stmt :=
  λ self,
    let time_element := tt.1 in
    let time_type := tt.2 in
    if_some time_element (λ te,
      if_str (text te) (λ t self,
        let expression := Py.strip t in
        let self := validate_expression_syntax expression event_id event_name
                      ("timer " +:+ time_type) self in
        when (negb (Py.startswith "P" expression)
              && negb (Py.startswith "=" expression))
          (add_issue WARNING "Timer" event_id event_name
             ("Timer " +:+ time_type +:+ " should use ISO 8601 format")
             ("Expression: " +:+ expression +:+
              ". Ensure compatibility with Camunda 8.")) self)) self.

Definition validate_timer_event (timer_def : Element)
    (event_id event_name : string) : stmt :=
  λ self,
    let time_date := find_child timer_def (bpmn "timeDate") in
    let time_duration := find_child timer_def (bpmn "timeDuration") in
    let time_cycle := find_child timer_def (bpmn "timeCycle") in
    for_each
      [ (time_date, "timeDate"); (time_duration, "timeDuration");
        (time_cycle, "timeCycle") ]
      (timer_body event_id event_name) self.

Definition validate_message_event (rt message_def : Element)
    (event_id event_name : string) (self : Analyzer) : outcome Analyzer :=
  match get message_def "messageRef" with
  | Some message_ref =>
      if Py.nonempty message_ref then
        found ← find_by_id rt (bpmn "message") message_ref;
        Done
          (if_some found (λ msg,
             let message_name := get msg "name" in
             if_some (find_child msg (bpmn "extensionElements")) (λ _,
               add_issue WARNING "Message Event" event_id event_name
                 "Message correlation may need adjustment"
                 ("Message: " +:+ Py.fmt message_name +:+
                  ". Review correlation keys for Camunda 8."))) self)
      else Done self
  | None => Done self
  end.

Definition validate_signal_event (signal_def : Element)
    (event_id event_name : string) : stmt :=
  if_str (get signal_def "signalRef") (λ signal_ref,
    add_issue WARNING "Signal Event" event_id event_name
      "Signal event behavior may differ in Camunda 8"
      ("Signal reference: " +:+ signal_ref +:+
       ". Verify signal scope and propagation.")).

Definition validate_error_event (rt error_def : Element)
    (event_id event_name : string) (self : Analyzer) : outcome Analyzer :=
  match get error_def "errorRef" with
  | Some error_ref =>
      if Py.nonempty error_ref then
        found ← find_by_id rt (bpmn "error") error_ref;
        Done
          (if_some found (λ err,
             let error_code_attr := get err "errorCode" in
             let error_name_attr := get err "name" in
             add_issue INFO "Error Event" event_id event_name
               "Error handling is compatible but verify error codes"
               ("Error: " +:+ Py.fmt error_name_attr +:+ ", Code: " +:+
                Py.fmt error_code_attr)) self)
      else Done self
  | None => Done self
  end.

Definition event_body (rt event : Element) (self : Analyzer)
    : outcome Analyzer :=
  let event_id := get_or event "id" "unknown" in
  let event_name := get_or event "name" "Unnamed" in
  let timer_def := find_child event (bpmn "timerEventDefinition") in
  let message_def := find_child event (bpmn "messageEventDefinition") in
  let signal_def := find_child event (bpmn "signalEventDefinition") in
  let error_def := find_child event (bpmn "errorEventDefinition") in
  let escalation_def := find_child event (bpmn "escalationEventDefinition") in
  let self :=
    if_some timer_def (λ d, validate_timer_event d event_id event_name)
      self in
  self ← match message_def with
         | Some d => validate_message_event rt d event_id event_name self
         | None => Done self
         end;
  let self :=
    if_some signal_def (λ d, validate_signal_event d event_id event_name)
      self in
  self ← match error_def with
         | Some d => validate_error_event rt d event_id event_name self
         | None => Done self
         end;
  Done
    (if_some escalation_def (λ _,
       add_issue WARNING "Event" event_id event_name
         "Escalation event behavior may differ in Camunda 8"
         "Review escalation handling and consider alternatives.") self).

Definition validate_events (rt : Element) (self : Analyzer)
    : outcome Analyzer :=
  for_each_exc event_types (λ event_type,
    for_each_exc (findall_desc rt (bpmn event_type)) (event_body rt)) self.

(** *** Orchestration *)

(** [parse]: the flag it returns and the analyzer with [root] set. *)
Definition parse (self : Analyzer) : bool * Analyzer :=
  match ET_parse (bpmn_file self) with
  | Some rt => (true, set_root (Some rt) self)
  | None => (false, self)
  end.

(** The dictionary built at the end of [analyze]. *)
Definition make_report (amb : Ambient) (self : Analyzer) : Report :=
  {| r_file := bpmn_file self;
     r_timestamp := now_isoformat amb;
     r_statistics := statistics self;
     r_issues := to_dict <$> issues self;
     r_process_variables := sorted (set_order amb (process_variables self)) |}.

(** The thirteen rule groups in the order [analyze] calls them.  The
    groups read [self.root], which [parse] has just set to [rt]. *)
Definition run_validations (rt : Element) (self : Analyzer)
    : outcome Analyzer :=
  let self := validate_namespaces rt self in
  let self := validate_service_tasks rt self in
  let self := validate_script_tasks rt self in
  let self := validate_user_tasks rt self in
  self ← validate_gateways rt self;
  self ← validate_events rt self;
  let self := validate_listeners rt self in
  let self := validate_call_activities rt self in
  let self := validate_business_rule_tasks rt self in
  let self := validate_multi_instance rt self in
  let self := validate_subprocesses rt self in
  let self := validate_input_output_mappings rt self in
  Done (validate_configurations rt self).

(** [analyze]: the returned dictionary and the analyzer afterwards, or
    the exception that ended the run. *)
Definition analyze (amb : Ambient) (self : Analyzer)
    : outcome (AnalysisResult * Analyzer) :=
  let '(ok, self) := parse self in
  if negb ok then Done (EmptyDict, self)
  else
    match root self with
    | Some rt =>
        self ← run_validations rt self;
        let self := calculate_statistics rt self in
        Done (ReportDict (make_report amb self), self)
    | None => Raised
    end.

End Run.

(** ** What a rule leaves behind *)

(** Appending [Δ] to the issues and merging [V] into the variables. *)
Definition emit (Δ : list MigrationIssue) (V : gset string) : stmt :=
  λ st,
    {| bpmn_file := bpmn_file st; root := root st; issues := issues st ++ Δ;
       statistics := statistics st;
       process_variables := process_variables st ∪ V |}.

(** A statement emits [P]-issues when all it does is append issues that
    satisfy [P] and merge variables, the same ones whatever analyzer it
    is given. *)
Definition emits (P : MigrationIssue → Prop) (f : stmt) : Prop :=
  ∃ Δ V, Forall P Δ ∧ ∀ st, f st = emit Δ V st.

(** The same for a statement that may raise, with a property [Q] of the
    whole list of appended issues: whether the statement raises is also
    independent of the analyzer. *)
Definition yields_exc (Q : list MigrationIssue → Prop)
    (f : Analyzer → outcome Analyzer) : Prop :=
  (∀ st, f st = Raised)
  ∨ ∃ Δ V, Q Δ ∧ ∀ st, f st = Done (emit Δ V st).

(** The number of issues of one category and severity. *)
Definition count_issues (cat : string) (sev : Severity)
    (l : list MigrationIssue) : nat :=
  length (filter (λ i, category i = cat ∧ severity i = sev) l).

(** A list with [c] CRITICAL and [w] WARNING issues of category Gateway. *)
Definition gateway_counts (c w : nat) (Δ : list MigrationIssue) : Prop :=
  count_issues "Gateway" CRITICAL Δ = c ∧ count_issues "Gateway" WARNING Δ = w.

(** An issue of another category than Gateway. *)
Definition not_gateway (i : MigrationIssue) : Prop := category i ≠ "Gateway".

(** The issue the gateway rule adds for a gateway of the given type, after
    the issues of its conditions. *)
Definition gateway_issue (gw_type : string) (gateway : Element)
    : list MigrationIssue :=
  (if bool_decide (gw_type = "complexGateway") then
     [ mkIssue CRITICAL "Gateway"
         (get_or gateway "id" "unknown") (get_or gateway "name" "Unnamed")
         "Complex gateway not supported in Camunda 8"
         "Consider redesigning using exclusive or parallel gateways." ]
   else [])
  ++ (if bool_decide (gw_type = "eventBasedGateway") then
        [ mkIssue WARNING "Gateway"
            (get_or gateway "id" "unknown") (get_or gateway "name" "Unnamed")
            "Event-based gateway behavior may differ"
            "Review event correlation and timing in Camunda 8." ]
      else []).

(** The issues one call of [validate_expression_syntax] appends. *)
Definition expression_issues (e eid en ctx : string) : list MigrationIssue :=
  issues (validate_expression_syntax e eid en ctx (init "")).

(** An analyzer that has every issue and variable of another. *)
Definition extends (st st' : Analyzer) : Prop :=
  (∃ Δ, issues st' = issues st ++ Δ)
  ∧ process_variables st ⊆ process_variables st'.

(** An element that the statistics count: its tag is one of
    [element_types] in the BPMN namespace. *)
Definition counted (e : Element) : Prop := tag e ∈ bpmn <$> element_types.

(** What two reports are compared on: severity, category, element and
    message of an issue. *)
Definition issue_key (i : IssueDict) : string * string * string * string :=
  (d_severity i, d_category i, d_element_id i, d_message i).

(** Two runs that end alike: both raise, or both return the empty
    dictionary, or both return a report with the same issues in the same
    order (so the same multiset of keys), the same variables, statistics
    and file; and they leave the same analyzer behind. *)
Definition same_outcome (o1 o2 : outcome (AnalysisResult * Analyzer)) : Prop :=
  match o1, o2 with
  | Done (ReportDict r1, st1), Done (ReportDict r2, st2) =>
      r_issues r1 = r_issues r2
      ∧ issue_key <$> r_issues r1 ≡ₚ issue_key <$> r_issues r2
      ∧ r_process_variables r1 = r_process_variables r2
      ∧ r_statistics r1 = r_statistics r2
      ∧ r_file r1 = r_file r2
      ∧ st1 = st2
  | Done (EmptyDict, st1), Done (EmptyDict, st2) => st1 = st2
  | Raised, Raised => True
  | _, _ => False
  end.

(** ** What the rules can report *)

(** The category and severity pairs that occur in the [add_issue] calls of
    the source, one line per rule group. *)
Definition catalogue : list (string * Severity) :=
  [ ("BPMN", WARNING);
    ("Service Task", INFO); ("Service Task", CRITICAL);
    ("Connector", CRITICAL); ("Configuration", INFO);
    ("Configuration", WARNING);
    ("Script Task", CRITICAL); ("Script Task", WARNING);
    ("User Task", CRITICAL); ("User Task", WARNING);
    ("Expression", CRITICAL);
    ("Gateway", CRITICAL); ("Gateway", WARNING);
    ("Timer", WARNING); ("Message Event", WARNING);
    ("Signal Event", WARNING); ("Error Event", INFO); ("Event", WARNING);
    ("Task Listener", CRITICAL); ("Execution Listener", CRITICAL);
    ("Call Activity", WARNING); ("Business Rule Task", WARNING);
    ("Subprocess", WARNING); ("I/O Mapping", CRITICAL) ].

Definition catalogued (i : MigrationIssue) : Prop :=
  (category i, severity i) ∈ catalogue.

(** A document whose references can all be put between apostrophes in an
    element path: no [outgoing] text and no [messageRef] or [errorRef]
    value holds an apostrophe.  Identifiers of the interchange format
    never do. *)
Definition plain_references (rt : Element) : Prop :=
  ∀ e v, e ∈ descendants rt →
    (tag e = bpmn "outgoing" ∧ text e = Some v)
    ∨ get e "messageRef" = Some v ∨ get e "errorRef" = Some v →
    Py.contains "'" v = false.

(** A test for [plain_references]. *)
Definition plain_value (o : option string) : bool :=
  match o with
  | Some v => negb (Py.contains "'" v)
  | None => true
  end.

Definition plain_references_test (rt : Element) : bool :=
  forallb
    (λ e, (if bool_decide (tag e = bpmn "outgoing") then plain_value (text e)
           else true)
          && plain_value (get e "messageRef")
          && plain_value (get e "errorRef"))
    (descendants rt).

(** ** Around the analysis: report, export and front ends *)

(** The assessment at the end of [print_report]: the level and its
    description, from the numbers of CRITICAL and WARNING issues. *)
Definition assess (critical_count warning_count : nat) : string * string :=
  if (critical_count =? 0) && (warning_count =? 0) then
    ("LOW", "Process appears largely compatible with minimal changes needed.")
  else if (critical_count <=? 5) && (warning_count <=? 10) then
    ("MEDIUM",
     "Moderate migration effort required. Focus on critical issues first.")
  else
    ("HIGH",
     "Significant migration effort required. Consider phased approach.").

(** [d[key]] on a dictionary: a missing key raises. *)
Definition getitem {A : Type} (d : gmap string A) (key : string) : outcome A :=
  match d !! key with
  | Some v => Done v
  | None => Raised
  end.

(** The assessment as [print_report] reaches it: both counts are read from
    [self.statistics], which is the empty dictionary until the statistics
    have been computed. *)
Definition migration_complexity (self : Analyzer) : outcome (string * string) :=
  match statistics self with
  | None => Raised
  | Some s =>
      critical_count ← getitem (issue_counts_by_severity s) "CRITICAL";
      warning_count ← getitem (issue_counts_by_severity s) "WARNING";
      Done (assess critical_count warning_count)
  end.

(** The levels in ascending order. *)
Definition level_rank (level : string) : nat :=
  if bool_decide (level = "LOW") then 0
  else if bool_decide (level = "MEDIUM") then 1
  else 2.

(** [export_json], up to the dictionary it hands to [json.dump]: the
    analysis is run only when no statistics are there yet; otherwise the
    dictionary is built from the analyzer as it stands. *)
Section ExportJson.

Variable ET_parse : string → option Element.
Variable find_quoted : Element → string → string → outcome (option Element).

Definition export_json (amb : Ambient) (self : Analyzer)
    : outcome (AnalysisResult * Analyzer) :=
  match statistics self with
  | None => analyze ET_parse find_quoted amb self
  | Some _ => Done (ReportDict (make_report amb self), self)
  end.

End ExportJson.

(** The option loop of [main] over the arguments that follow the input
    path: [--json], [--csv] and [--html] take the next argument as their
    value; anything else, and a flag in last position, is skipped. *)
Module main.

Record Options : Type := mkOptions {
  export_json : option string;
  export_csv : option string;
  export_html : option string
}.

Definition no_options : Options :=
  {| export_json := None; export_csv := None; export_html := None |}.

Fixpoint parse_options (args : list string) (o : Options) : Options :=
  match args with
  | [] => o
  | a :: rest =>
      match rest with
      | v :: rest' =>
          if bool_decide (a = "--json") then
            parse_options rest'
              {| export_json := Some v; export_csv := export_csv o;
                 export_html := export_html o |}
          else if bool_decide (a = "--csv") then
            parse_options rest'
              {| export_json := export_json o; export_csv := Some v;
                 export_html := export_html o |}
          else if bool_decide (a = "--html") then
            parse_options rest'
              {| export_json := export_json o; export_csv := export_csv o;
                 export_html := Some v |}
          else parse_options rest o
      | [] => o
      end
  end.

End main.

(** [filename.rsplit('.', 1)[1]]: the text after the last dot; there is no
    such item when the name has no dot. *)
Fixpoint rsplit_dot_1 (filename : string) : option string :=
  match filename with
  | "" => None
  | String c s =>
      match rsplit_dot_1 s with
      | Some ext => Some ext
      | None => if bool_decide (c = "."%char) then Some s else None
      end
  end.

Definition ALLOWED_EXTENSIONS : list string := ["bpmn"; "xml"].

(** [allowed_file] of the web front end. *)
Definition allowed_file (filename : string) : bool :=
  Py.contains "." filename
  && match rsplit_dot_1 filename with
     | Some ext => Py.mem (Py.lower ext) ALLOWED_EXTENSIONS
     | None => false
     end.

(** ** Where an issue points *)

(** An issue that carries the given element id and name. *)
Definition issue_at (eid en : string) (i : MigrationIssue) : Prop :=
  element_id i = eid ∧ element_name i = en.

(** An issue that names the element [e]: its [id] and [name] attributes,
    or the texts the rules put in their place when an attribute is
    missing. *)
Definition attributed_to (e : Element) : MigrationIssue → Prop :=
  issue_at (get_or e "id" "unknown") (get_or e "name" "Unnamed").

(** An issue that names the document as a whole or one of its elements. *)
Definition located (rt : Element) (i : MigrationIssue) : Prop :=
  issue_at "root" "BPMN Document" i ∨ ∃ e, e ∈ iter rt ∧ attributed_to e i.

(** ** The command line *)

(** [v] is the argument that directly follows an argument [flag]. *)
Definition follows (flag v : string) (args : list string) : Prop :=
  ∃ before after, args = before ++ flag :: v :: after.

Definition flags : list string := ["--json"; "--csv"; "--html"].

(** ** Timers that get the format warning *)

(** A timer child that the rule flags: it is there, it has text, and the
    stripped text starts with neither [P] nor [=]. *)
Definition timer_flagged (time_element : option Element) : bool :=
  match time_element with
  | Some te =>
      match text te with
      | Some t =>
          Py.nonempty t
          && negb (Py.startswith "P" (Py.strip t))
          && negb (Py.startswith "=" (Py.strip t))
      | None => false
      end
  | None => false
  end.

(** ** What a rule group contributes *)

(** A statement that appends a list of issues whose members with the
    property [P] are [L], in this order, and merges the variables [V]. *)
Definition selects (P : MigrationIssue → Prop) `{!∀ i, Decision (P i)}
    (f : stmt) (L : list MigrationIssue) (V : gset string) : Prop :=
  ∃ Δ, (∀ st, f st = emit Δ V st) ∧ filter P Δ = L.

(** The issues a statement appends and the variables it merges, read off
    a fresh analyzer. *)
Definition added (f : stmt) : list MigrationIssue := issues (f (init "")).
Definition merged (f : stmt) : gset string :=
  process_variables (f (init "")).

(** An issue of the expression validator, or a CRITICAL issue of category
    Service Task. *)
Definition worker_or_expression (i : MigrationIssue) : Prop :=
  category i = "Expression"
  ∨ (category i = "Service Task" ∧ severity i = CRITICAL).

Global Instance worker_or_expression_dec i : Decision (worker_or_expression i).
Proof. unfold worker_or_expression. apply _. Defined.

(** What a service task is to contribute by its [delegateExpression],
    [class] and [expression] attributes: the delegate expression is
    validated and asks for a worker, the class only asks for a worker, the
    expression is only validated; an attribute that is missing or empty
    contributes nothing. *)
Definition service_task_issues (task : Element) : list MigrationIssue :=
  let task_id := get_or task "id" "unknown" in
  let task_name := get_or task "name" "Unnamed" in
  match get task (camunda "delegateExpression") with
  | Some d =>
      if Py.nonempty d then
        expression_issues d task_id task_name "delegateExpression"
        ++ [ mkIssue CRITICAL "Service Task" task_id task_name
               "Delegate expression must be converted to Job Worker"
               ("Delegate: " +:+ d +:+
                ". Implement as external task worker in Camunda 8.") ]
      else []
  | None => []
  end
  ++ match get task (camunda "class") with
     | Some c =>
         if Py.nonempty c then
           [ mkIssue CRITICAL "Service Task" task_id task_name
               "Java delegate class must be converted to Job Worker"
               ("Class: " +:+ c +:+
                ". Implement as external task worker in Camunda 8.") ]
         else []
     | None => []
     end
  ++ match get task (camunda "expression") with
     | Some e =>
         if Py.nonempty e then
           expression_issues e task_id task_name "expression attribute"
         else []
     | None => []
     end.

(** The variables of the two validated attributes. *)
Definition service_task_variables (task : Element) : gset string :=
  extract_variables_from_expression (get task (camunda "delegateExpression"))
  ∪ extract_variables_from_expression (get task (camunda "expression")).

(** An issue of a category that neither the service-task group nor the
    script-task group uses. *)
Definition other_task (i : MigrationIssue) : Prop :=
  category i ≠ "Service Task" ∧ category i ≠ "Script Task".

(** The report of a run, if it ended with one. *)
Definition report_of (o : outcome (AnalysisResult * Analyzer))
    : option Report :=
  match o with
  | Done (ReportDict r, _) => Some r
  | _ => None
  end.

(** ** Sample elements *)

(** [<bpmn:scriptTask id="s1" camunda:scriptFormat=""/>] *)
Definition script_task_blank_format : Element :=
  Node (bpmn "scriptTask") {[ "id" := "s1"; camunda "scriptFormat" := "" ]}
    None [].

(** [<bpmn:scriptTask id="s2" camunda:scriptFormat="Python"/>] *)
Definition script_task_python : Element :=
  Node (bpmn "scriptTask") {[ "id" := "s2"; camunda "scriptFormat" := "Python" ]}
    None [].

(** [<bpmn:serviceTask id="t1" camunda:class="${foo}"/>] *)
Definition service_task_class : Element :=
  Node (bpmn "serviceTask") {[ "id" := "t1"; camunda "class" := "${foo}" ]}
    None [].

(** [<bpmn:serviceTask id="t2" camunda:delegateExpression="${myDelegate}"
      camunda:expression="#{order.total}"/>] *)
Definition service_task_delegate : Element :=
  Node (bpmn "serviceTask")
    {[ "id" := "t2"; camunda "delegateExpression" := "${myDelegate}";
       camunda "expression" := "#{order.total}" ]}
    None [].

(** [<bpmn:serviceTask id="t3" camunda:class=""/>] *)
Definition service_task_empty_class : Element :=
  Node (bpmn "serviceTask") {[ "id" := "t3"; camunda "class" := "" ]} None [].

(** A document around a list of tasks. *)
Definition process_of (tasks : list Element) : Element :=
  Node (bpmn "definitions")
    {[ xsi "schemaLocation"
         := "http://www.omg.org/spec/BPMN/20100524/MODEL BPMN20.xsd" ]}
    None
    [ Node (bpmn "process") {[ "id" := "p" ]} None tasks ].

(** A small process: a service task with a delegate class, a user task
    with two expressions, a complex gateway whose outgoing flow carries a
    condition, and an event-based gateway. *)
Definition sample_document : Element :=
  Node (bpmn "definitions")
    {[ xsi "schemaLocation"
         := "http://www.omg.org/spec/BPMN/20100524/MODEL BPMN20.xsd" ]}
    None
    [ Node (bpmn "process") {[ "id" := "order" ]} None
        [ Node (bpmn "serviceTask")
            {[ "id" := "Task_1"; "name" := "Charge";
               camunda "class" := "com.acme.MyDelegate" ]} None [];
          Node (bpmn "userTask")
            {[ "id" := "Task_2"; camunda "assignee" := "${owner}";
               camunda "candidateGroups" := "${dept.name}" ]} None [];
          Node (bpmn "complexGateway") {[ "id" := "Gw_1" ]} None
            [ Node (bpmn "outgoing") ∅ (Some "Flow_1") [] ];
          Node (bpmn "eventBasedGateway") {[ "id" := "Gw_2" ]} None [];
          Node (bpmn "sequenceFlow") {[ "id" := "Flow_1" ]} None
            [ Node (bpmn "conditionExpression") ∅
                (Some "${amount > 100}") [] ] ] ].

(** A file system with that one document, and one with no readable
    document at all. *)
Definition sample_parse : string → option Element := λ _, Some sample_document.
Definition failing_parse : string → option Element := λ _, None.

(** A library that rejects every path whose value holds an apostrophe. *)
Definition rejecting_find : Element → string → string → outcome (option Element) :=
  λ _ _ _, Raised.

(** Two surroundings of a run: different clocks, and sets walked in
    opposite orders. *)
Definition morning : Ambient :=
  {| now_isoformat := "2024-05-01T08:00:00"; set_order := elements |}.
Definition evening : Ambient :=
  {| now_isoformat := "2024-05-01T20:30:00";
     set_order := λ s, reverse (elements s) |}.

(** Whether a run ended with a report. *)
Definition is_report (o : outcome (AnalysisResult * Analyzer)) : bool :=
  match o with
  | Done (ReportDict _, _) => true
  | _ => false
  end.

(** * Properties *)

(** ** Statements that only append *)

Section Emits.
Context (P : MigrationIssue → Prop).

Lemma emit_nil st : emit [] ∅ st = st.
Proof.
  destruct st; unfold emit; simpl. by rewrite app_nil_r, (right_id_L ∅ (∪)).
Qed.

Lemma emit_emit Δ1 V1 Δ2 V2 st :
  emit Δ2 V2 (emit Δ1 V1 st) = emit (Δ1 ++ Δ2) (V1 ∪ V2) st.
Proof. unfold emit; simpl. by rewrite app_assoc, (assoc_L (∪)). Qed.

Lemma emits_id : emits P (λ st, st).
Proof. exists [], ∅. split; [done|]. intros st. by rewrite emit_nil. Qed.

Lemma emits_comp f g : emits P f → emits P g → emits P (λ st, g (f st)).
Proof.
  intros (Δ1 & V1 & HP1 & Hf) (Δ2 & V2 & HP2 & Hg).
  exists (Δ1 ++ Δ2), (V1 ∪ V2). split; [by apply Forall_app|].
  intros st. by rewrite Hf, Hg, emit_emit.
Qed.

Lemma emits_add_issue sev cat eid en msg det :
  P (mkIssue sev cat eid en msg det) →
  emits P (add_issue sev cat eid en msg det).
Proof.
  intros HP. exists [mkIssue sev cat eid en msg det], ∅.
  split; [by repeat constructor|]. intros [f r i s v].
  unfold add_issue, set_issues, emit; simpl. by rewrite (right_id_L ∅ (∪)).
Qed.

Lemma emits_update_variables vs : emits P (update_variables vs).
Proof.
  exists [], vs. split; [done|]. intros [f r i s v].
  unfold update_variables, set_variables, emit; simpl. by rewrite app_nil_r.
Qed.

Lemma emits_if (b : bool) (f g : stmt) :
  emits P f → emits P g → emits P (if b then f else g).
Proof. by destruct b. Qed.

Lemma emits_when b f : emits P f → emits P (when b f).
Proof. intros Hf. unfold when. destruct b; [done | apply emits_id]. Qed.

Lemma emits_if_str o k : (∀ s, emits P (k s)) → emits P (if_str o k).
Proof.
  intros Hk. unfold if_str. destruct o as [s|]; [|apply emits_id].
  destruct (Py.nonempty s); [apply Hk | apply emits_id].
Qed.

Lemma emits_if_some {A} (o : option A) k :
  (∀ x, emits P (k x)) → emits P (if_some o k).
Proof.
  intros Hk. unfold if_some. destruct o as [x|]; [apply Hk | apply emits_id].
Qed.

Lemma emits_for_each {A} (l : list A) body :
  (∀ x, emits P (body x)) → emits P (for_each l body).
Proof.
  intros Hb. unfold for_each. induction l as [|x l IH]; simpl.
  - apply emits_id.
  - apply (emits_comp (body x) (λ st, foldl (λ s y, body y s) st l));
      [apply Hb | apply IH].
Qed.

Hypothesis P_expression : ∀ i, category i = "Expression" → P i.

Lemma emits_validate_expression_syntax e eid en ctx :
  emits P (validate_expression_syntax e eid en ctx).
Proof.
  unfold validate_expression_syntax.
  destruct (negb (Py.nonempty e)); [apply emits_id|]. cbv zeta.
  apply (emits_comp (λ st, when _ _ (update_variables _ st)) (when _ _)).
  - apply (emits_comp (update_variables _) (when _ _)).
    + apply emits_update_variables.
    + apply emits_when, emits_add_issue. by apply P_expression.
  - apply emits_when, emits_add_issue. by apply P_expression.
Qed.
End Emits.

Ltac emits_step :=
  lazymatch goal with
  | |- emits _ (λ st, st) => apply emits_id
  | |- emits _ (add_issue _ _ _ _ _ _) => apply emits_add_issue
  | |- emits _ (update_variables _) => apply emits_update_variables
  | |- emits _ (validate_expression_syntax _ _ _ _) =>
      apply emits_validate_expression_syntax
  | |- emits _ (when _ _) => apply emits_when
  | |- emits _ (if_str _ _) => apply emits_if_str; intros ?
  | |- emits _ (if_some _ _) => apply emits_if_some; intros ?
  | |- emits _ (for_each _ _) => apply emits_for_each; intros ?
  | |- emits _ (if _ then _ else _) => apply emits_if
  | |- emits ?P (λ st, ?g (@?f st)) => apply (emits_comp P f g)
  end.


Global Instance extends_preorder : PreOrder extends.
Proof.
  split.
  - intros st. split; [exists []; by rewrite app_nil_r | done].
  - intros a b c [[Δ1 H1] V1] [[Δ2 H2] V2]. split; [|set_solver].
    exists (Δ1 ++ Δ2). by rewrite H2, H1, app_assoc.
Qed.

Lemma emits_extends P f st : emits P f → extends st (f st).
Proof.
  intros (Δ & V & _ & Hf). rewrite Hf. split; [by exists Δ|].
  unfold emit; simpl. set_solver.
Qed.

Lemma extends_issue st st' i :
  extends st st' → i ∈ issues st → i ∈ issues st'.
Proof. intros [[Δ ->] _] Hi. apply elem_of_app. by left. Qed.

Lemma extends_variables st st' V :
  extends st st' → V ⊆ process_variables st → V ⊆ process_variables st'.
Proof. intros [_ HV] H. set_solver. Qed.

Lemma contains_nonempty p s :
  Py.nonempty p = true → Py.contains p s = true → Py.nonempty s = true.
Proof. destruct p, s; done. Qed.

(** ** The pattern scanner *)

Lemma scan_group_shorter s g rest :
  scan_group s = Some (g, rest) → String.length rest < String.length s.
Proof.
  revert g rest. induction s as [|c s IH]; intros g rest; simpl; [done|].
  destruct (decide (c = "}"%char)).
  - intros [= <- <-]. lia.
  - destruct (scan_group s) as [[g' rest']|]; [|done].
    intros [= <- <-]. specialize (IH _ _ eq_refl). lia.
Qed.

Lemma match_here_shorter s g rest :
  match_here s = Some (g, rest) → String.length rest < String.length s.
Proof.
  destruct s as [|c [|b s]]; simpl; try done.
  destruct (Ascii.eqb_spec b "{"%char) as [->|Hb].
  - destruct (bool_decide (c = "$"%char) || bool_decide (c = "#"%char));
      [|done].
    destruct (scan_group s) as [[[|g0 g'] rest']|] eqn:Hs; try done.
    intros [= <- <-]. apply scan_group_shorter in Hs. simpl. lia.
  - destruct b as [[] [] [] [] [] [] [] []]; done.
Qed.

(** The scan never needs more fuel than the text has characters: with
    any larger amount it returns the same matches. *)
Lemma findall_groups_fuel n s :
  String.length s ≤ n → findall_groups n s = re_findall s.
Proof.
  unfold re_findall.
  assert (∀ n m s, String.length s ≤ n → String.length s ≤ m →
                   findall_groups n s = findall_groups m s) as H.
  { clear. induction n as [|n IH]; intros m s Hn Hm.
    - destruct s; [|simpl in Hn; lia]. by destruct m.
    - destruct m as [|m]; [destruct s; [done|simpl in Hm; lia]|].
      simpl. destruct (match_here s) as [[g rest]|] eqn:Hmh.
      + apply match_here_shorter in Hmh. f_equal. apply IH; lia.
      + destruct s as [|c s]; [done|]. simpl in Hn, Hm. apply IH; lia. }
  intros Hn. by apply H.
Qed.

(** ** Parents *)

(** The traversal with parents visits the nodes of [iter] in the same
    order. *)
Lemma iter_with_parent_snd : ∀ e p, (iter_with_parent p e).*2 = iter e.
Proof.
  fix IH 1. intros [t a x cs] p. cbn [iter_with_parent iter].
  rewrite fmap_cons. f_equal. generalize (Node t a x cs) at 1. intros q.
  induction cs as [|c cs IHcs]; [done|].
  cbn [flat_map]. by rewrite fmap_app, IH, IHcs.
Qed.

Lemma descendants_with_parent_snd rt :
  (descendants_with_parent rt).*2 = descendants rt.
Proof.
  unfold descendants_with_parent, descendants.
  induction (children rt) as [|c cs IH]; [done|].
  cbn [flat_map]. by rewrite fmap_app, iter_with_parent_snd, IH.
Qed.

(** Every pair of the traversal is a node with the element it is a child
    of, which is what [find_parent] looks for. *)
Lemma iter_with_parent_child : ∀ e p0 p c,
  (p, c) ∈ iter_with_parent p0 e → (p, c) = (p0, e) ∨ c ∈ children p.
Proof.
  fix IH 1. intros [t a x cs] p0 p c. cbn [iter_with_parent].
  intros [->|Hin]%elem_of_cons; [by left|]. right.
  assert (∀ l, (∀ d, d ∈ l → d ∈ cs) →
               (p, c) ∈ flat_map (iter_with_parent (Node t a x cs)) l →
               c ∈ children p) as Hl.
  { clear Hin. induction l as [|d l IHl]; intros Hsub; cbn [flat_map].
    - by intros ?%elem_of_nil.
    - intros [Hd|Hr]%elem_of_app.
      + apply IH in Hd as [[= -> ->]|Hd]; [|done].
        cbn. apply Hsub. by left.
      + apply IHl; [|done]. intros d' Hd'. apply Hsub. by right. }
  by apply (Hl cs).
Qed.

Lemma descendants_with_parent_child rt p c :
  (p, c) ∈ descendants_with_parent rt → c ∈ children p.
Proof.
  unfold descendants_with_parent.
  assert (∀ l, (∀ d, d ∈ l → d ∈ children rt) →
               (p, c) ∈ flat_map (iter_with_parent rt) l → c ∈ children p)
    as Hl.
  { induction l as [|d l IHl]; intros Hsub; cbn [flat_map].
    - by intros ?%elem_of_nil.
    - intros [Hd|Hr]%elem_of_app.
      + apply iter_with_parent_child in Hd as [[= -> ->]|Hd]; [|done].
        apply Hsub. by left.
      + apply IHl; [|done]. intros d' Hd'. apply Hsub. by right. }
  by apply (Hl (children rt)).
Qed.

(** ** The expression validator *)

(** One call appends [expression_issues] and merges the extracted
    variables, whatever analyzer it starts from. *)
Lemma validate_expression_syntax_emit e eid en ctx st :
  validate_expression_syntax e eid en ctx st
  = emit (expression_issues e eid en ctx)
      (extract_variables_from_expression (Some e)) st.
Proof.
  unfold expression_issues, validate_expression_syntax, when,
    extract_variables_from_expression.
  destruct (Py.nonempty e); cbn [negb]; [|symmetry; apply emit_nil].
  destruct st as [f r i s v].
  repeat match goal with |- context [if ?b then _ else _] => destruct b end;
    unfold emit, add_issue, update_variables, set_issues, set_variables;
    simpl; rewrite ?app_nil_r, <-?app_assoc; f_equal; set_solver.
Qed.

(** C1: a string that holds one of the markers [${] and [#{] makes
    [validate_expression_syntax] append at least one CRITICAL issue of
    category Expression, and every variable name the extractor finds in
    the string is in [process_variables] afterwards. *)
Theorem validate_expression_syntax_marker e eid en ctx st :
  Py.contains "${" e || Py.contains "#{" e = true →
  (∃ Δ i,
      issues (validate_expression_syntax e eid en ctx st) = issues st ++ Δ
      ∧ i ∈ Δ ∧ severity i = CRITICAL ∧ category i = "Expression")
  ∧ extract_variables_from_expression (Some e)
      ⊆ process_variables (validate_expression_syntax e eid en ctx st).
Proof.
  intros Hm. split.
  - assert (Py.nonempty e = true) as Hne.
    { apply orb_true_iff in Hm as [H|H];
        by apply contains_nonempty in H. }
    unfold validate_expression_syntax, when. rewrite Hne, Hm. cbn [negb].
    match goal with |- context [if ?b then _ else _] => destruct b end;
      unfold add_issue, update_variables, set_issues, set_variables; simpl.
    + eexists [_; _], _. rewrite <-app_assoc.
      split; [reflexivity|]. split; [apply list_elem_of_here|done].
    + eexists [_], _.
      split; [reflexivity|]. split; [apply list_elem_of_here|done].
  - rewrite validate_expression_syntax_emit. unfold emit; simpl. set_solver.
Qed.

(** C2: one call on the unbalanced text [${myVar] appends exactly two
    issues, both CRITICAL and of category Expression: the legacy-syntax
    issue and then the malformed-expression issue. *)
Theorem validate_expression_syntax_unbalanced eid en ctx st :
  issues (validate_expression_syntax "${myVar" eid en ctx st)
  = issues st ++
    [ mkIssue CRITICAL "Expression" eid en
        ("JUEL/UEL expression detected in " +:+ ctx)
        "Expression '${myVar' uses Camunda 7 syntax. Must be converted to FEEL in Camunda 8. Example: '${myVar}' -> '=myVar'";
      mkIssue CRITICAL "Expression" eid en
        ("Malformed expression in " +:+ ctx)
        "Expression '${myVar' appears to be incomplete" ].
Proof. rewrite validate_expression_syntax_emit. reflexivity. Qed.

(** C8: the extractor returns exactly the set with [myDelegate] for
    [${myDelegate}], exactly the set with [order] for [${order.total}],
    and the empty set for an empty or a missing input. *)
Theorem extract_variables_from_expression_examples :
  extract_variables_from_expression (Some "${myDelegate}") = {[ "myDelegate" ]}
  ∧ extract_variables_from_expression (Some "${order.total}") = {[ "order" ]}
  ∧ extract_variables_from_expression (Some "") = ∅
  ∧ extract_variables_from_expression None = ∅.
Proof. repeat split; by vm_compute. Qed.

(** ** Script tasks *)

Lemma issues_if_str_update_variables o (g : string → gset string) st :
  issues (if_str o (λ c, update_variables (g c)) st) = issues st.
Proof.
  unfold if_str. destruct o as [s|]; [destruct (Py.nonempty s)|]; done.
Qed.

(** The body of the script-task loop on a task whose [scriptFormat] is
    present and not empty: exactly one CRITICAL Script Task issue when the
    lower-cased format is none of feel, javascript and groovy, exactly one
    WARNING Script Task issue when it is groovy or javascript, and no issue
    when it is feel. *)
Lemma script_task_body_format task f st :
  get task (camunda "scriptFormat") = Some f → f ≠ "" →
  (Py.lower f ∉ ["feel"; "javascript"; "groovy"] →
     issues (script_task_body task st)
     = issues st ++
       [ mkIssue CRITICAL "Script Task"
           (get_or task "id" "unknown") (get_or task "name" "Unnamed")
           ("Script format '" +:+ f +:+ "' not supported in Camunda 8")
           "Consider converting to FEEL or implementing as Job Worker." ])
  ∧ (Py.lower f ∈ ["groovy"; "javascript"] →
     issues (script_task_body task st)
     = issues st ++
       [ mkIssue WARNING "Script Task"
           (get_or task "id" "unknown") (get_or task "name" "Unnamed")
           ("Script format '" +:+ f +:+ "' support is limited")
           "Groovy and JavaScript support may differ. Test thoroughly or convert to FEEL." ])
  ∧ (Py.lower f = "feel" →
     issues (script_task_body task st) = issues st).
Proof.
  intros Hf Hne.
  assert (Py.nonempty f = true) as Hn by by destruct f.
  unfold script_task_body; cbv zeta.
  rewrite issues_if_str_update_variables, Hf.
  unfold if_some, when, Py.mem. rewrite Hn. cbn [andb].
  repeat split.
  - intros H. by rewrite bool_decide_eq_false_2.
  - intros H. rewrite (bool_decide_eq_true_2 (_ ∈ ["groovy"; _])) by done.
    rewrite bool_decide_eq_true_2; [done|].
    rewrite !elem_of_cons in H. rewrite !elem_of_cons. tauto.
  - intros ->. done.
Qed.

(** ** Service tasks *)

Ltac emits_all := repeat emits_step; try done.

Ltac extends_chain :=
  lazymatch goal with
  | |- extends ?a ?a => reflexivity
  | |- extends ?a (?f ?x) =>
      trans x;
      [ extends_chain
      | apply (emits_extends (λ _, True) f x); by emits_all ]
  end.

(** Isolate the analyzer right after the guarded statement on [v] and
    record that the final analyzer extends it. *)
Ltac focus_on v st1 st2 Hext :=
  match goal with
  | |- context [if_str (Some v) ?k ?s] =>
      set (st1 := s); set (st2 := if_str (Some v) k st1)
  end;
  match goal with
  | |- context [issues ?s] => assert (extends st2 s) as Hext by extends_chain
  end.

Lemma if_str_nonempty v k st :
  v ≠ "" → if_str (Some v) k st = k v st.
Proof. intros Hv. unfold if_str. by destruct v. Qed.

(** The body of the service-task loop: a [delegateExpression] or
    [expression] attribute that is present and not empty goes through
    [validate_expression_syntax] (its variables are merged and its issues
    appended), and a [delegateExpression] or [class] attribute that is
    present and not empty adds the CRITICAL Service Task issue that asks for
    a job worker. *)
Lemma service_task_body_attributes task st :
  (∀ d, get task (camunda "delegateExpression") = Some d → d ≠ "" →
     extract_variables_from_expression (Some d)
       ⊆ process_variables (service_task_body task st)
     ∧ (∀ i, i ∈ expression_issues d (get_or task "id" "unknown")
                   (get_or task "name" "Unnamed") "delegateExpression" →
             i ∈ issues (service_task_body task st))
     ∧ mkIssue CRITICAL "Service Task"
         (get_or task "id" "unknown") (get_or task "name" "Unnamed")
         "Delegate expression must be converted to Job Worker"
         ("Delegate: " +:+ d +:+
          ". Implement as external task worker in Camunda 8.")
       ∈ issues (service_task_body task st))
  ∧ (∀ c, get task (camunda "class") = Some c → c ≠ "" →
     mkIssue CRITICAL "Service Task"
       (get_or task "id" "unknown") (get_or task "name" "Unnamed")
       "Java delegate class must be converted to Job Worker"
       ("Class: " +:+ c +:+
        ". Implement as external task worker in Camunda 8.")
     ∈ issues (service_task_body task st))
  ∧ (∀ e, get task (camunda "expression") = Some e → e ≠ "" →
     extract_variables_from_expression (Some e)
       ⊆ process_variables (service_task_body task st)
     ∧ (∀ i, i ∈ expression_issues e (get_or task "id" "unknown")
                   (get_or task "name" "Unnamed") "expression attribute" →
             i ∈ issues (service_task_body task st))).
Proof.
  unfold service_task_body; cbv zeta. split; [|split].
  - intros d Hd Hne. rewrite Hd. focus_on d st1 st2 Hext.
    assert (extends (add_issue CRITICAL "Service Task"
                    (get_or task "id" "unknown") (get_or task "name" "Unnamed")
                    "Delegate expression must be converted to Job Worker"
                    ("Delegate: " +:+ d +:+
                     ". Implement as external task worker in Camunda 8.")
                    (emit (expression_issues d (get_or task "id" "unknown")
                             (get_or task "name" "Unnamed") "delegateExpression")
                       (extract_variables_from_expression (Some d)) st1)) st2)
      as Hst2.
    { unfold st2. rewrite if_str_nonempty by done.
      by rewrite validate_expression_syntax_emit. }
    split; [|split].
    + apply (extends_variables _ _ _ Hext), (extends_variables _ _ _ Hst2).
      simpl. set_solver.
    + intros i Hi. apply (extends_issue _ _ _ Hext), (extends_issue _ _ _ Hst2).
      simpl. rewrite !elem_of_app. auto.
    + apply (extends_issue _ _ _ Hext), (extends_issue _ _ _ Hst2). simpl.
      rewrite !elem_of_app, list_elem_of_singleton. auto.
  - intros c Hc Hne. rewrite Hc. focus_on c st1 st2 Hext.
    apply (extends_issue _ _ _ Hext). unfold st2.
    rewrite if_str_nonempty by done. simpl.
    rewrite elem_of_app, list_elem_of_singleton. auto.
  - intros e He Hne. rewrite He. focus_on e st1 st2 Hext.
    assert (st2 = emit (expression_issues e (get_or task "id" "unknown")
                          (get_or task "name" "Unnamed") "expression attribute")
                    (extract_variables_from_expression (Some e)) st1) as Hst2.
    { unfold st2. rewrite if_str_nonempty by done.
      by rewrite validate_expression_syntax_emit. }
    split.
    + apply (extends_variables _ _ _ Hext). rewrite Hst2. simpl. set_solver.
    + intros i Hi. apply (extends_issue _ _ _ Hext). rewrite Hst2. simpl.
      rewrite elem_of_app. auto.
Qed.

Lemma validate_expression_syntax_marker_witness :
  (Py.contains "${" "${a}" || Py.contains "#{" "${a}" = true)
  ∧ {[ "a" ]}
      ⊆ process_variables
          (validate_expression_syntax "${a}" "t" "n" "assignee" (init "p.bpmn")).
Proof.
  assert (Py.contains "${" "${a}" || Py.contains "#{" "${a}" = true) as H
    by done.
  split; [exact H|].
  exact (proj2 (validate_expression_syntax_marker "${a}" "t" "n" "assignee"
                  (init "p.bpmn") H)).
Defined.

(** ** Statistics *)

Lemma sum_values_empty : sum_values ∅ = 0.
Proof. apply map_fold_empty. Qed.

Lemma sum_values_insert (m : gmap string nat) k v :
  m !! k = None → sum_values (<[k:=v]> m) = v + sum_values m.
Proof.
  intros Hk. unfold sum_values.
  apply (map_fold_insert_L (λ _ v acc, v + acc)); [intros; lia | done].
Qed.

Lemma count_elements_snoc rt types t :
  count_elements rt (types ++ [t])
  = count_step rt (count_elements rt types) t.
Proof. unfold count_elements. by rewrite foldl_snoc. Qed.

(** The counting loop keeps the total equal to the sum of the entries, and
    leaves one entry per element type. *)
Lemma count_elements_spec rt types :
  NoDup types →
  sum_values (count_elements rt types).1 = (count_elements rt types).2
  ∧ dom (count_elements rt types).1 = list_to_set types
  ∧ (∀ t, t ∈ types →
       (count_elements rt types).1 !! t
       = Some (length (findall_desc rt (bpmn t))))
  ∧ (count_elements rt types).2
    = sum_list_with (λ t, length (findall_desc rt (bpmn t))) types.
Proof.
  induction types as [|t types IH] using rev_ind; intros Hnd.
  - repeat split; try done. intros t Ht. by apply elem_of_nil in Ht.
  - apply NoDup_app in Hnd as (Hnd & Hnotin & _).
    destruct (IH Hnd) as (Hsum & Hdom & Hlook & Htot).
    assert (t ∉ types) as Ht by (intros Hin; apply (Hnotin t Hin); by left).
    assert ((count_elements rt types).1 !! t = None) as Hnone.
    { apply not_elem_of_dom. rewrite Hdom. by rewrite elem_of_list_to_set. }
    rewrite count_elements_snoc. unfold count_step; simpl.
    split; [|split; [|split]].
    + rewrite sum_values_insert by done. lia.
    + rewrite dom_insert_L, Hdom, list_to_set_app_L. simpl.
      rewrite (right_id_L ∅ (∪)). apply (comm_L (∪)).
    + intros t' [Hin| ->%list_elem_of_singleton]%elem_of_app.
      * rewrite lookup_insert_ne; [by apply Hlook|]. by intros ->.
      * by rewrite lookup_insert_eq.
    + rewrite sum_list_with_app. simpl. lia.
Qed.

(** Every issue has exactly one of the three severities. *)
Lemma count_severity_total l :
  count_severity CRITICAL l + count_severity WARNING l + count_severity INFO l
  = length l.
Proof.
  unfold count_severity. induction l as [|i l IH]; [done|].
  rewrite !filter_cons. destruct (severity i);
    repeat case_decide; try done; simpl; lia.
Qed.

Lemma length_filter_tag_cons t (ts : list string) (l : list Element) :
  t ∉ ts →
  length (filter (λ e, tag e ∈ t :: ts) l)
  = length (filter (λ e, tag e = t) l) + length (filter (λ e, tag e ∈ ts) l).
Proof.
  intros Ht. induction l as [|e l IH]; [done|].
  rewrite !filter_cons.
  destruct (decide (tag e = t)) as [He|He].
  - rewrite decide_True by (rewrite He; apply elem_of_cons; by left).
    rewrite decide_False by by rewrite He. simpl. by rewrite IH.
  - destruct (decide (tag e ∈ ts)) as [Hin|Hin].
    + rewrite decide_True by (apply elem_of_cons; by right).
      simpl. rewrite IH. lia.
    + rewrite decide_False; [done|].
      intros [?|?]%elem_of_cons; done.
Qed.

(** Summing, over pairwise distinct tags, the number of elements with
    that tag counts the elements whose tag is one of them. *)
Lemma sum_by_tag (ts : list string) (l : list Element) :
  NoDup ts →
  sum_list_with (λ t, length (filter (λ e, tag e = t) l)) ts
  = length (filter (λ e, tag e ∈ ts) l).
Proof.
  induction 1 as [|t ts Ht Hnd IH]; simpl.
  - induction l as [|e l IHl]; [done|].
    rewrite filter_cons, decide_False; [done|]. apply not_elem_of_nil.
  - by rewrite IH, length_filter_tag_cons.
Qed.

Lemma element_types_NoDup : NoDup element_types ∧ NoDup (bpmn <$> element_types).
Proof. split; apply (bool_decide_unpack _); by vm_compute. Qed.

(** What [calculate_statistics] stores. *)
Lemma calculate_statistics_spec rt self :
  ∃ s, statistics (calculate_statistics rt self) = Some s
    ∧ issues (calculate_statistics rt self) = issues self
    ∧ process_variables (calculate_statistics rt self) = process_variables self
    ∧ sum_values (issue_counts_by_severity s) = total_issues s
    ∧ sum_values (element_counts s) = total_elements s
    ∧ total_issues s = length (issues self)
    ∧ dom (element_counts s) = list_to_set element_types
    ∧ (∀ t, t ∈ element_types →
         element_counts s !! t = Some (length (findall_desc rt (bpmn t))))
    ∧ total_elements s = length (filter counted (descendants rt)).
Proof.
  destruct element_types_NoDup as [Hnd Hnd'].
  destruct (count_elements_spec rt element_types Hnd)
    as (Hsum & Hdom & Hlook & Htot).
  unfold calculate_statistics, set_statistics.
  eexists. split; [reflexivity|].
  cbn [issues process_variables issue_counts_by_severity element_counts
       total_issues total_elements].
  split; [reflexivity|]. split; [reflexivity|].
  split.
  { rewrite !sum_values_insert, sum_values_empty.
    - rewrite <-(count_severity_total (issues self)). lia.
    - apply lookup_empty.
    - rewrite lookup_insert_ne by discriminate. apply lookup_empty.
    - rewrite !lookup_insert_ne by discriminate. apply lookup_empty. }
  split; [exact Hsum|]. split; [reflexivity|].
  split; [exact Hdom|]. split; [exact Hlook|].
  rewrite Htot. unfold counted.
  rewrite <-(sum_by_tag _ _ Hnd'). unfold findall_desc.
  generalize element_types. intros ts. induction ts as [|t ts IH]; [done|].
  rewrite fmap_cons. cbn [sum_list_with]. by rewrite IH.
Qed.

(** ** Statements that may raise *)

Lemma yields_exc_done Q (f : stmt) :
  (∃ Δ V, Q Δ ∧ ∀ st, f st = emit Δ V st) → yields_exc Q (λ st, Done (f st)).
Proof. intros (Δ & V & HQ & Hf). right. exists Δ, V. split; [done|]. intros st. by rewrite Hf. Qed.

Lemma yields_exc_emits P (f : stmt) :
  emits P f → yields_exc (Forall P) (λ st, Done (f st)).
Proof. apply yields_exc_done. Qed.

Lemma yields_exc_bind (Q1 Q2 Q : list MigrationIssue → Prop) f g :
  (∀ Δ1 Δ2, Q1 Δ1 → Q2 Δ2 → Q (Δ1 ++ Δ2)) →
  yields_exc Q1 f → yields_exc Q2 g → yields_exc Q (λ st, f st ≫= g).
Proof.
  intros HQ [Hf|(Δ1 & V1 & H1 & Hf)] Hg.
  - left. intros st. by rewrite Hf.
  - destruct Hg as [Hg|(Δ2 & V2 & H2 & Hg)].
    + left. intros st. rewrite Hf. apply Hg.
    + right. exists (Δ1 ++ Δ2), (V1 ∪ V2). split; [by apply HQ|].
      intros st. rewrite Hf. cbn. by rewrite Hg, emit_emit.
Qed.

Lemma yields_exc_weaken (Q Q' : list MigrationIssue → Prop) f :
  (∀ Δ, Q Δ → Q' Δ) → yields_exc Q f → yields_exc Q' f.
Proof.
  intros HQ [Hf|(Δ & V & H & Hf)]; [by left|].
  right. exists Δ, V. auto.
Qed.

Lemma yields_exc_id (Q : list MigrationIssue → Prop) :
  Q [] → yields_exc Q (λ st, Done st).
Proof.
  intros HQ. right. exists [], ∅. split; [done|]. intros st.
  by rewrite emit_nil.
Qed.

(** A loop whose bodies all keep a property that holds of the empty list
    and is closed under concatenation. *)
Lemma yields_exc_for_each_exc {A} (Q : list MigrationIssue → Prop)
    (l : list A) body :
  Q [] → (∀ Δ1 Δ2, Q Δ1 → Q Δ2 → Q (Δ1 ++ Δ2)) →
  (∀ x, yields_exc Q (body x)) → yields_exc Q (for_each_exc l body).
Proof.
  intros Hnil Happ Hb. induction l as [|x l IH]; simpl.
  - by apply yields_exc_id.
  - by apply (yields_exc_bind Q Q Q).
Qed.

Lemma count_issues_app cat sev l1 l2 :
  count_issues cat sev (l1 ++ l2)
  = count_issues cat sev l1 + count_issues cat sev l2.
Proof. unfold count_issues. by rewrite filter_app, length_app. Qed.

Lemma gateway_counts_app a b c d Δ1 Δ2 :
  gateway_counts a b Δ1 → gateway_counts c d Δ2 →
  gateway_counts (a + c) (b + d) (Δ1 ++ Δ2).
Proof.
  intros [H1 H2] [H3 H4]. split; rewrite count_issues_app; congruence.
Qed.

Lemma gateway_counts_other Δ :
  Forall (λ i, category i ≠ "Gateway") Δ → gateway_counts 0 0 Δ.
Proof.
  induction 1 as [|i Δ Hi _ [IH1 IH2]]; [done|].
  unfold gateway_counts, count_issues in *.
  rewrite !filter_cons, !decide_False by (intros [? _]; done). done.
Qed.

(** A loop over [l] whose every body adds [c] CRITICAL and [w] WARNING
    Gateway issues adds them [length l] times. *)
Lemma gateway_counts_for_each_exc {A} (l : list A) body c w :
  (∀ x, yields_exc (gateway_counts c w) (body x)) →
  yields_exc (gateway_counts (length l * c) (length l * w))
    (for_each_exc l body).
Proof.
  intros Hb. induction l as [|x l IH]; simpl.
  - by apply yields_exc_id.
  - apply (yields_exc_bind (gateway_counts c w)
             (gateway_counts (length l * c) (length l * w))); [|done..].
    intros. by apply gateway_counts_app.
Qed.

Lemma for_each_exc_done {A} (l : list A) body st :
  (∀ x st, x ∈ l → ∃ st', body x st = Done st') →
  ∃ st', for_each_exc l body st = Done st'.
Proof.
  revert st. induction l as [|x l IH]; intros st Hb; simpl; [by eexists|].
  destruct (Hb x st) as [st1 ->]; [by left|]. cbn.
  apply IH. intros y st2 Hy. apply Hb. by right.
Qed.

(** ** The rule groups that add no Gateway issue *)

Ltac other_category :=
  lazymatch goal with
  | |- ∀ i, category i = "Expression" → _ => by intros ? ->
  | |- _ => by cbn
  end.

Ltac emits_other := cbv zeta; repeat emits_step; other_category.

Lemma yields_exc_after (Q1 Q2 Q : list MigrationIssue → Prop) (f : stmt) g :
  (∀ Δ1 Δ2, Q1 Δ1 → Q2 Δ2 → Q (Δ1 ++ Δ2)) →
  (∃ Δ V, Q1 Δ ∧ ∀ st, f st = emit Δ V st) →
  yields_exc Q2 g → yields_exc Q (λ st, g (f st)).
Proof.
  intros HQ Hf Hg.
  apply (yields_exc_bind Q1 Q2 Q (λ st, Done (f st)) g HQ); [|done].
  by apply yields_exc_done.
Qed.

Lemma validate_namespaces_other rt : emits not_gateway (validate_namespaces rt).
Proof. unfold validate_namespaces, not_gateway. emits_other. Qed.

Lemma validate_service_tasks_other rt :
  emits not_gateway (validate_service_tasks rt).
Proof.
  unfold validate_service_tasks, service_task_body, not_gateway. emits_other.
Qed.

Lemma validate_script_tasks_other rt :
  emits not_gateway (validate_script_tasks rt).
Proof.
  unfold validate_script_tasks, script_task_body, not_gateway. emits_other.
Qed.

Lemma validate_user_tasks_other rt : emits not_gateway (validate_user_tasks rt).
Proof.
  unfold validate_user_tasks, user_task_body, not_gateway. emits_other.
Qed.

Lemma validate_listeners_other rt : emits not_gateway (validate_listeners rt).
Proof.
  unfold validate_listeners, listeners_body, validate_listener, not_gateway.
  emits_other.
Qed.

Lemma validate_call_activities_other rt :
  emits not_gateway (validate_call_activities rt).
Proof.
  unfold validate_call_activities, call_activity_body, not_gateway.
  emits_other.
Qed.

Lemma validate_business_rule_tasks_other rt :
  emits not_gateway (validate_business_rule_tasks rt).
Proof.
  unfold validate_business_rule_tasks, business_rule_task_body, not_gateway.
  emits_other.
Qed.

Lemma validate_multi_instance_other rt :
  emits not_gateway (validate_multi_instance rt).
Proof.
  unfold validate_multi_instance, multi_instance_body, not_gateway.
  emits_other.
Qed.

Lemma validate_subprocesses_other rt :
  emits not_gateway (validate_subprocesses rt).
Proof.
  unfold validate_subprocesses, subprocess_body, not_gateway. emits_other.
Qed.

Lemma validate_input_output_mappings_other rt :
  emits not_gateway (validate_input_output_mappings rt).
Proof.
  unfold validate_input_output_mappings, input_output_body, io_param_body,
    not_gateway.
  emits_other.
Qed.

Lemma validate_configurations_other rt :
  emits not_gateway (validate_configurations rt).
Proof.
  unfold validate_configurations, configuration_body, not_gateway.
  emits_other.
Qed.

Lemma validate_timer_event_other d eid en :
  emits not_gateway (validate_timer_event d eid en).
Proof. unfold validate_timer_event, timer_body, not_gateway. emits_other. Qed.

Lemma validate_signal_event_other d eid en :
  emits not_gateway (validate_signal_event d eid en).
Proof. unfold validate_signal_event, not_gateway. emits_other. Qed.

(** ** The report *)

(** Sorting forgets the order in which the set was walked. *)
Lemma sorted_Permutation l1 l2 : l1 ≡ₚ l2 → sorted l1 = sorted l2.
Proof.
  intros Hp. unfold sorted.
  apply (Sorted_unique String.le); [apply Sorted_merge_sort, _..|].
  by rewrite !merge_sort_Permutation.
Qed.

Section RunProperties.

Variable ET_parse : string → option Element.
Variable find_quoted : Element → string → string → outcome (option Element).

(** A run that returns a report parsed the document, ran the rule groups
    to the end and computed the statistics. *)
Lemma analyze_report amb self r st' :
  analyze ET_parse find_quoted amb self = Done (ReportDict r, st') →
  ∃ rt st1,
    ET_parse (bpmn_file self) = Some rt
    ∧ run_validations find_quoted rt (set_root (Some rt) self) = Done st1
    ∧ st' = calculate_statistics rt st1
    ∧ r = make_report amb st'.
Proof.
  unfold analyze, parse. destruct (ET_parse (bpmn_file self)) as [rt|];
    [|discriminate].
  cbn [negb root set_root].
  destruct (run_validations find_quoted rt _) as [st1|] eqn:Hrun;
    [|discriminate].
  cbn. intros [= <- <-]. by exists rt, st1.
Qed.

(** C3: the statistics of every report satisfy both sums: the severity
    counts add up to [total_issues] and the element counts add up to
    [total_elements]. *)
Theorem statistics_sums amb self r st' :
  analyze ET_parse find_quoted amb self = Done (ReportDict r, st') →
  ∃ s, r_statistics r = Some s
    ∧ statistics st' = Some s
    ∧ sum_values (issue_counts_by_severity s) = total_issues s
    ∧ sum_values (element_counts s) = total_elements s.
Proof.
  intros (rt & st1 & _ & _ & -> & ->)%analyze_report.
  destruct (calculate_statistics_spec rt st1)
    as (s & Hs & _ & _ & Hsev & Hel & _).
  exists s. by rewrite <-Hs.
Qed.

(** C10: the element counts of a report have exactly the fifteen keys of
    [element_types]; [complexGateway] is not one of them although the
    gateway rule goes over complex gateways, and [total_elements] is the
    number of elements with a counted tag, which no complex gateway has. *)
Theorem statistics_element_types amb self r st' rt :
  ET_parse (bpmn_file self) = Some rt →
  analyze ET_parse find_quoted amb self = Done (ReportDict r, st') →
  ∃ s, r_statistics r = Some s
    ∧ dom (element_counts s) = list_to_set element_types
    ∧ length element_types = 15
    ∧ (∀ t, t ∈ element_types →
         element_counts s !! t = Some (length (findall_desc rt (bpmn t))))
    ∧ element_counts s !! "complexGateway" = None
    ∧ total_elements s = length (filter counted (descendants rt))
    ∧ (∀ e, tag e = bpmn "complexGateway" → ¬ counted e)
    ∧ "complexGateway" ∈ gateway_types.
Proof.
  intros Hrt (rt' & st1 & Hrt' & _ & -> & ->)%analyze_report.
  assert (rt' = rt) as -> by congruence.
  destruct (calculate_statistics_spec rt st1)
    as (s & Hs & _ & _ & _ & _ & _ & Hdom & Hlook & Htot).
  exists s. split; [by rewrite <-Hs|]. split; [done|]. split; [done|].
  split; [done|]. split.
  { apply not_elem_of_dom. rewrite Hdom.
    apply (bool_decide_unpack _). by vm_compute. }
  split; [done|]. split.
  - intros e He. unfold counted. rewrite He.
    apply (bool_decide_unpack _). by vm_compute.
  - apply (bool_decide_unpack _). by vm_compute.
Qed.

(** C4: when parsing fails the run ends at once with the empty dictionary
    and leaves the analyzer as it was: after a fresh start it holds no
    issue and no statistics.  The empty dictionary is returned in no other
    case, and a report only after a successful parse. *)
Theorem analyze_parse_failure amb self :
  (ET_parse (bpmn_file self) = None →
     analyze ET_parse find_quoted amb self = Done (EmptyDict, self))
  ∧ (∀ file, ET_parse file = None →
       ∃ st', analyze ET_parse find_quoted amb (init file)
              = Done (EmptyDict, st')
         ∧ issues st' = [] ∧ statistics st' = None ∧ root st' = None
         ∧ process_variables st' = ∅)
  ∧ (∀ st', analyze ET_parse find_quoted amb self = Done (EmptyDict, st') →
       ET_parse (bpmn_file self) = None)
  ∧ (∀ r st', analyze ET_parse find_quoted amb self = Done (ReportDict r, st') →
       ET_parse (bpmn_file self) ≠ None).
Proof.
  assert (∀ s, ET_parse (bpmn_file s) = None →
               analyze ET_parse find_quoted amb s = Done (EmptyDict, s)) as H.
  { intros s Hs. unfold analyze, parse. by rewrite Hs. }
  split; [apply H|]. split; [|split].
  - intros file Hf. exists (init file). by rewrite H.
  - unfold analyze, parse. destruct (ET_parse (bpmn_file self)); [|done].
    cbn [negb root set_root].
    destruct (run_validations find_quoted _ _); cbn; discriminate.
  - intros r st' (rt & ? & -> & _)%analyze_report. discriminate.
Qed.

(** C9: two runs on the same analyzer and document agree whatever the
    clock shows and in whatever order the variable set is walked: both
    raise, or both return the empty dictionary, or both return reports with
    the same issues in the same order (hence the same multiset of
    severity, category, element and message), the same sorted variables and
    the same statistics. *)
Theorem analyze_deterministic amb1 amb2 self :
  set_order_ok amb1 → set_order_ok amb2 →
  same_outcome (analyze ET_parse find_quoted amb1 self)
    (analyze ET_parse find_quoted amb2 self).
Proof.
  intros H1 H2. unfold same_outcome, analyze, parse.
  destruct (ET_parse (bpmn_file self)) as [rt|]; [|done].
  cbn [negb root set_root].
  destruct (run_validations find_quoted rt _) as [st|]; [|done].
  cbn. repeat split; try done.
  apply sorted_Permutation. by rewrite (H1 _), (H2 _).
Qed.


(** ** Gateways *)

Lemma find_by_id_cases rt t v :
  (find_by_id find_quoted rt t v = Raised)
  ∨ ∃ o, find_by_id find_quoted rt t v = Done o.
Proof. destruct (find_by_id find_quoted rt t v); eauto. Qed.

Lemma find_by_id_plain rt t v :
  Py.contains "'" v = false → ∃ o, find_by_id find_quoted rt t v = Done o.
Proof. intros Hv. unfold find_by_id. rewrite Hv. eauto. Qed.

Lemma outgoing_body_yields rt gw_id gw_name o :
  yields_exc (Forall (λ i, category i = "Expression"))
    (outgoing_body find_quoted rt gw_id gw_name o).
Proof.
  unfold outgoing_body. destruct (text o) as [flow_id|];
    [|by apply yields_exc_id].
  destruct (Py.nonempty flow_id); [|by apply yields_exc_id].
  destruct (find_by_id find_quoted rt (bpmn "sequenceFlow") flow_id)
    as [flow|]; [|by left].
  cbn. apply yields_exc_emits. emits_all.
Qed.

Lemma gateway_body_yields rt gw_type g :
  yields_exc
    (λ Δ, ∃ Δe, Forall (λ i, category i = "Expression") Δe
                ∧ Δ = Δe ++ gateway_issue gw_type g)
    (gateway_body find_quoted rt gw_type g).
Proof.
  unfold gateway_body; cbv zeta.
  eapply (yields_exc_bind _ (λ Δ, Δ = gateway_issue gw_type g)).
  { intros Δ1 Δ2 H1 ->. by exists Δ1. }
  - apply yields_exc_for_each_exc; [done | apply Forall_app_2 |].
    intros o. apply outgoing_body_yields.
  - right. exists (gateway_issue gw_type g), ∅. split; [done|].
    intros [f r i s v]. unfold gateway_issue, when.
    do 2 case_bool_decide; unfold emit, add_issue, set_issues; simpl;
      rewrite ?app_nil_r, <-?app_assoc, (right_id_L ∅ (∪)); done.
Qed.

Lemma gateway_issue_counts gw_type g Δe :
  Forall (λ i, category i = "Expression") Δe →
  gateway_counts
    (if bool_decide (gw_type = "complexGateway") then 1 else 0)
    (if bool_decide (gw_type = "eventBasedGateway") then 1 else 0)
    (Δe ++ gateway_issue gw_type g).
Proof.
  intros He. apply (gateway_counts_app 0 0).
  - apply gateway_counts_other. eapply Forall_impl; [exact He|].
    intros i ->. discriminate.
  - unfold gateway_issue. by do 2 case_bool_decide.
Qed.

Lemma gateway_body_counts rt gw_type g :
  yields_exc
    (gateway_counts
       (if bool_decide (gw_type = "complexGateway") then 1 else 0)
       (if bool_decide (gw_type = "eventBasedGateway") then 1 else 0))
    (gateway_body find_quoted rt gw_type g).
Proof.
  eapply yields_exc_weaken; [|apply gateway_body_yields].
  intros Δ (Δe & He & ->). by apply gateway_issue_counts.
Qed.

Lemma gateways_loop_counts rt types :
  yields_exc
    (gateway_counts
       (sum_list_with
          (λ t, length (findall_desc rt (bpmn t))
                * (if bool_decide (t = "complexGateway") then 1 else 0)) types)
       (sum_list_with
          (λ t, length (findall_desc rt (bpmn t))
                * (if bool_decide (t = "eventBasedGateway") then 1 else 0))
          types))
    (for_each_exc types (λ gw_type,
       for_each_exc (findall_desc rt (bpmn gw_type))
         (gateway_body find_quoted rt gw_type))).
Proof.
  induction types as [|t types IH]; simpl.
  - by apply yields_exc_id.
  - eapply yields_exc_bind; [|apply gateway_counts_for_each_exc|exact IH].
    + intros Δ1 Δ2 H1 H2. exact (gateway_counts_app _ _ _ _ _ _ H1 H2).
    + intros g. apply gateway_body_counts.
Qed.

(** The gateway rule adds one CRITICAL Gateway issue per complex gateway
    and one WARNING Gateway issue per event-based gateway. *)
Lemma validate_gateways_counts rt :
  yields_exc
    (gateway_counts
       (length (findall_desc rt (bpmn "complexGateway")))
       (length (findall_desc rt (bpmn "eventBasedGateway"))))
    (validate_gateways find_quoted rt).
Proof.
  eapply yields_exc_weaken; [|apply (gateways_loop_counts rt gateway_types)].
  intros Δ [H1 H2]. unfold gateway_types in *. cbn [sum_list_with] in *.
  repeat match goal with
         | H : context [bool_decide (?a = ?b)] |- _ =>
             let v := eval vm_compute in (bool_decide (a = b)) in
             change (bool_decide (a = b)) with v in H
         end.
  cbv beta iota in H1, H2. split; lia.
Qed.

(** ** Events and the whole run *)

Lemma validate_message_event_other rt d eid en :
  yields_exc (Forall not_gateway)
    (validate_message_event find_quoted rt d eid en).
Proof.
  unfold validate_message_event.
  destruct (get d "messageRef") as [ref|]; [|by apply yields_exc_id].
  destruct (Py.nonempty ref); [|by apply yields_exc_id].
  destruct (find_by_id find_quoted rt (bpmn "message") ref) as [found|];
    [|by left].
  cbn. apply yields_exc_emits. unfold not_gateway. emits_other.
Qed.

Lemma validate_error_event_other rt d eid en :
  yields_exc (Forall not_gateway)
    (validate_error_event find_quoted rt d eid en).
Proof.
  unfold validate_error_event.
  destruct (get d "errorRef") as [ref|]; [|by apply yields_exc_id].
  destruct (Py.nonempty ref); [|by apply yields_exc_id].
  destruct (find_by_id find_quoted rt (bpmn "error") ref) as [found|];
    [|by left].
  cbn. apply yields_exc_emits. unfold not_gateway. emits_other.
Qed.

Lemma event_body_other rt event :
  yields_exc (Forall not_gateway) (event_body find_quoted rt event).
Proof.
  unfold event_body; cbv zeta.
  set (Q := Forall not_gateway).
  assert (∀ Δ1 Δ2, Q Δ1 → Q Δ2 → Q (Δ1 ++ Δ2)) as HQ
    by (intros; by apply Forall_app_2).
  assert (∀ (o : option Element) k g,
            (∀ d, emits not_gateway (k d)) → yields_exc Q g →
            yields_exc Q (λ st, g (if_some o k st))) as Hstep.
  { intros o k g Hk Hg.
    apply (yields_exc_after Q Q Q (if_some o k) g); [done| |done].
    by apply emits_if_some. }
  apply (yields_exc_bind Q Q Q); [done| |].
  - destruct (find_child event (bpmn "messageEventDefinition")) as [md|].
    + apply (Hstep _ _ (validate_message_event find_quoted rt md _ _)).
      * intros d. apply validate_timer_event_other.
      * apply validate_message_event_other.
    + apply (Hstep _ _ Done); [|apply yields_exc_id; constructor].
      intros d. apply validate_timer_event_other.
  - apply (yields_exc_bind Q Q Q); [done| |].
    + destruct (find_child event (bpmn "errorEventDefinition")) as [ed|].
      * apply (Hstep _ _ (validate_error_event find_quoted rt ed _ _)).
        -- intros d. apply validate_signal_event_other.
        -- apply validate_error_event_other.
      * apply (Hstep _ _ Done); [|apply yields_exc_id; constructor].
        intros d. apply validate_signal_event_other.
    + apply yields_exc_emits. unfold not_gateway. emits_other.
Qed.

Lemma validate_events_other rt :
  yields_exc (Forall not_gateway) (validate_events find_quoted rt).
Proof.
  unfold validate_events.
  apply yields_exc_for_each_exc; [done | apply Forall_app_2 |]. intros t.
  apply yields_exc_for_each_exc; [done | apply Forall_app_2 |]. intros e.
  apply event_body_other.
Qed.


Ltac emits_groups :=
  repeat lazymatch goal with
         | |- emits ?P (λ st, ?g (@?f st)) => apply (emits_comp P f g)
         end;
  first
    [ apply emits_id
    | apply validate_namespaces_other
    | apply validate_service_tasks_other
    | apply validate_script_tasks_other
    | apply validate_user_tasks_other
    | apply validate_listeners_other
    | apply validate_call_activities_other
    | apply validate_business_rule_tasks_other
    | apply validate_multi_instance_other
    | apply validate_subprocesses_other
    | apply validate_input_output_mappings_other
    | apply validate_configurations_other ].
(** Over the whole run the Gateway issues are those of the gateway rule. *)
Lemma run_validations_counts rt :
  yields_exc
    (gateway_counts
       (length (findall_desc rt (bpmn "complexGateway")))
       (length (findall_desc rt (bpmn "eventBasedGateway"))))
    (run_validations find_quoted rt).
Proof.
  unfold run_validations; cbv zeta.
  set (c := length (findall_desc rt (bpmn "complexGateway"))).
  set (w := length (findall_desc rt (bpmn "eventBasedGateway"))).
  assert (∀ Δ1 Δ2, gateway_counts 0 0 Δ1 → gateway_counts c w Δ2 →
                   gateway_counts c w (Δ1 ++ Δ2)) as Hl.
  { intros. by apply (gateway_counts_app 0 0 c w). }
  assert (∀ Δ1 Δ2, gateway_counts c w Δ1 → gateway_counts 0 0 Δ2 →
                   gateway_counts c w (Δ1 ++ Δ2)) as Hr.
  { intros Δ1 Δ2 H1 H2. pose proof (gateway_counts_app c w 0 0 _ _ H1 H2) as H.
    by rewrite !Nat.add_0_r in H. }
  assert (∀ Δ1 Δ2, gateway_counts 0 0 Δ1 → gateway_counts 0 0 Δ2 →
                   gateway_counts 0 0 (Δ1 ++ Δ2)) as H0.
  { intros. by apply (gateway_counts_app 0 0 0 0). }
  assert (∀ f, emits not_gateway f →
               ∃ Δ V, gateway_counts 0 0 Δ ∧ ∀ st, f st = emit Δ V st) as Ho.
  { intros f (Δ & V & HΔ & Hf). exists Δ, V.
    split; [by apply gateway_counts_other|done]. }
  apply (yields_exc_bind (gateway_counts c w) (gateway_counts 0 0)); [done| |].
  - apply (yields_exc_after (gateway_counts 0 0) (gateway_counts c w)
             _ (λ st, validate_user_tasks rt (validate_script_tasks rt
                  (validate_service_tasks rt (validate_namespaces rt st)))));
      [done| |apply validate_gateways_counts].
    apply Ho. emits_groups.
  - apply (yields_exc_bind (gateway_counts 0 0) (gateway_counts 0 0));
      [done| |].
    + eapply yields_exc_weaken; [|apply validate_events_other].
      apply gateway_counts_other.
    + apply yields_exc_done, Ho. emits_groups.
Qed.

Lemma yields_exc_Done (Q : list MigrationIssue → Prop) f st st' :
  yields_exc Q f → f st = Done st' →
  ∃ Δ V, Q Δ ∧ st' = emit Δ V st.
Proof.
  intros [Hr|(Δ & V & HQ & Hf)] Hst.
  - by rewrite Hr in Hst.
  - exists Δ, V. split; [done|]. rewrite Hf in Hst. by injection Hst.
Qed.

Lemma gateway_body_issue rt gw_type g st st' :
  gateway_body find_quoted rt gw_type g st = Done st' →
  ∃ Δe, Forall (λ i, category i = "Expression") Δe
        ∧ issues st' = issues st ++ Δe ++ gateway_issue gw_type g.
Proof.
  intros (Δ & V & (Δe & He & ->) & ->)%(yields_exc_Done _ _ _ _
                                         (gateway_body_yields rt gw_type g)).
  by exists Δe.
Qed.

Lemma outgoing_body_done rt gw_id gw_name o st :
  (∀ v, text o = Some v → Py.contains "'" v = false) →
  ∃ st', outgoing_body find_quoted rt gw_id gw_name o st = Done st'.
Proof.
  intros Hv. unfold outgoing_body. destruct (text o) as [flow_id|]; [|eauto].
  destruct (Py.nonempty flow_id); [|eauto].
  destruct (find_by_id_plain rt (bpmn "sequenceFlow") flow_id) as [fl ->];
    [by apply Hv|].
  cbn. eauto.
Qed.

Lemma gateway_body_done rt gw_type g st :
  (∀ o v, o ∈ findall_child g (bpmn "outgoing") → text o = Some v →
          Py.contains "'" v = false) →
  ∃ st', gateway_body find_quoted rt gw_type g st = Done st'.
Proof.
  intros Hv. unfold gateway_body; cbv zeta.
  destruct (for_each_exc_done (findall_child g (bpmn "outgoing"))
              (outgoing_body find_quoted rt (get_or g "id" "unknown")
                 (get_or g "name" "Unnamed")) st) as [st1 ->].
  { intros o st0 Ho. apply outgoing_body_done. intros v. by apply Hv. }
  cbn. eauto.
Qed.

Lemma validate_gateways_done rt st :
  (∀ t g o v, t ∈ gateway_types → g ∈ findall_desc rt (bpmn t) →
              o ∈ findall_child g (bpmn "outgoing") → text o = Some v →
              Py.contains "'" v = false) →
  ∃ st', validate_gateways find_quoted rt st = Done st'.
Proof.
  intros Hv. unfold validate_gateways.
  apply for_each_exc_done. intros t st0 Ht.
  apply for_each_exc_done. intros g st1 Hg.
  apply gateway_body_done. intros o v. by apply (Hv t g).
Qed.

(** A run only appends: the analyzer it leaves has the issues and the
    variables it was given, so calling [analyze] again on the same analyzer
    reports the earlier issues once more. *)
Lemma analyze_keeps_issues amb self r st' :
  analyze ET_parse find_quoted amb self = Done (ReportDict r, st') →
  extends self st'.
Proof.
  intros (rt & st1 & _ & Hrun & -> & _)%analyze_report.
  apply (yields_exc_Done _ _ _ _ (run_validations_counts rt)) in Hrun
    as (Δ & V & _ & ->).
  destruct (calculate_statistics_spec rt
              (emit Δ V (set_root (Some rt) self))) as (s & _ & Hi & Hv & _).
  split.
  - exists Δ. by rewrite Hi.
  - rewrite Hv. cbn. set_solver.
Qed.

(** C7: the gateway rule adds, after the Expression issues of the
    conditions on its outgoing flows, exactly one CRITICAL Gateway issue
    for a complex gateway and exactly one WARNING Gateway issue for an
    event-based gateway, whatever the flows carry.  Over a whole run the
    report has as many CRITICAL Gateway issues as the document has complex
    gateways and as many WARNING Gateway issues as it has event-based
    gateways.  The rule returns whenever no outgoing flow reference holds
    an apostrophe. *)
Theorem gateway_issues rt :
  (∀ g st st',
     gateway_body find_quoted rt "complexGateway" g st = Done st' →
     ∃ Δe, Forall (λ i, category i = "Expression") Δe
       ∧ issues st'
         = issues st ++ Δe ++
           [ mkIssue CRITICAL "Gateway"
               (get_or g "id" "unknown") (get_or g "name" "Unnamed")
               "Complex gateway not supported in Camunda 8"
               "Consider redesigning using exclusive or parallel gateways." ])
  ∧ (∀ g st st',
       gateway_body find_quoted rt "eventBasedGateway" g st = Done st' →
       ∃ Δe, Forall (λ i, category i = "Expression") Δe
         ∧ issues st'
           = issues st ++ Δe ++
             [ mkIssue WARNING "Gateway"
                 (get_or g "id" "unknown") (get_or g "name" "Unnamed")
                 "Event-based gateway behavior may differ"
                 "Review event correlation and timing in Camunda 8." ])
  ∧ (∀ amb file r st',
       ET_parse file = Some rt →
       analyze ET_parse find_quoted amb (init file) = Done (ReportDict r, st') →
       r_issues r = to_dict <$> issues st'
       ∧ count_issues "Gateway" CRITICAL (issues st')
         = length (findall_desc rt (bpmn "complexGateway"))
       ∧ count_issues "Gateway" WARNING (issues st')
         = length (findall_desc rt (bpmn "eventBasedGateway")))
  ∧ (∀ st,
       (∀ t g o v, t ∈ gateway_types → g ∈ findall_desc rt (bpmn t) →
                   o ∈ findall_child g (bpmn "outgoing") → text o = Some v →
                   Py.contains "'" v = false) →
       ∃ st', validate_gateways find_quoted rt st = Done st').
Proof.
  split; [|split; [|split]].
  - intros g st st' (Δe & He & ->)%gateway_body_issue. by exists Δe.
  - intros g st st' (Δe & He & ->)%gateway_body_issue. by exists Δe.
  - intros amb file r st' Hrt (rt' & st1 & Hrt' & Hrun & -> & ->)%analyze_report.
    cbn in Hrt'. assert (rt' = rt) as -> by congruence.
    apply (yields_exc_Done _ _ _ _ (run_validations_counts rt)) in Hrun
      as (Δ & V & [Hc Hw] & ->).
    destruct (calculate_statistics_spec rt
                (emit Δ V (set_root (Some rt) (init file))))
      as (s & _ & Hi & _).
    split; [done|]. rewrite Hi. by cbn.
  - intros st. apply validate_gateways_done.
Qed.
End RunProperties.

(** ** The properties at work on the sample document *)

Lemma sample_run_is_report :
  is_report (analyze sample_parse rejecting_find morning (init "order.bpmn"))
  = true.
Proof. vm_compute. reflexivity. Qed.

Lemma statistics_sums_witness :
  ∃ r st',
    analyze sample_parse rejecting_find morning (init "order.bpmn")
    = Done (ReportDict r, st')
    ∧ ∃ s, r_statistics r = Some s
        ∧ statistics st' = Some s
        ∧ sum_values (issue_counts_by_severity s) = total_issues s
        ∧ sum_values (element_counts s) = total_elements s.
Proof.
  pose proof sample_run_is_report as Hr.
  destruct (analyze sample_parse rejecting_find morning (init "order.bpmn"))
    as [[[|r] st']|] eqn:H; try discriminate Hr.
  exists r, st'. split; [reflexivity|].
  exact (statistics_sums sample_parse rejecting_find morning
           (init "order.bpmn") r st' H).
Defined.

Lemma statistics_element_types_witness :
  ∃ r st',
    (sample_parse (bpmn_file (init "order.bpmn")) = Some sample_document
     ∧ analyze sample_parse rejecting_find morning (init "order.bpmn")
       = Done (ReportDict r, st'))
    ∧ ∃ s, r_statistics r = Some s
        ∧ element_counts s !! "complexGateway" = None
        ∧ total_elements s
          = length (filter counted (descendants sample_document)).
Proof.
  pose proof sample_run_is_report as Hr.
  assert (sample_parse (bpmn_file (init "order.bpmn")) = Some sample_document)
    as Hrt by reflexivity.
  destruct (analyze sample_parse rejecting_find morning (init "order.bpmn"))
    as [[[|r] st']|] eqn:H; try discriminate Hr.
  exists r, st'. split; [by split|].
  destruct (statistics_element_types sample_parse rejecting_find morning
              (init "order.bpmn") r st' sample_document Hrt H)
    as (s & Hs & _ & _ & _ & Hc & Ht & _).
  exists s. split; [exact Hs|]. split; [exact Hc | exact Ht].
Defined.

Lemma analyze_parse_failure_witness :
  failing_parse (bpmn_file (init "missing.bpmn")) = None
  ∧ analyze failing_parse rejecting_find morning (init "missing.bpmn")
    = Done (EmptyDict, init "missing.bpmn").
Proof.
  assert (failing_parse (bpmn_file (init "missing.bpmn")) = None) as H
    by reflexivity.
  split; [exact H|].
  exact (proj1 (analyze_parse_failure failing_parse rejecting_find morning
                  (init "missing.bpmn")) H).
Defined.

Lemma analyze_deterministic_witness :
  (set_order_ok morning ∧ set_order_ok evening)
  ∧ same_outcome
      (analyze sample_parse rejecting_find morning (init "order.bpmn"))
      (analyze sample_parse rejecting_find evening (init "order.bpmn")).
Proof.
  assert (set_order_ok morning) as H1 by (intros s; reflexivity).
  assert (set_order_ok evening) as H2
    by (intros s; apply reverse_Permutation).
  split; [by split|].
  exact (analyze_deterministic sample_parse rejecting_find morning evening
           (init "order.bpmn") H1 H2).
Defined.

Lemma sample_gateways :
  length (findall_desc sample_document (bpmn "complexGateway")) = 1
  ∧ length (findall_desc sample_document (bpmn "eventBasedGateway")) = 1.
Proof. split; vm_compute; reflexivity. Qed.

Lemma gateway_issues_witness :
  ∃ r st',
    (sample_parse "order.bpmn" = Some sample_document
     ∧ analyze sample_parse rejecting_find morning (init "order.bpmn")
       = Done (ReportDict r, st'))
    ∧ count_issues "Gateway" CRITICAL (issues st') = 1
    ∧ count_issues "Gateway" WARNING (issues st') = 1.
Proof.
  pose proof sample_run_is_report as Hr.
  assert (sample_parse "order.bpmn" = Some sample_document) as Hrt
    by reflexivity.
  destruct (analyze sample_parse rejecting_find morning (init "order.bpmn"))
    as [[[|r] st']|] eqn:H; try discriminate Hr.
  exists r, st'. split; [by split|].
  destruct (gateway_issues sample_parse rejecting_find sample_document)
    as (_ & _ & Hrun & _).
  destruct (Hrun morning "order.bpmn" r st' Hrt H) as (_ & Hc & Hw).
  destruct sample_gateways as [Gc Gw].
  rewrite Hc, Hw. split; [exact Gc | exact Gw].
Defined.

(** * Further properties of the rules *)

(** ** The expression validator and the extractor *)

Lemma contains_cons p c s :
  Py.contains p (String c s) = Py.startswith p (String c s) || Py.contains p s.
Proof. done. Qed.

Lemma match_here_marker s g rest :
  match_here s = Some (g, rest) →
  Py.startswith "${" s || Py.startswith "#{" s = true.
Proof.
  destruct s as [|c [|b s]]; simpl; try done.
  repeat case_bool_decide; subst; simpl; try done;
    destruct b as [[] [] [] [] [] [] [] []]; done.
Qed.

Lemma findall_groups_no_marker n s :
  Py.contains "${" s = false → Py.contains "#{" s = false →
  findall_groups n s = [].
Proof.
  revert s. induction n as [|n IH]; intros s H1 H2; [done|]. simpl.
  destruct (match_here s) as [[g rest]|] eqn:Hm.
  - apply match_here_marker in Hm. destruct s as [|c s]; [done|].
    rewrite contains_cons in H1, H2.
    apply orb_false_iff in H1 as [H1 _], H2 as [H2 _].
    by rewrite H1, H2 in Hm.
  - destruct s as [|c s]; [done|]. rewrite contains_cons in H1, H2.
    apply orb_false_iff in H1 as [_ H1], H2 as [_ H2]. by apply IH.
Qed.

Lemma extract_no_marker e :
  Py.contains "${" e = false → Py.contains "#{" e = false →
  extract_variables_from_expression (Some e) = ∅.
Proof.
  intros H1 H2. unfold extract_variables_from_expression, re_findall.
  rewrite findall_groups_no_marker by done. by destruct (Py.nonempty e).
Qed.

(** X1: what one call of the validator does depends on two tests only.
    A text with neither marker leaves the analyzer as it is (no issue, no
    variable).  A text with a marker and a closing brace anywhere gets the
    legacy-syntax issue alone, also when an expression in it is left open.
    A text with a marker and no closing brace at all gets the legacy-syntax
    issue followed by the malformed-expression issue. *)
Theorem validate_expression_syntax_cases e eid en ctx st :
  (Py.contains "${" e || Py.contains "#{" e = false →
     validate_expression_syntax e eid en ctx st = st)
  ∧ (Py.contains "${" e || Py.contains "#{" e = true →
     Py.contains "}" e = true →
     issues (validate_expression_syntax e eid en ctx st)
     = issues st ++
       [ mkIssue CRITICAL "Expression" eid en
           ("JUEL/UEL expression detected in " +:+ ctx)
           ("Expression '" +:+ e +:+
            "' uses Camunda 7 syntax. Must be converted to FEEL in Camunda 8. "
            +:+ "Example: '${myVar}' -> '=myVar'") ])
  ∧ (Py.contains "${" e || Py.contains "#{" e = true →
     Py.contains "}" e = false →
     issues (validate_expression_syntax e eid en ctx st)
     = issues st ++
       [ mkIssue CRITICAL "Expression" eid en
           ("JUEL/UEL expression detected in " +:+ ctx)
           ("Expression '" +:+ e +:+
            "' uses Camunda 7 syntax. Must be converted to FEEL in Camunda 8. "
            +:+ "Example: '${myVar}' -> '=myVar'");
         mkIssue CRITICAL "Expression" eid en
           ("Malformed expression in " +:+ ctx)
           ("Expression '" +:+ e +:+ "' appears to be incomplete") ]).
Proof.
  split; [|split].
  - intros [H1 H2]%orb_false_iff.
    rewrite validate_expression_syntax_emit, extract_no_marker by done.
    unfold expression_issues, validate_expression_syntax, when.
    rewrite H1, H2. destruct (negb (Py.nonempty e)); cbn; apply emit_nil.
  - intros Hm Hb.
    assert (Py.nonempty e = true) as Hne.
    { apply orb_true_iff in Hm as [H|H]; by apply contains_nonempty in H. }
    unfold validate_expression_syntax, when. rewrite Hne, Hm, Hb. cbn [negb].
    by rewrite !andb_false_r.
  - intros Hm Hb.
    assert (Py.nonempty e = true) as Hne.
    { apply orb_true_iff in Hm as [H|H]; by apply contains_nonempty in H. }
    unfold validate_expression_syntax, when. rewrite Hne, Hm, Hb. cbn [negb].
    rewrite !andb_true_r, Hm. cbn. by rewrite <-app_assoc.
Qed.

Lemma validate_expression_syntax_cases_witness :
  validate_expression_syntax "=amount > 100" "g" "n" "assignee" (init "p.bpmn")
  = init "p.bpmn"
  ∧ length (issues (validate_expression_syntax "${a} and ${b" "g" "n"
                      "assignee" (init "p.bpmn"))) = 1.
Proof.
  destruct (validate_expression_syntax_cases "=amount > 100" "g" "n"
              "assignee" (init "p.bpmn")) as (H1 & _).
  destruct (validate_expression_syntax_cases "${a} and ${b" "g" "n"
              "assignee" (init "p.bpmn")) as (_ & H2 & _).
  split.
  - apply H1. reflexivity.
  - rewrite H2 by reflexivity. reflexivity.
Defined.

Lemma string_app_cons c s t : String c s +:+ t = String c (s +:+ t).
Proof. reflexivity. Qed.

Lemma string_app_assoc s t u : (s +:+ t) +:+ u = s +:+ t +:+ u.
Proof.
  induction s as [|c s IH]; [done|]. by rewrite !string_app_cons, IH.
Qed.

Lemma scan_group_spec s g rest :
  scan_group s = Some (g, rest) →
  s = g +:+ String "}" rest
  ∧ ∀ c, c ∈ String.list_ascii_of_string g → c ≠ "}"%char.
Proof.
  revert g rest. induction s as [|c s IH]; intros g rest; simpl; [done|].
  destruct (decide (c = "}"%char)) as [->|Hc].
  - intros [= <- <-]. split; [done|]. by intros c ?%elem_of_nil.
  - destruct (scan_group s) as [[g' rest']|]; [|done].
    intros [= <- <-]. destruct (IH _ _ eq_refl) as [-> Hg].
    split; [done|]. simpl. intros c' [->|Hin]%elem_of_cons; auto.
Qed.

Lemma match_here_spec s g rest :
  match_here s = Some (g, rest) →
  (∃ c, s = String c (String "{" (g +:+ String "}" rest)))
  ∧ ∀ c, c ∈ String.list_ascii_of_string g → c ≠ "}"%char.
Proof.
  destruct s as [|c [|b s]]; simpl; try done.
  destruct (Ascii.eqb_spec b "{"%char) as [->|Hb].
  - destruct (bool_decide (c = "$"%char) || bool_decide (c = "#"%char));
      [|done].
    destruct (scan_group s) as [[[|g0 g'] rest']|] eqn:Hs; try done.
    intros [= <- <-]. apply scan_group_spec in Hs as [-> Hg]. eauto.
  - destruct b as [[] [] [] [] [] [] [] []]; done.
Qed.

(** Every match of the pattern is a piece of the scanned text and holds
    no closing brace. *)
Lemma findall_groups_spec n s g :
  g ∈ findall_groups n s →
  (∃ a b, s = a +:+ g +:+ b)
  ∧ ∀ c, c ∈ String.list_ascii_of_string g → c ≠ "}"%char.
Proof.
  revert s. induction n as [|n IH]; intros s; simpl;
    [by intros ?%elem_of_nil|].
  destruct (match_here s) as [[g' rest]|] eqn:Hm.
  - apply match_here_spec in Hm as [[c ->] Hg'].
    intros [-> |Hin]%elem_of_cons.
    + split; [|done]. by exists (String c (String "{" "")), (String "}" rest).
    + destruct (IH _ Hin) as [(a & b & ->) Hg]. split; [|done].
      exists (String c (String "{" (g' +:+ String "}" a))), b.
      by rewrite !string_app_cons, !string_app_assoc.
  - destruct s as [|c s]; [by intros ?%elem_of_nil|].
    intros Hin. destruct (IH _ Hin) as [(a & b & ->) Hg]. split; [|done].
    by exists (String c a), b.
Qed.

Lemma split_head_spec m :
  (∃ t, m = split_head m +:+ t)
  ∧ ∀ c, c ∈ String.list_ascii_of_string (split_head m) →
         is_name_end c = false ∧ c ∈ String.list_ascii_of_string m.
Proof.
  induction m as [|c m [[t IH] Hc]]; simpl.
  - split; [by exists ""|]. by intros c ?%elem_of_nil.
  - destruct (is_name_end c) eqn:Hend.
    + split; [by exists (String c m)|]. by intros c' ?%elem_of_nil.
    + split.
      * exists t. by rewrite string_app_cons, <-IH.
      * simpl. intros c' [->|Hin]%elem_of_cons.
        -- split; [done|]. by left.
        -- destruct (Hc _ Hin). split; [done|]. by right.
Qed.

Lemma collect_variables_spec ms V x :
  x ∈ collect_variables ms V →
  x ∈ V ∨ ∃ m, m ∈ ms ∧ x = split_head m ∧ x ≠ "".
Proof.
  revert V. induction ms as [|m ms IH]; intros V; simpl; [by left|].
  intros [Hx|(m' & Hm' & -> & Hne)]%IH.
  - destruct (split_head m) as [|c0 h] eqn:Hh; simpl in Hx; [by left|].
    apply elem_of_union in Hx as [Hx| ->%elem_of_singleton]; [by left|].
    right. exists m. rewrite Hh. split; [by left|done].
  - right. exists m'. split; [by right|done].
Qed.

(** X2: every name the extractor returns is a non-empty piece of the
    expression that holds no dot, bracket, parenthesis, white space or
    closing brace. *)
Theorem extracted_names e x :
  x ∈ extract_variables_from_expression (Some e) →
  x ≠ ""
  ∧ (∃ a b, e = a +:+ x +:+ b)
  ∧ ∀ c, c ∈ String.list_ascii_of_string x →
         c ≠ "."%char ∧ c ≠ "["%char ∧ c ≠ "("%char ∧ c ≠ "}"%char
         ∧ Py.isspace c = false.
Proof.
  unfold extract_variables_from_expression, re_findall.
  destruct (negb (Py.nonempty e)); [by intros ?%elem_of_empty|].
  intros [?%elem_of_empty|(m & Hm & -> & Hne)]%collect_variables_spec;
    [done|].
  apply findall_groups_spec in Hm as [(a & b & ->) Hbrace].
  destruct (split_head_spec m) as [[t Ht] Hc].
  split; [done|]. split.
  - exists a, (t +:+ b). f_equal. rewrite <-string_app_assoc. by rewrite <-Ht.
  - intros c Hin. destruct (Hc c Hin) as [Hend Hm].
    unfold is_name_end in Hend.
    apply orb_false_iff in Hend as [Hend Hsp].
    apply orb_false_iff in Hend as [Hend Hp].
    apply orb_false_iff in Hend as [Hd Hb].
    apply bool_decide_eq_false in Hd, Hb, Hp.
    repeat split; try done. by apply Hbrace.
Qed.

Lemma extracted_names_witness :
  "order" ∈ extract_variables_from_expression (Some "${order.total > 5}")
  ∧ ∃ a b, "${order.total > 5}" = a +:+ "order" +:+ b.
Proof.
  assert ("order" ∈ extract_variables_from_expression
                       (Some "${order.total > 5}")) as H.
  { apply (bool_decide_unpack _). vm_compute. exact I. }
  split; [exact H|].
  exact (proj1 (proj2 (extracted_names "${order.total > 5}" "order" H))).
Defined.

(** ** Statistics and the report *)

Lemma sum_values_overwrite (m : gmap string nat) k n v :
  m !! k = Some n → sum_values (<[k:=v]> m) + n = v + sum_values m.
Proof.
  intros Hk.
  assert (sum_values m = n + sum_values (delete k m)) as ->.
  { unfold sum_values.
    apply (map_fold_delete_L (λ _ v acc, v + acc)); [intros; lia | done]. }
  rewrite <-insert_delete_eq, sum_values_insert by apply lookup_delete_eq.
  lia.
Qed.

Lemma count_categories_snoc l i :
  count_categories (l ++ [i])
  = <[category i := default 0 (count_categories l !! category i) + 1]>
      (count_categories l).
Proof. unfold count_categories. by rewrite foldl_snoc. Qed.

(** The category counts add up to the number of issues, and the entry of
    a category is the number of issues that carry it; a category without
    issues has no entry. *)
Lemma count_categories_spec l :
  sum_values (count_categories l) = length l
  ∧ ∀ c, count_categories l !! c
         = (let n := length (filter (λ i, category i = c) l) in
            if decide (n = 0) then None else Some n).
Proof.
  induction l as [|i l [IHs IHl]] using rev_ind.
  - split; [apply sum_values_empty|]. intros c. apply lookup_empty.
  - rewrite count_categories_snoc. split.
    + rewrite length_app. simpl.
      destruct (count_categories l !! category i) as [n|] eqn:Hc; simpl.
      * pose proof (sum_values_overwrite _ _ _ (n + 1) Hc). lia.
      * rewrite sum_values_insert by done. lia.
    + intros c. cbv zeta. rewrite filter_app, length_app, filter_cons, filter_nil.
      specialize (IHl c). cbv zeta in IHl.
      destruct (decide (category i = c)) as [->|Hne].
      * rewrite lookup_insert_eq, IHl. simpl.
        repeat case_decide; simpl; try lia; f_equal; lia.
      * rewrite lookup_insert_ne by done. rewrite IHl. simpl.
        rewrite Nat.add_0_r. done.
Qed.

Lemma to_dict_category l c :
  length (filter (λ d, d_category d = c) (to_dict <$> l))
  = length (filter (λ i, category i = c) l).
Proof.
  induction l as [|i l IH]; [done|]. rewrite fmap_cons, !filter_cons. simpl.
  case_decide; simpl; by rewrite IH.
Qed.

Lemma to_dict_severity l sev :
  length (filter (λ d, d_severity d = severity_value sev) (to_dict <$> l))
  = count_severity sev (l).
Proof.
  unfold count_severity. induction l as [|i l IH]; [done|].
  rewrite fmap_cons, !filter_cons. cbn [to_dict d_severity].
  destruct (decide (severity i = sev)) as [->|Hne].
  - rewrite decide_True by done. simpl. by rewrite IH.
  - rewrite decide_False; [done|].
    intros Heq. apply Hne. by destruct (severity i), sev.
Qed.

(** ** Walking the element tree *)

Lemma Element_children_ind (P : Element → Prop) :
  (∀ t a x cs, Forall P cs → P (Node t a x cs)) → ∀ e, P e.
Proof.
  intros H. fix IH 1. intros [t a x cs]. apply H.
  induction cs as [|c cs IHcs]; constructor; [apply IH | exact IHcs].
Qed.

Lemma elem_of_flat_map {A B} (f : A → list B) (l : list A) y :
  y ∈ flat_map f l ↔ ∃ x, x ∈ l ∧ y ∈ f x.
Proof.
  induction l as [|a l IH]; simpl.
  - split; [by intros ?%elem_of_nil | by intros (x & ?%elem_of_nil & _)].
  - rewrite elem_of_app, IH. split.
    + intros [H|(x & Hx & Hy)]; [exists a | exists x];
        (split; [|done]); [by left | by right].
    + intros (x & [-> |Hx]%elem_of_cons & Hy); [by left|]. right. eauto.
Qed.

Lemma iter_self e : e ∈ iter e.
Proof. destruct e. by left. Qed.

Lemma iter_trans e : ∀ x y, x ∈ iter e → y ∈ iter x → y ∈ iter e.
Proof.
  induction e as [t a tx cs IH] using Element_children_ind.
  intros x y. cbn [iter]. intros [-> |Hx]%elem_of_cons Hy; [done|].
  right. apply elem_of_flat_map in Hx as (k & Hk & Hx).
  apply elem_of_flat_map. exists k. split; [done|].
  rewrite Forall_forall in IH. by apply (IH k Hk x y).
Qed.

(** A child of a descendant is a descendant. *)
Lemma descendants_children rt e c :
  e ∈ descendants rt → c ∈ children e → c ∈ descendants rt.
Proof.
  unfold descendants. intros (k & Hk & He)%elem_of_flat_map Hc.
  apply elem_of_flat_map. exists k. split; [done|].
  apply (iter_trans k e c He). destruct e as [t a x cs]. cbn in *.
  right. apply elem_of_flat_map. exists c. split; [done|apply iter_self].
Qed.

Lemma findall_desc_descendant rt t e :
  e ∈ findall_desc rt t → e ∈ descendants rt ∧ tag e = t.
Proof. unfold findall_desc. rewrite list_elem_of_filter. tauto. Qed.

Lemma findall_child_child e t c :
  c ∈ findall_child e t → c ∈ children e ∧ tag c = t.
Proof. unfold findall_child. rewrite list_elem_of_filter. tauto. Qed.

Lemma find_child_child e t c :
  find_child e t = Some c → c ∈ children e ∧ tag c = t.
Proof.
  unfold find_child. intros Hc. apply findall_child_child.
  destruct (findall_child e t); [done|]. injection Hc as ->. by left.
Qed.

Section ReportProperties.

Variable ET_parse : string → option Element.
Variable find_quoted : Element → string → string → outcome (option Element).

(** X3: in every report the statistics agree with the issue list:
    [total_issues] is its length, the category counts add up to it, a
    category has an entry exactly when an issue carries it and the entry is
    the number of those issues, and the three severity entries are the
    numbers of issues of that severity. *)
Theorem report_issue_statistics amb self r st' :
  analyze ET_parse find_quoted amb self = Done (ReportDict r, st') →
  ∃ s, r_statistics r = Some s
    ∧ total_issues s = length (r_issues r)
    ∧ sum_values (issue_counts_by_category s) = total_issues s
    ∧ (∀ c n, issue_counts_by_category s !! c = Some n ↔
              0 < n ∧ n = length (filter (λ d, d_category d = c) (r_issues r)))
    ∧ (∀ sev, issue_counts_by_severity s !! severity_value sev
              = Some (length (filter (λ d, d_severity d = severity_value sev)
                                (r_issues r)))).
Proof.
  intros (rt & st1 & _ & _ & -> & ->)%analyze_report.
  unfold make_report, calculate_statistics, set_statistics.
  cbn [r_statistics r_issues statistics issues].
  eexists. split; [reflexivity|].
  cbn [total_issues issue_counts_by_category issue_counts_by_severity].
  destruct (count_categories_spec (issues st1)) as [Hsum Hlook].
  split; [by rewrite length_fmap|]. split; [done|]. split.
  - intros c n. rewrite Hlook, to_dict_category. cbv zeta.
    case_decide; split; try done.
    + intros [? ?]. lia.
    + intros [= <-]. split; [lia|done].
    + intros [_ ->]. done.
  - intros sev.
    rewrite to_dict_severity.
    destruct sev; simpl.
    + by rewrite lookup_insert_eq.
    + rewrite lookup_insert_ne by discriminate. by rewrite lookup_insert_eq.
    + rewrite !lookup_insert_ne by discriminate. by rewrite lookup_insert_eq.
Qed.

(** X4: the variable list of a report is in ascending order without
    repeats, holds exactly the variables the run collected, and its length
    is [total_variables_detected], in whatever order the set was walked. *)
Theorem report_variables amb self r st' :
  set_order_ok amb →
  analyze ET_parse find_quoted amb self = Done (ReportDict r, st') →
  StronglySorted String.le (r_process_variables r)
  ∧ NoDup (r_process_variables r)
  ∧ (∀ x, x ∈ r_process_variables r ↔ x ∈ process_variables st')
  ∧ ∃ s, r_statistics r = Some s
      ∧ total_variables_detected s = length (r_process_variables r).
Proof.
  intros Hamb (rt & st1 & _ & _ & -> & ->)%analyze_report.
  unfold make_report. cbn [r_process_variables r_statistics].
  set (V := process_variables (calculate_statistics rt st1)).
  assert (sorted (set_order amb V) ≡ₚ elements V) as Hp.
  { unfold sorted. by rewrite merge_sort_Permutation, (Hamb V). }
  split; [apply StronglySorted_merge_sort; apply _|].
  split; [rewrite Hp; apply NoDup_elements|].
  split; [intros x; by rewrite Hp, elem_of_elements|].
  eexists. split; [reflexivity|]. cbn [total_variables_detected].
  by rewrite Hp.
Qed.


Lemma bpmn_file_emit Δ V st : bpmn_file (emit Δ V st) = bpmn_file st.
Proof. done. Qed.

(** X5: [analyze] never resets the issue list.  A second call on the
    analyzer a finished run leaves behind returns a report again, and the
    issues the first run added are in it twice; the variables are the
    same. *)
Theorem analyze_twice amb amb' self r1 st1 :
  analyze ET_parse find_quoted amb self = Done (ReportDict r1, st1) →
  ∃ Δ r2 st2,
    issues st1 = issues self ++ Δ
    ∧ analyze ET_parse find_quoted amb' st1 = Done (ReportDict r2, st2)
    ∧ issues st2 = issues self ++ Δ ++ Δ
    ∧ r_issues r2 = to_dict <$> (issues self ++ Δ ++ Δ)
    ∧ process_variables st2 = process_variables st1.
Proof.
  intros (rt & st & Hrt & Hrun & -> & _)%analyze_report.
  destruct (run_validations_counts find_quoted rt)
    as [Hr|(Δ & V & _ & Hf)]; [by rewrite Hr in Hrun|].
  rewrite Hf in Hrun. injection Hrun as <-.
  set (st0 := emit Δ V (set_root (Some rt) self)).
  set (st1 := calculate_statistics rt st0).
  set (st2 := calculate_statistics rt (emit Δ V (set_root (Some rt) st1))).
  exists Δ, (make_report amb' st2), st2.
  assert (issues st2 = issues self ++ Δ ++ Δ) as Hi2.
  { unfold st2, st1, st0, calculate_statistics, set_statistics, emit, set_root.
    cbn [issues]. by rewrite <-app_assoc. }
  split; [done|]. split; [|split; [done|split]].
  - unfold analyze, parse.
    replace (bpmn_file st1) with (bpmn_file self) by done.
    rewrite Hrt. cbn [negb root set_root]. rewrite Hf. done.
  - unfold make_report. cbn [r_issues]. by rewrite Hi2.
  - unfold st2, st1, st0, calculate_statistics, set_statistics, emit, set_root.
    cbn [process_variables]. by rewrite <-(assoc_L (∪)), (idemp_L (∪)).
Qed.

(** ** The catalogue of issues *)

Lemma emits_validate_expression_syntax_critical P e eid en ctx :
  (∀ i, category i = "Expression" → severity i = CRITICAL → P i) →
  emits P (validate_expression_syntax e eid en ctx).
Proof.
  intros HP. unfold validate_expression_syntax.
  destruct (negb (Py.nonempty e)); [apply emits_id|]. cbv zeta.
  apply (emits_comp _ (λ st, when _ _ (update_variables _ st)) (when _ _)).
  - apply (emits_comp _ (update_variables _) (when _ _)).
    + apply emits_update_variables.
    + apply emits_when, emits_add_issue. by apply HP.
  - apply emits_when, emits_add_issue. by apply HP.
Qed.

Lemma catalogued_expression i :
  category i = "Expression" → severity i = CRITICAL → catalogued i.
Proof.
  destruct i as [sev cat ? ? ? ?]. simpl. intros -> ->.
  apply (bool_decide_unpack _). by vm_compute.
Qed.

Ltac emits_catalogued_step :=
  lazymatch goal with
  | |- emits _ (validate_expression_syntax _ _ _ _) =>
      apply emits_validate_expression_syntax_critical;
      apply catalogued_expression
  | |- emits _ (add_issue _ _ _ _ _ _) =>
      apply emits_add_issue; apply (bool_decide_unpack _); by vm_compute
  | |- _ => emits_step
  end.

Ltac emits_catalogued := cbv zeta; repeat emits_catalogued_step.

Lemma validate_namespaces_catalogued rt :
  emits catalogued (validate_namespaces rt).
Proof. unfold validate_namespaces. emits_catalogued. Qed.

Lemma validate_service_tasks_catalogued rt :
  emits catalogued (validate_service_tasks rt).
Proof. unfold validate_service_tasks, service_task_body. emits_catalogued. Qed.

Lemma validate_script_tasks_catalogued rt :
  emits catalogued (validate_script_tasks rt).
Proof. unfold validate_script_tasks, script_task_body. emits_catalogued. Qed.

Lemma validate_user_tasks_catalogued rt :
  emits catalogued (validate_user_tasks rt).
Proof. unfold validate_user_tasks, user_task_body. emits_catalogued. Qed.

Lemma validate_listener_catalogued l eid en ty :
  ty = "Task Listener" ∨ ty = "Execution Listener" →
  emits catalogued (validate_listener l eid en ty).
Proof. intros [-> | ->]; unfold validate_listener; emits_catalogued. Qed.

Lemma validate_listeners_catalogued rt :
  emits catalogued (validate_listeners rt).
Proof.
  unfold validate_listeners, listeners_body. cbv zeta.
  apply emits_for_each. intros e. apply emits_if_some. intros ext.
  apply (emits_comp _ (for_each _ _) (for_each _ _));
    apply emits_for_each; intros l; apply validate_listener_catalogued; auto.
Qed.

Lemma validate_call_activities_catalogued rt :
  emits catalogued (validate_call_activities rt).
Proof.
  unfold validate_call_activities, call_activity_body. emits_catalogued.
Qed.

Lemma validate_business_rule_tasks_catalogued rt :
  emits catalogued (validate_business_rule_tasks rt).
Proof.
  unfold validate_business_rule_tasks, business_rule_task_body.
  emits_catalogued.
Qed.

Lemma validate_multi_instance_catalogued rt :
  emits catalogued (validate_multi_instance rt).
Proof.
  unfold validate_multi_instance, multi_instance_body. emits_catalogued.
Qed.

Lemma validate_subprocesses_catalogued rt :
  emits catalogued (validate_subprocesses rt).
Proof. unfold validate_subprocesses, subprocess_body. emits_catalogued. Qed.

Lemma validate_input_output_mappings_catalogued rt :
  emits catalogued (validate_input_output_mappings rt).
Proof.
  unfold validate_input_output_mappings, input_output_body, io_param_body.
  emits_catalogued.
Qed.

Lemma validate_configurations_catalogued rt :
  emits catalogued (validate_configurations rt).
Proof.
  unfold validate_configurations, configuration_body. emits_catalogued.
Qed.

Lemma validate_timer_event_catalogued d eid en :
  emits catalogued (validate_timer_event d eid en).
Proof. unfold validate_timer_event, timer_body. emits_catalogued. Qed.

Lemma validate_signal_event_catalogued d eid en :
  emits catalogued (validate_signal_event d eid en).
Proof. unfold validate_signal_event. emits_catalogued. Qed.

Lemma validate_message_event_catalogued rt d eid en :
  yields_exc (Forall catalogued)
    (validate_message_event find_quoted rt d eid en).
Proof.
  unfold validate_message_event.
  destruct (get d "messageRef") as [ref|]; [|by apply yields_exc_id].
  destruct (Py.nonempty ref); [|by apply yields_exc_id].
  destruct (find_by_id find_quoted rt (bpmn "message") ref) as [found|];
    [|by left].
  cbn. apply yields_exc_emits. emits_catalogued.
Qed.

Lemma validate_error_event_catalogued rt d eid en :
  yields_exc (Forall catalogued)
    (validate_error_event find_quoted rt d eid en).
Proof.
  unfold validate_error_event.
  destruct (get d "errorRef") as [ref|]; [|by apply yields_exc_id].
  destruct (Py.nonempty ref); [|by apply yields_exc_id].
  destruct (find_by_id find_quoted rt (bpmn "error") ref) as [found|];
    [|by left].
  cbn. apply yields_exc_emits. emits_catalogued.
Qed.

Lemma event_body_catalogued rt event :
  yields_exc (Forall catalogued) (event_body find_quoted rt event).
Proof.
  unfold event_body; cbv zeta.
  set (Q := Forall catalogued).
  assert (∀ Δ1 Δ2, Q Δ1 → Q Δ2 → Q (Δ1 ++ Δ2)) as HQ
    by (intros; by apply Forall_app_2).
  assert (∀ (o : option Element) k g,
            (∀ d, emits catalogued (k d)) → yields_exc Q g →
            yields_exc Q (λ st, g (if_some o k st))) as Hstep.
  { intros o k g Hk Hg.
    apply (yields_exc_after Q Q Q (if_some o k) g); [done| |done].
    by apply emits_if_some. }
  apply (yields_exc_bind Q Q Q); [done| |].
  - destruct (find_child event (bpmn "messageEventDefinition")) as [md|].
    + apply (Hstep _ _ (validate_message_event find_quoted rt md _ _)).
      * intros d. apply validate_timer_event_catalogued.
      * apply validate_message_event_catalogued.
    + apply (Hstep _ _ Done); [|apply yields_exc_id; constructor].
      intros d. apply validate_timer_event_catalogued.
  - apply (yields_exc_bind Q Q Q); [done| |].
    + destruct (find_child event (bpmn "errorEventDefinition")) as [ed|].
      * apply (Hstep _ _ (validate_error_event find_quoted rt ed _ _)).
        -- intros d. apply validate_signal_event_catalogued.
        -- apply validate_error_event_catalogued.
      * apply (Hstep _ _ Done); [|apply yields_exc_id; constructor].
        intros d. apply validate_signal_event_catalogued.
    + apply yields_exc_emits. emits_catalogued.
Qed.

Lemma validate_events_catalogued rt :
  yields_exc (Forall catalogued) (validate_events find_quoted rt).
Proof.
  unfold validate_events.
  apply yields_exc_for_each_exc; [done | apply Forall_app_2 |]. intros t.
  apply yields_exc_for_each_exc; [done | apply Forall_app_2 |]. intros e.
  apply event_body_catalogued.
Qed.

Lemma validate_gateways_catalogued rt :
  yields_exc (Forall catalogued) (validate_gateways find_quoted rt).
Proof.
  unfold validate_gateways.
  apply yields_exc_for_each_exc; [done | apply Forall_app_2 |]. intros t.
  apply yields_exc_for_each_exc; [done | apply Forall_app_2 |]. intros g.
  unfold gateway_body; cbv zeta.
  apply (yields_exc_bind (Forall catalogued) (Forall catalogued));
    [apply Forall_app_2| |].
  - apply yields_exc_for_each_exc; [done | apply Forall_app_2 |]. intros o.
    unfold outgoing_body. destruct (text o) as [flow_id|];
      [|by apply yields_exc_id].
    destruct (Py.nonempty flow_id); [|by apply yields_exc_id].
    destruct (find_by_id find_quoted rt (bpmn "sequenceFlow") flow_id)
      as [flow|]; [|by left].
    cbn. apply yields_exc_emits. emits_catalogued.
  - apply yields_exc_emits. emits_catalogued.
Qed.

Ltac emits_groups_catalogued :=
  repeat lazymatch goal with
         | |- emits ?P (λ st, ?g (@?f st)) => apply (emits_comp P f g)
         end;
  first
    [ apply emits_id
    | apply validate_namespaces_catalogued
    | apply validate_service_tasks_catalogued
    | apply validate_script_tasks_catalogued
    | apply validate_user_tasks_catalogued
    | apply validate_listeners_catalogued
    | apply validate_call_activities_catalogued
    | apply validate_business_rule_tasks_catalogued
    | apply validate_multi_instance_catalogued
    | apply validate_subprocesses_catalogued
    | apply validate_input_output_mappings_catalogued
    | apply validate_configurations_catalogued ].

Lemma run_validations_catalogued rt :
  yields_exc (Forall catalogued) (run_validations find_quoted rt).
Proof.
  unfold run_validations; cbv zeta.
  set (Q := Forall catalogued).
  assert (∀ Δ1 Δ2, Q Δ1 → Q Δ2 → Q (Δ1 ++ Δ2)) as HQ
    by (intros; by apply Forall_app_2).
  apply (yields_exc_bind Q Q Q); [done| |].
  - apply (yields_exc_after Q Q Q
             (λ st, validate_user_tasks rt (validate_script_tasks rt
                  (validate_service_tasks rt (validate_namespaces rt st)))));
      [done| |apply validate_gateways_catalogued].
    change (emits catalogued
              (λ st, validate_user_tasks rt (validate_script_tasks rt
                  (validate_service_tasks rt (validate_namespaces rt st))))).
    emits_groups_catalogued.
  - apply (yields_exc_bind Q Q Q); [done| |].
    + apply validate_events_catalogued.
    + apply yields_exc_emits. emits_groups_catalogued.
Qed.

(** X6: every issue a run adds has one of the category and severity pairs
    of the catalogue: an Expression issue is always CRITICAL, an INFO issue
    is always of category Service Task, Configuration or Error Event, and no
    other category than the nineteen listed ever occurs. *)
Theorem report_issues_catalogued amb self r st' :
  analyze ET_parse find_quoted amb self = Done (ReportDict r, st') →
  ∃ Δ, issues st' = issues self ++ Δ
    ∧ r_issues r = to_dict <$> (issues self ++ Δ)
    ∧ Forall catalogued Δ
    ∧ Forall (λ i, category i = "Expression" → severity i = CRITICAL) Δ
    ∧ Forall (λ i, severity i = INFO →
                   category i ∈ ["Service Task"; "Configuration"; "Error Event"])
        Δ.
Proof.
  intros (rt & st1 & _ & Hrun & -> & ->)%analyze_report.
  apply (yields_exc_Done _ _ _ _ (run_validations_catalogued rt)) in Hrun
    as (Δ & V & HΔ & ->).
  exists Δ. split; [done|]. split; [done|]. split; [done|].
  split; (eapply Forall_impl; [exact HΔ|]);
    intros [sev cat ? ? ? ?] Hi; unfold catalogued, catalogue in Hi;
    cbn [category severity] in *; intros ->;
    rewrite !elem_of_cons, elem_of_nil in Hi;
    rewrite ?elem_of_cons;
    repeat destruct Hi as [Hi|Hi]; try done; simplify_eq; auto.
Qed.

(** ** Runs that return *)

Lemma validate_events_done rt st :
  plain_references rt → ∃ st', validate_events find_quoted rt st = Done st'.
Proof.
  intros Hplain. unfold validate_events.
  apply for_each_exc_done. intros t st0 _.
  apply for_each_exc_done. intros ev st1 [Hev _]%findall_desc_descendant.
  unfold event_body; cbv zeta.
  assert (∀ s, ∃ s',
            match find_child ev (bpmn "messageEventDefinition") with
            | Some d => validate_message_event find_quoted rt d
                          (get_or ev "id" "unknown")
                          (get_or ev "name" "Unnamed") s
            | None => Done s
            end = Done s') as Hm.
  { intros s.
    destruct (find_child ev (bpmn "messageEventDefinition")) as [d|] eqn:Hd;
      [|eauto].
    apply find_child_child in Hd as [Hd _].
    unfold validate_message_event.
    destruct (get d "messageRef") as [ref|] eqn:Href; [|eauto].
    destruct (Py.nonempty ref); [|eauto].
    destruct (find_by_id_plain find_quoted rt (bpmn "message") ref)
      as [o ->]; [|cbn; eauto].
    apply (Hplain d ref); [by apply (descendants_children rt ev d)|auto]. }
  assert (∀ s, ∃ s',
            match find_child ev (bpmn "errorEventDefinition") with
            | Some d => validate_error_event find_quoted rt d
                          (get_or ev "id" "unknown")
                          (get_or ev "name" "Unnamed") s
            | None => Done s
            end = Done s') as He.
  { intros s.
    destruct (find_child ev (bpmn "errorEventDefinition")) as [d|] eqn:Hd;
      [|eauto].
    apply find_child_child in Hd as [Hd _].
    unfold validate_error_event.
    destruct (get d "errorRef") as [ref|] eqn:Href; [|eauto].
    destruct (Py.nonempty ref); [|eauto].
    destruct (find_by_id_plain find_quoted rt (bpmn "error") ref)
      as [o ->]; [|cbn; eauto].
    apply (Hplain d ref); [by apply (descendants_children rt ev d)|auto]. }
  match goal with
  | |- ∃ st', ?m ≫= ?k = Done st' =>
      match m with
      | context [validate_message_event _ _ _ _ _ ?s] =>
          destruct (Hm s) as [s1 ->]
      end
  end.
  cbn.
  match goal with
  | |- ∃ st', ?m ≫= ?k = Done st' =>
      match m with
      | context [validate_error_event _ _ _ _ _ ?s] =>
          destruct (He s) as [s2 ->]
      end
  end.
  cbn. eauto.
Qed.

Lemma outcome_bind_Done {A B} (a : A) (k : A → outcome B) :
  Done a ≫= k = k a.
Proof. reflexivity. Qed.

(** X7: a document that parses and whose references hold no apostrophe is
    analysed to the end: [analyze] returns a report, it does not raise. *)
Theorem analyze_returns_report amb self rt :
  ET_parse (bpmn_file self) = Some rt → plain_references rt →
  ∃ r st', analyze ET_parse find_quoted amb self = Done (ReportDict r, st').
Proof.
  intros Hrt Hplain. unfold analyze, parse. rewrite Hrt.
  cbn [negb root set_root]. unfold run_validations; cbv zeta.
  match goal with
  | |- context [validate_gateways find_quoted rt ?s] =>
      destruct (validate_gateways_done find_quoted rt s) as [s1 ->]
  end.
  { intros t g o v _ [Hg _]%findall_desc_descendant
      [Ho Htag]%findall_child_child Htext.
    apply (Hplain o v); [by apply (descendants_children rt g o)|auto]. }
  rewrite outcome_bind_Done.
  destruct (validate_events_done rt s1 Hplain) as [s2 ->].
  rewrite !outcome_bind_Done. eauto.
Qed.


End ReportProperties.

(** ** The further properties on the sample document *)

Lemma plain_references_test_spec rt :
  plain_references_test rt = true → plain_references rt.
Proof.
  unfold plain_references_test, plain_references. rewrite forallb_forall.
  intros Hall e v He%list_elem_of_In Hcase. specialize (Hall e He).
  apply andb_true_iff in Hall as [Hall Herr].
  apply andb_true_iff in Hall as [Hout Hmsg].
  destruct Hcase as [[Htag Htext]|[Hm|Hr]].
  - rewrite bool_decide_eq_true_2 in Hout by done. rewrite Htext in Hout.
    by apply negb_true_iff in Hout.
  - rewrite Hm in Hmsg. by apply negb_true_iff in Hmsg.
  - rewrite Hr in Herr. by apply negb_true_iff in Herr.
Qed.

Lemma sample_plain_references : plain_references sample_document.
Proof. apply plain_references_test_spec. vm_compute. reflexivity. Qed.

Lemma report_issue_statistics_witness :
  ∃ r st',
    analyze sample_parse rejecting_find morning (init "order.bpmn")
    = Done (ReportDict r, st')
    ∧ ∃ s, r_statistics r = Some s
        ∧ total_issues s = length (r_issues r)
        ∧ sum_values (issue_counts_by_category s) = total_issues s.
Proof.
  pose proof sample_run_is_report as Hr.
  destruct (analyze sample_parse rejecting_find morning (init "order.bpmn"))
    as [[[|r] st']|] eqn:H; try discriminate Hr.
  exists r, st'. split; [reflexivity|].
  destruct (report_issue_statistics sample_parse rejecting_find morning
              (init "order.bpmn") r st' H) as (s & Hs & Ht & Hc & _).
  exists s. split; [exact Hs|]. split; [exact Ht | exact Hc].
Defined.

Lemma report_variables_witness :
  ∃ r st',
    (set_order_ok evening
     ∧ analyze sample_parse rejecting_find evening (init "order.bpmn")
       = Done (ReportDict r, st'))
    ∧ StronglySorted String.le (r_process_variables r)
    ∧ NoDup (r_process_variables r).
Proof.
  assert (is_report (analyze sample_parse rejecting_find evening
                       (init "order.bpmn")) = true) as Hr
    by (vm_compute; reflexivity).
  assert (set_order_ok evening) as Hamb
    by (intros s; apply reverse_Permutation).
  destruct (analyze sample_parse rejecting_find evening (init "order.bpmn"))
    as [[[|r] st']|] eqn:H; try discriminate Hr.
  exists r, st'. split; [by split|].
  destruct (report_variables sample_parse rejecting_find evening
              (init "order.bpmn") r st' Hamb H) as (Hs & Hn & _).
  split; [exact Hs | exact Hn].
Defined.

Lemma analyze_twice_witness :
  ∃ r1 st1,
    analyze sample_parse rejecting_find morning (init "order.bpmn")
    = Done (ReportDict r1, st1)
    ∧ ∃ Δ r2 st2,
        issues st1 = issues (init "order.bpmn") ++ Δ
        ∧ analyze sample_parse rejecting_find evening st1
          = Done (ReportDict r2, st2)
        ∧ issues st2 = issues (init "order.bpmn") ++ Δ ++ Δ.
Proof.
  pose proof sample_run_is_report as Hr.
  destruct (analyze sample_parse rejecting_find morning (init "order.bpmn"))
    as [[[|r1] st1]|] eqn:H; try discriminate Hr.
  exists r1, st1. split; [reflexivity|].
  destruct (analyze_twice sample_parse rejecting_find morning evening
              (init "order.bpmn") r1 st1 H)
    as (Δ & r2 & st2 & H1 & H2 & H3 & _).
  exists Δ, r2, st2. split; [exact H1|]. split; [exact H2 | exact H3].
Defined.

Lemma report_issues_catalogued_witness :
  ∃ r st',
    analyze sample_parse rejecting_find morning (init "order.bpmn")
    = Done (ReportDict r, st')
    ∧ ∃ Δ, issues st' = issues (init "order.bpmn") ++ Δ
        ∧ Forall catalogued Δ.
Proof.
  pose proof sample_run_is_report as Hr.
  destruct (analyze sample_parse rejecting_find morning (init "order.bpmn"))
    as [[[|r] st']|] eqn:H; try discriminate Hr.
  exists r, st'. split; [reflexivity|].
  destruct (report_issues_catalogued sample_parse rejecting_find morning
              (init "order.bpmn") r st' H) as (Δ & H1 & _ & H2 & _).
  exists Δ. split; [exact H1 | exact H2].
Defined.

Lemma analyze_returns_report_witness :
  (sample_parse (bpmn_file (init "order.bpmn")) = Some sample_document
   ∧ plain_references sample_document)
  ∧ ∃ r st',
      analyze sample_parse rejecting_find morning (init "order.bpmn")
      = Done (ReportDict r, st').
Proof.
  assert (sample_parse (bpmn_file (init "order.bpmn")) = Some sample_document)
    as Hrt by reflexivity.
  split; [split; [exact Hrt | exact sample_plain_references]|].
  exact (analyze_returns_report sample_parse rejecting_find morning
           (init "order.bpmn") sample_document Hrt sample_plain_references).
Defined.



(** ** The assessment of the report *)

Lemma count_severity_zero sev l :
  count_severity sev l = 0 ↔ Forall (λ i, severity i ≠ sev) l.
Proof.
  unfold count_severity. induction l as [|i l IH]; [by split; [constructor|]|].
  rewrite filter_cons, Forall_cons. case_decide; simpl.
  - split; [lia|]. by intros [? _].
  - rewrite IH. naive_solver.
Qed.

Lemma count_severity_app sev l1 l2 :
  count_severity sev (l1 ++ l2) = count_severity sev l1 + count_severity sev l2.
Proof. unfold count_severity. by rewrite filter_app, length_app. Qed.

Lemma migration_complexity_calculate rt st :
  migration_complexity (calculate_statistics rt st)
  = Done (assess (count_severity CRITICAL (issues st))
                 (count_severity WARNING (issues st))).
Proof.
  unfold migration_complexity, calculate_statistics, set_statistics, getitem.
  cbn [statistics issue_counts_by_severity].
  rewrite lookup_insert_eq. cbn [mbind outcome_bind].
  rewrite lookup_insert_ne by discriminate. rewrite lookup_insert_eq.
  done.
Qed.

(** X9: once the statistics are computed the assessment always has a
    level.  It is LOW exactly when every issue is INFO, HIGH exactly when
    there are more than 5 CRITICAL or more than 10 WARNING issues, MEDIUM
    otherwise; and issues added to the list never lower it. *)
Theorem migration_complexity_levels rt st st' Δ :
  issues st' = issues st ++ Δ →
  ∃ level description level' description',
    migration_complexity (calculate_statistics rt st)
      = Done (level, description)
    ∧ migration_complexity (calculate_statistics rt st')
      = Done (level', description')
    ∧ level ∈ ["LOW"; "MEDIUM"; "HIGH"]
    ∧ (level = "LOW" ↔ Forall (λ i, severity i = INFO) (issues st))
    ∧ (level = "HIGH" ↔
         5 < count_severity CRITICAL (issues st)
         ∨ 10 < count_severity WARNING (issues st))
    ∧ level_rank level ≤ level_rank level'.
Proof.
  intros Hi. rewrite !migration_complexity_calculate, Hi.
  rewrite !count_severity_app.
  assert (Forall (λ i, severity i = INFO) (issues st)
          ↔ count_severity CRITICAL (issues st) = 0
            ∧ count_severity WARNING (issues st) = 0) as Hlow.
  { rewrite !count_severity_zero, <-Forall_and. apply Forall_proper; [|done].
    intros i. destruct (severity i); naive_solver. }
  revert Hlow.
  generalize (Forall (λ i, severity i = INFO) (issues st)) as low.
  generalize (count_severity CRITICAL (issues st)) as c.
  generalize (count_severity WARNING (issues st)) as w.
  generalize (count_severity CRITICAL Δ) as c'.
  generalize (count_severity WARNING Δ) as w'.
  intros w' c' w c low Hlow. unfold assess.
  destruct (Nat.eqb_spec c 0), (Nat.eqb_spec w 0),
    (Nat.leb_spec c 5), (Nat.leb_spec w 10),
    (Nat.eqb_spec (c + c') 0), (Nat.eqb_spec (w + w') 0),
    (Nat.leb_spec (c + c') 5), (Nat.leb_spec (w + w') 10);
    try lia; cbn [andb]; do 4 eexists;
    (split; [reflexivity|]); (split; [reflexivity|]);
    (split; [apply (bool_decide_unpack _); by vm_compute|]);
    (split; [rewrite Hlow; split; [try discriminate; lia|try done; lia]|]);
    (split; [split; [try discriminate; lia|try done; lia]|]);
    vm_compute; lia.
Qed.
(** ** Export after the analysis *)

Section ExportProperties.

Variable ET_parse : string → option Element.
Variable find_quoted : Element → string → string → outcome (option Element).

(** X10: exporting to JSON after a run that returned a report does not run
    the analysis again: the analyzer is left as it is, and the exported
    dictionary carries the file, statistics, issues and process variables
    of that report under a new timestamp. *)
Theorem export_json_after_analyze amb amb' self r st' :
  set_order_ok amb → set_order_ok amb' →
  analyze ET_parse find_quoted amb self = Done (ReportDict r, st') →
  ∃ r', export_json ET_parse find_quoted amb' st' = Done (ReportDict r', st')
    ∧ r_file r' = r_file r
    ∧ r_timestamp r' = now_isoformat amb'
    ∧ r_statistics r' = r_statistics r
    ∧ r_issues r' = r_issues r
    ∧ r_process_variables r' = r_process_variables r.
Proof.
  intros Hamb Hamb' Hrun.
  destruct (analyze_report _ _ _ _ _ _ Hrun) as (rt & st1 & _ & _ & -> & ->).
  unfold export_json.
  destruct (calculate_statistics_spec rt st1) as (s & Hs & _). rewrite Hs.
  eexists. split; [reflexivity|].
  unfold make_report.
  cbn [r_file r_timestamp r_statistics r_issues r_process_variables].
  repeat split. apply sorted_Permutation. by rewrite (Hamb _), (Hamb' _).
Qed.

End ExportProperties.

(** ** The command line *)

Lemma follows_cons flag v a args :
  follows flag v args → follows flag v (a :: args).
Proof. intros (b & c & ->). by exists (a :: b), c. Qed.

Lemma follows_head flag v args : follows flag v (flag :: v :: args).
Proof. by exists [], args. Qed.

Lemma parse_options_step a v rest o :
  main.parse_options (a :: v :: rest) o
  = if bool_decide (a = "--json") then
      main.parse_options rest
        {| main.export_json := Some v; main.export_csv := main.export_csv o;
           main.export_html := main.export_html o |}
    else if bool_decide (a = "--csv") then
      main.parse_options rest
        {| main.export_json := main.export_json o; main.export_csv := Some v;
           main.export_html := main.export_html o |}
    else if bool_decide (a = "--html") then
      main.parse_options rest
        {| main.export_json := main.export_json o;
           main.export_csv := main.export_csv o;
           main.export_html := Some v |}
    else main.parse_options (v :: rest) o.
Proof. reflexivity. Qed.

Lemma parse_options_follows args : ∀ o,
  let o' := main.parse_options args o in
  (∀ v, main.export_json o' = Some v →
        main.export_json o = Some v ∨ follows "--json" v args)
  ∧ (∀ v, main.export_csv o' = Some v →
          main.export_csv o = Some v ∨ follows "--csv" v args)
  ∧ (∀ v, main.export_html o' = Some v →
          main.export_html o = Some v ∨ follows "--html" v args).
Proof.
  remember (length args) as n eqn:Hn. revert args Hn.
  induction n as [n IH] using lt_wf_ind. intros args Hn o.
  destruct args as [|a [|v rest]]; [cbn; naive_solver..|].
  rewrite parse_options_step.
  pose proof (IH (length rest) ltac:(simpl in Hn; lia) rest eq_refl) as IH2.
  pose proof (IH (length (v :: rest)) ltac:(simpl in Hn; simpl; lia)
                (v :: rest) eq_refl o) as IH1.
  cbv zeta in IH1, IH2.
  repeat case_bool_decide; subst.
  - destruct (IH2 {| main.export_json := Some v;
                     main.export_csv := main.export_csv o;
                     main.export_html := main.export_html o |})
      as (Hj & Hc & Hh).
    cbn [main.export_json main.export_csv main.export_html] in *.
    repeat split; intros w Hw.
    + destruct (Hj w Hw) as [[= <-]|?];
        right; [apply follows_head|by do 2 apply follows_cons].
    + destruct (Hc w Hw); [by left|right; by do 2 apply follows_cons].
    + destruct (Hh w Hw); [by left|right; by do 2 apply follows_cons].
  - destruct (IH2 {| main.export_json := main.export_json o;
                     main.export_csv := Some v;
                     main.export_html := main.export_html o |})
      as (Hj & Hc & Hh).
    cbn [main.export_json main.export_csv main.export_html] in *.
    repeat split; intros w Hw.
    + destruct (Hj w Hw); [by left|right; by do 2 apply follows_cons].
    + destruct (Hc w Hw) as [[= <-]|?];
        right; [apply follows_head|by do 2 apply follows_cons].
    + destruct (Hh w Hw); [by left|right; by do 2 apply follows_cons].
  - destruct (IH2 {| main.export_json := main.export_json o;
                     main.export_csv := main.export_csv o;
                     main.export_html := Some v |})
      as (Hj & Hc & Hh).
    cbn [main.export_json main.export_csv main.export_html] in *.
    repeat split; intros w Hw.
    + destruct (Hj w Hw); [by left|right; by do 2 apply follows_cons].
    + destruct (Hc w Hw); [by left|right; by do 2 apply follows_cons].
    + destruct (Hh w Hw) as [[= <-]|?];
        right; [apply follows_head|by do 2 apply follows_cons].
  - destruct IH1 as (Hj & Hc & Hh).
    repeat split; intros w Hw.
    + destruct (Hj w Hw); [by left|right; by apply follows_cons].
    + destruct (Hc w Hw); [by left|right; by apply follows_cons].
    + destruct (Hh w Hw); [by left|right; by apply follows_cons].
Qed.

Lemma parse_options_no_flag args o :
  Forall (λ a, a ∉ flags) args → main.parse_options args o = o.
Proof.
  induction 1 as [|a args Ha _ IH]; [done|].
  destruct args as [|v rest]; [done|].
  rewrite parse_options_step.
  rewrite !bool_decide_eq_false_2; [done|..];
    intros ->; apply Ha; apply (bool_decide_unpack _); by vm_compute.
Qed.

Lemma parse_options_skip before a v after o :
  Forall (λ a, a ∉ flags) before →
  main.parse_options (before ++ a :: v :: after) o
  = main.parse_options (a :: v :: after) o.
Proof.
  induction 1 as [|x before Hx _ IH]; [done|].
  rewrite <-app_comm_cons.
  destruct (before ++ a :: v :: after) as [|y rest] eqn:Heq;
    [by destruct before|].
  rewrite parse_options_step.
  rewrite !bool_decide_eq_false_2; [done|..];
    intros ->; apply Hx; apply (bool_decide_unpack _); by vm_compute.
Qed.

(** X11: the option loop of [main].  An export path is always the argument
    that directly follows its flag, whatever that argument looks like;
    arguments that contain none of the three flags leave every export off;
    and arguments before the first flag are skipped. *)
Theorem main_options args :
  let o := main.parse_options args main.no_options in
  (∀ v, main.export_json o = Some v → follows "--json" v args)
  ∧ (∀ v, main.export_csv o = Some v → follows "--csv" v args)
  ∧ (∀ v, main.export_html o = Some v → follows "--html" v args)
  ∧ (Forall (λ a, a ∉ flags) args → o = main.no_options)
  ∧ (∀ before a v after,
       args = before ++ a :: v :: after →
       Forall (λ a, a ∉ flags) before →
       o = main.parse_options (a :: v :: after) main.no_options).
Proof.
  destruct (parse_options_follows args main.no_options) as (Hj & Hc & Hh).
  cbv zeta in *.
  repeat split.
  - intros v Hv. by destruct (Hj v Hv).
  - intros v Hv. by destruct (Hc v Hv).
  - intros v Hv. by destruct (Hh v Hv).
  - apply parse_options_no_flag.
  - intros before a v after -> Hb. by apply parse_options_skip.
Qed.
(** ** Upload names of the web front end *)

Lemma contains_dot_cons c s :
  Py.contains "." (String c s)
  = bool_decide (c = "."%char) || Py.contains "." s.
Proof.
  cbn [Py.contains Py.startswith].
  destruct (decide ("."%char = c)) as [<-|Hne].
  - by rewrite bool_decide_eq_true_2.
  - rewrite bool_decide_eq_false_2; [done|by intros ->].
Qed.

Lemma string_app_nil_l t : "" +:+ t = t.
Proof. reflexivity. Qed.

Lemma rsplit_dot_1_None s :
  rsplit_dot_1 s = None ↔ Py.contains "." s = false.
Proof.
  induction s as [|c s IH]; [done|].
  rewrite contains_dot_cons. cbn [rsplit_dot_1].
  destruct (rsplit_dot_1 s) as [e|].
  - split; [done|]. intros [_ H]%orb_false_iff. by apply IH in H.
  - rewrite (proj1 IH eq_refl), orb_false_r.
    by case_bool_decide.
Qed.

Lemma rsplit_dot_1_Some s ext :
  rsplit_dot_1 s = Some ext
  ↔ ∃ base, s = base +:+ "." +:+ ext ∧ Py.contains "." ext = false.
Proof.
  revert ext. induction s as [|c s IH]; intros ext.
  - split; [done|]. intros ([|??] & H & _);
      rewrite ?string_app_cons, ?string_app_nil_l in H; discriminate H.
  - cbn [rsplit_dot_1]. destruct (rsplit_dot_1 s) as [e|] eqn:He.
    + split.
      * intros [= <-]. destruct (proj1 (IH e) eq_refl) as (base & -> & Hn).
        by exists (String c base).
      * intros (base & Hs & Hn). f_equal.
        destruct base as [|b base];
          rewrite ?string_app_cons, ?string_app_nil_l in Hs; simplify_eq.
        -- apply rsplit_dot_1_None in Hn. congruence.
        -- assert (Some e = Some ext) as [= ->]; [|done].
           apply IH. by exists base.
    + apply rsplit_dot_1_None in He as Hs. split.
      * case_bool_decide; [|done]. intros [= <-]. subst. by exists "".
      * intros (base & Heq & Hn).
        destruct base as [|b base];
          rewrite ?string_app_cons, ?string_app_nil_l in Heq; simplify_eq;
          [by rewrite bool_decide_eq_true_2|].
        exfalso. assert (@None string = Some ext) as [=].
        apply IH. by exists base.
Qed.

(** X12: a name is accepted for upload exactly when it has a dot and the
    text after its last dot, lower-cased, is [bpmn] or [xml]; the text
    before that dot does not matter and may be empty. *)
Theorem allowed_file_extension filename :
  allowed_file filename = true
  ↔ ∃ base ext,
      filename = base +:+ "." +:+ ext
      ∧ Py.contains "." ext = false
      ∧ Py.lower ext ∈ ALLOWED_EXTENSIONS.
Proof.
  unfold allowed_file. split.
  - intros [Hdot H]%andb_true_iff.
    destruct (rsplit_dot_1 filename) as [ext|] eqn:He; [|done].
    apply rsplit_dot_1_Some in He as (base & -> & Hn).
    exists base, ext. repeat split; [done|]. by apply bool_decide_eq_true in H.
  - intros (base & ext & -> & Hn & Hin).
    assert (rsplit_dot_1 (base +:+ "." +:+ ext) = Some ext) as He.
    { apply rsplit_dot_1_Some. by exists base. }
    rewrite He. apply andb_true_iff. split.
    + destruct (Py.contains "." (base +:+ "." +:+ ext)) eqn:Hc; [done|].
      apply rsplit_dot_1_None in Hc. congruence.
    + by apply bool_decide_eq_true.
Qed.
(** ** Where the issues point *)

Lemma emits_weaken (P P' : MigrationIssue → Prop) f :
  (∀ i, P i → P' i) → emits P f → emits P' f.
Proof.
  intros HP (Δ & V & HΔ & Hf). exists Δ, V. split; [|done].
  by eapply Forall_impl.
Qed.

Lemma emits_for_each_in {A} P (l : list A) body :
  (∀ x, x ∈ l → emits P (body x)) → emits P (for_each l body).
Proof.
  unfold for_each. induction l as [|x l IH]; intros Hb; simpl.
  - apply emits_id.
  - apply (emits_comp _ (body x) (λ st, foldl (λ s y, body y s) st l)).
    + apply Hb. by left.
    + apply IH. intros y Hy. apply Hb. by right.
Qed.

Lemma yields_exc_for_each_exc_in {A} (Q : list MigrationIssue → Prop)
    (l : list A) body :
  Q [] → (∀ Δ1 Δ2, Q Δ1 → Q Δ2 → Q (Δ1 ++ Δ2)) →
  (∀ x, x ∈ l → yields_exc Q (body x)) → yields_exc Q (for_each_exc l body).
Proof.
  intros Hnil Happ. induction l as [|x l IH]; intros Hb; simpl.
  - by apply yields_exc_id.
  - apply (yields_exc_bind Q Q Q); [done| |].
    + apply Hb. by left.
    + apply IH. intros y Hy. apply Hb. by right.
Qed.

Lemma emits_validate_expression_syntax_at e eid en ctx :
  emits (issue_at eid en) (validate_expression_syntax e eid en ctx).
Proof.
  unfold validate_expression_syntax.
  destruct (negb (Py.nonempty e)); [apply emits_id|]. cbv zeta.
  apply (emits_comp _ (λ st, when _ _ (update_variables _ st)) (when _ _)).
  - apply (emits_comp _ (update_variables _) (when _ _)).
    + apply emits_update_variables.
    + by apply emits_when, emits_add_issue.
  - by apply emits_when, emits_add_issue.
Qed.

Ltac emits_at_step :=
  lazymatch goal with
  | |- emits _ (validate_expression_syntax _ _ _ _) =>
      apply emits_validate_expression_syntax_at
  | |- emits _ (add_issue _ _ _ _ _ _) => by apply emits_add_issue
  | |- _ => emits_step
  end.

Ltac emits_at := unfold attributed_to; cbv zeta; repeat emits_at_step.

Lemma service_task_body_at e : emits (attributed_to e) (service_task_body e).
Proof. unfold service_task_body. emits_at. Qed.

Lemma script_task_body_at e : emits (attributed_to e) (script_task_body e).
Proof. unfold script_task_body. emits_at. Qed.

Lemma user_task_body_at e : emits (attributed_to e) (user_task_body e).
Proof. unfold user_task_body. emits_at. Qed.

Lemma validate_listener_at l eid en ty :
  emits (issue_at eid en) (validate_listener l eid en ty).
Proof. unfold validate_listener. emits_at. Qed.

Lemma listeners_body_at e : emits (attributed_to e) (listeners_body e).
Proof.
  unfold listeners_body, attributed_to. cbv zeta.
  apply emits_if_some. intros ext.
  apply (emits_comp _ (for_each _ _) (for_each _ _));
    apply emits_for_each; intros l; apply validate_listener_at.
Qed.

Lemma call_activity_body_at e :
  emits (attributed_to e) (call_activity_body e).
Proof. unfold call_activity_body. emits_at. Qed.

Lemma business_rule_task_body_at e :
  emits (attributed_to e) (business_rule_task_body e).
Proof. unfold business_rule_task_body. emits_at. Qed.

Lemma multi_instance_body_at pm :
  emits (attributed_to pm.1) (multi_instance_body pm).
Proof. unfold multi_instance_body. emits_at. Qed.

Lemma subprocess_body_at e : emits (attributed_to e) (subprocess_body e).
Proof. unfold subprocess_body. emits_at. Qed.

Lemma input_output_body_at e : emits (attributed_to e) (input_output_body e).
Proof. unfold input_output_body, io_param_body. emits_at. Qed.

Lemma configuration_body_at e : emits (attributed_to e) (configuration_body e).
Proof. unfold configuration_body. emits_at. Qed.

Lemma validate_timer_event_at d eid en :
  emits (issue_at eid en) (validate_timer_event d eid en).
Proof. unfold validate_timer_event, timer_body. emits_at. Qed.

Lemma validate_signal_event_at d eid en :
  emits (issue_at eid en) (validate_signal_event d eid en).
Proof. unfold validate_signal_event. emits_at. Qed.

Lemma descendants_iter rt e : e ∈ descendants rt → e ∈ iter rt.
Proof. destruct rt as [t a x cs]. intros He. by right. Qed.

Lemma attributed_located rt e i :
  e ∈ iter rt → attributed_to e i → located rt i.
Proof. intros He Hi. right. by exists e. Qed.

(** A loop over elements of the document whose body names the element it
    is run on. *)
Lemma for_each_located rt (l : list Element) body :
  (∀ e, e ∈ l → e ∈ iter rt) →
  (∀ e, emits (attributed_to e) (body e)) →
  emits (located rt) (for_each l body).
Proof.
  intros Hl Hb. apply emits_for_each_in. intros e He.
  apply (emits_weaken (attributed_to e)); [|apply Hb].
  intros i. apply attributed_located. by apply Hl.
Qed.

Lemma findall_desc_iter rt t e : e ∈ findall_desc rt t → e ∈ iter rt.
Proof. intros [He _]%findall_desc_descendant. by apply descendants_iter. Qed.

Lemma validate_namespaces_located rt :
  emits (located rt) (validate_namespaces rt).
Proof.
  unfold validate_namespaces. cbv zeta.
  apply emits_when, emits_add_issue. by left.
Qed.

Lemma validate_service_tasks_located rt :
  emits (located rt) (validate_service_tasks rt).
Proof.
  apply for_each_located;
    [apply findall_desc_iter | apply service_task_body_at].
Qed.

Lemma validate_script_tasks_located rt :
  emits (located rt) (validate_script_tasks rt).
Proof.
  apply for_each_located;
    [apply findall_desc_iter | apply script_task_body_at].
Qed.

Lemma validate_user_tasks_located rt :
  emits (located rt) (validate_user_tasks rt).
Proof.
  apply for_each_located; [apply findall_desc_iter | apply user_task_body_at].
Qed.

Lemma validate_listeners_located rt :
  emits (located rt) (validate_listeners rt).
Proof.
  apply for_each_located; [apply descendants_iter | apply listeners_body_at].
Qed.

Lemma validate_call_activities_located rt :
  emits (located rt) (validate_call_activities rt).
Proof.
  apply for_each_located;
    [apply findall_desc_iter | apply call_activity_body_at].
Qed.

Lemma validate_business_rule_tasks_located rt :
  emits (located rt) (validate_business_rule_tasks rt).
Proof.
  apply for_each_located;
    [apply findall_desc_iter | apply business_rule_task_body_at].
Qed.

Lemma iter_with_parent_fst : ∀ e p0 p c,
  (p, c) ∈ iter_with_parent p0 e → p = p0 ∨ p ∈ iter e.
Proof.
  induction e as [t a x cs IH] using Element_children_ind.
  intros p0 p c. cbn [iter_with_parent iter].
  intros [[= -> ->]|Hin]%elem_of_cons; [by left|]. right.
  apply elem_of_flat_map in Hin as (k & Hk & Hin).
  rewrite Forall_forall in IH.
  destruct (IH k Hk _ _ _ Hin) as [->|Hp]; [by left|].
  right. apply elem_of_flat_map. by exists k.
Qed.

Lemma descendants_with_parent_fst rt p c :
  (p, c) ∈ descendants_with_parent rt → p ∈ iter rt.
Proof.
  unfold descendants_with_parent.
  intros (k & Hk & Hin)%elem_of_flat_map.
  destruct (iter_with_parent_fst _ _ _ _ Hin) as [->|Hp]; [apply iter_self|].
  destruct rt as [t a x cs]. right. apply elem_of_flat_map. by exists k.
Qed.

Lemma validate_multi_instance_located rt :
  emits (located rt) (validate_multi_instance rt).
Proof.
  unfold validate_multi_instance. apply emits_for_each_in.
  intros [p m] [_ Hpm]%list_elem_of_filter.
  apply (emits_weaken (attributed_to p));
    [|apply (multi_instance_body_at (p, m))].
  intros i. apply attributed_located.
  by apply descendants_with_parent_fst in Hpm.
Qed.

Lemma validate_subprocesses_located rt :
  emits (located rt) (validate_subprocesses rt).
Proof.
  apply for_each_located; [apply findall_desc_iter | apply subprocess_body_at].
Qed.

Lemma validate_input_output_mappings_located rt :
  emits (located rt) (validate_input_output_mappings rt).
Proof.
  apply for_each_located; [apply descendants_iter | apply input_output_body_at].
Qed.

Lemma validate_configurations_located rt :
  emits (located rt) (validate_configurations rt).
Proof.
  apply for_each_located;
    [apply descendants_iter | apply configuration_body_at].
Qed.

Section LocatedProperties.

Variable ET_parse : string → option Element.
Variable find_quoted : Element → string → string → outcome (option Element).

Lemma validate_message_event_at rt d eid en :
  yields_exc (Forall (issue_at eid en))
    (validate_message_event find_quoted rt d eid en).
Proof.
  unfold validate_message_event.
  destruct (get d "messageRef") as [ref|]; [|by apply yields_exc_id].
  destruct (Py.nonempty ref); [|by apply yields_exc_id].
  destruct (find_by_id find_quoted rt (bpmn "message") ref) as [found|];
    [|by left].
  cbn. apply yields_exc_emits. emits_at.
Qed.

Lemma validate_error_event_at rt d eid en :
  yields_exc (Forall (issue_at eid en))
    (validate_error_event find_quoted rt d eid en).
Proof.
  unfold validate_error_event.
  destruct (get d "errorRef") as [ref|]; [|by apply yields_exc_id].
  destruct (Py.nonempty ref); [|by apply yields_exc_id].
  destruct (find_by_id find_quoted rt (bpmn "error") ref) as [found|];
    [|by left].
  cbn. apply yields_exc_emits. emits_at.
Qed.

Lemma event_body_at rt event :
  yields_exc (Forall (attributed_to event)) (event_body find_quoted rt event).
Proof.
  unfold event_body, attributed_to; cbv zeta.
  set (P := issue_at _ _). set (Q := Forall P).
  assert (∀ Δ1 Δ2, Q Δ1 → Q Δ2 → Q (Δ1 ++ Δ2)) as HQ
    by (intros; by apply Forall_app_2).
  assert (∀ (o : option Element) k g,
            (∀ d, emits P (k d)) → yields_exc Q g →
            yields_exc Q (λ st, g (if_some o k st))) as Hstep.
  { intros o k g Hk Hg.
    apply (yields_exc_after Q Q Q (if_some o k) g); [done| |done].
    by apply emits_if_some. }
  apply (yields_exc_bind Q Q Q); [done| |].
  - destruct (find_child event (bpmn "messageEventDefinition")) as [md|].
    + apply (Hstep _ _ (validate_message_event find_quoted rt md _ _)).
      * intros d. apply validate_timer_event_at.
      * apply validate_message_event_at.
    + apply (Hstep _ _ Done); [|apply yields_exc_id; constructor].
      intros d. apply validate_timer_event_at.
  - apply (yields_exc_bind Q Q Q); [done| |].
    + destruct (find_child event (bpmn "errorEventDefinition")) as [ed|].
      * apply (Hstep _ _ (validate_error_event find_quoted rt ed _ _)).
        -- intros d. apply validate_signal_event_at.
        -- apply validate_error_event_at.
      * apply (Hstep _ _ Done); [|apply yields_exc_id; constructor].
        intros d. apply validate_signal_event_at.
    + apply yields_exc_emits. unfold P. emits_at.
Qed.

Lemma gateway_body_at rt gw_type gateway :
  yields_exc (Forall (attributed_to gateway))
    (gateway_body find_quoted rt gw_type gateway).
Proof.
  unfold gateway_body, attributed_to; cbv zeta.
  set (P := issue_at _ _).
  apply (yields_exc_bind (Forall P) (Forall P)); [apply Forall_app_2| |].
  - apply yields_exc_for_each_exc; [done | apply Forall_app_2 |]. intros o.
    unfold outgoing_body. destruct (text o) as [flow_id|];
      [|by apply yields_exc_id].
    destruct (Py.nonempty flow_id); [|by apply yields_exc_id].
    destruct (find_by_id find_quoted rt (bpmn "sequenceFlow") flow_id)
      as [flow|]; [|by left].
    cbn. apply yields_exc_emits. unfold P. emits_at.
  - apply yields_exc_emits. unfold P. emits_at.
Qed.

Lemma yields_exc_located rt e f :
  e ∈ iter rt →
  yields_exc (Forall (attributed_to e)) f →
  yields_exc (Forall (located rt)) f.
Proof.
  intros He. apply yields_exc_weaken. intros Δ HΔ.
  eapply Forall_impl; [exact HΔ|]. intros i. by apply attributed_located.
Qed.

Lemma validate_events_located rt :
  yields_exc (Forall (located rt)) (validate_events find_quoted rt).
Proof.
  unfold validate_events.
  apply yields_exc_for_each_exc; [done | apply Forall_app_2 |]. intros t.
  apply yields_exc_for_each_exc_in; [done | apply Forall_app_2 |].
  intros e He%findall_desc_iter.
  apply (yields_exc_located rt e); [done|apply event_body_at].
Qed.

Lemma validate_gateways_located rt :
  yields_exc (Forall (located rt)) (validate_gateways find_quoted rt).
Proof.
  unfold validate_gateways.
  apply yields_exc_for_each_exc; [done | apply Forall_app_2 |]. intros t.
  apply yields_exc_for_each_exc_in; [done | apply Forall_app_2 |].
  intros g Hg%findall_desc_iter.
  apply (yields_exc_located rt g); [done|apply gateway_body_at].
Qed.

Ltac emits_groups_located :=
  repeat lazymatch goal with
         | |- emits ?P (λ st, ?g (@?f st)) => apply (emits_comp P f g)
         end;
  first
    [ apply emits_id
    | apply validate_namespaces_located
    | apply validate_service_tasks_located
    | apply validate_script_tasks_located
    | apply validate_user_tasks_located
    | apply validate_listeners_located
    | apply validate_call_activities_located
    | apply validate_business_rule_tasks_located
    | apply validate_multi_instance_located
    | apply validate_subprocesses_located
    | apply validate_input_output_mappings_located
    | apply validate_configurations_located ].

Lemma run_validations_located rt :
  yields_exc (Forall (located rt)) (run_validations find_quoted rt).
Proof.
  unfold run_validations; cbv zeta.
  set (Q := Forall (located rt)).
  assert (∀ Δ1 Δ2, Q Δ1 → Q Δ2 → Q (Δ1 ++ Δ2)) as HQ
    by (intros; by apply Forall_app_2).
  apply (yields_exc_bind Q Q Q); [done| |].
  - apply (yields_exc_after Q Q Q
             (λ st, validate_user_tasks rt (validate_script_tasks rt
                  (validate_service_tasks rt (validate_namespaces rt st)))));
      [done| |apply validate_gateways_located].
    change (emits (located rt)
              (λ st, validate_user_tasks rt (validate_script_tasks rt
                  (validate_service_tasks rt (validate_namespaces rt st))))).
    emits_groups_located.
  - apply (yields_exc_bind Q Q Q); [done| |].
    + apply validate_events_located.
    + apply yields_exc_emits. emits_groups_located.
Qed.

(** X13: every issue a run adds points into the document it was run on:
    it carries either the id [root] and the name [BPMN Document], or the
    [id] and [name] attributes of one element of the parsed tree, with
    [unknown] and [Unnamed] in place of a missing attribute. *)
Theorem report_issues_located amb self r st' :
  analyze ET_parse find_quoted amb self = Done (ReportDict r, st') →
  ∃ rt Δ,
    ET_parse (bpmn_file self) = Some rt
    ∧ r_issues r = to_dict <$> (issues self ++ Δ)
    ∧ Forall (located rt) Δ.
Proof.
  intros (rt & st1 & Hrt & Hrun & -> & ->)%analyze_report.
  apply (yields_exc_Done _ _ _ _ (run_validations_located rt)) in Hrun
    as (Δ & V & HΔ & ->).
  by exists rt, Δ.
Qed.

End LocatedProperties.
(** ** Timers *)

Lemma emits_list (P : MigrationIssue → Prop) f :
  emits P f → ∃ Δ V, Forall P Δ ∧ ∀ st, f st = emit Δ V st.
Proof. done. Qed.

Lemma count_issues_none cat sev Δ :
  Forall (λ i, category i ≠ cat) Δ → count_issues cat sev Δ = 0.
Proof.
  induction 1 as [|i Δ Hi _ IH]; [done|].
  unfold count_issues in *.
  by rewrite filter_cons, decide_False by (by intros [? _]).
Qed.

Lemma timer_body_warnings eid en te ty :
  ∃ Δ V,
    (∀ st, timer_body eid en (te, ty) st = emit Δ V st)
    ∧ count_issues "Timer" WARNING Δ = (if timer_flagged te then 1 else 0)
    ∧ Forall (λ i, (category i = "Timer" ∧ severity i = WARNING)
                   ∨ category i = "Expression") Δ.
Proof.
  unfold timer_body, timer_flagged. cbv zeta. cbn [fst snd].
  destruct te as [te|];
    [|exists [], ∅; split; [intros st; by rewrite emit_nil|done]].
  cbn [if_some]. unfold if_str.
  destruct (text te) as [t|];
    [|exists [], ∅; split; [intros st; by rewrite emit_nil|done]].
  destruct (Py.nonempty t);
    [|exists [], ∅; split; [intros st; by rewrite emit_nil|done]].
  cbn [andb].
  destruct (emits_list (λ i, category i = "Expression")
              (validate_expression_syntax (Py.strip t) eid en
                 ("timer " +:+ ty)))
    as (Δ1 & V1 & H1 & Hf1).
  { by apply emits_validate_expression_syntax. }
  assert (count_issues "Timer" WARNING Δ1 = 0) as Hc1.
  { apply count_issues_none. eapply Forall_impl; [exact H1|].
    by intros i ->. }
  assert (Forall (λ i, (category i = "Timer" ∧ severity i = WARNING)
                       ∨ category i = "Expression") Δ1)
    as Hcat1 by (eapply Forall_impl; [exact H1|]; by right).
  destruct (negb (Py.startswith "P" (Py.strip t))
            && negb (Py.startswith "=" (Py.strip t))).
  - eexists (Δ1 ++ [_]), V1. split; [|split].
    + intros st. rewrite Hf1. cbn [when].
      destruct st as [f r i s v].
      unfold add_issue, set_issues, emit; cbn.
      by rewrite <-app_assoc.
    + rewrite count_issues_app, Hc1. reflexivity.
    + apply Forall_app_2; [done|]. constructor; [by left|constructor].
  - exists Δ1, V1. split; [|split; [|done]].
    + intros st. by rewrite Hf1.
    + by rewrite Hc1.
Qed.

(** X14: the timer rule looks at the first [timeDate], [timeDuration] and
    [timeCycle] child of a timer definition and adds one Timer warning for
    each of them that has text whose stripped form starts with neither [P]
    nor [=]: only the first character decides.  Apart from these warnings
    it adds Expression issues only. *)
Theorem validate_timer_event_warnings d eid en :
  ∃ Δ V,
    (∀ st, validate_timer_event d eid en st = emit Δ V st)
    ∧ count_issues "Timer" WARNING Δ
      = length (filter (λ ty, timer_flagged (find_child d (bpmn ty)) = true)
                  ["timeDate"; "timeDuration"; "timeCycle"])
    ∧ Forall (λ i, (category i = "Timer" ∧ severity i = WARNING)
                   ∨ category i = "Expression") Δ.
Proof.
  unfold validate_timer_event, for_each. cbv zeta. cbn [foldl].
  destruct (timer_body_warnings eid en (find_child d (bpmn "timeDate"))
              "timeDate") as (Δ1 & V1 & Hf1 & Hc1 & Hp1).
  destruct (timer_body_warnings eid en (find_child d (bpmn "timeDuration"))
              "timeDuration") as (Δ2 & V2 & Hf2 & Hc2 & Hp2).
  destruct (timer_body_warnings eid en (find_child d (bpmn "timeCycle"))
              "timeCycle") as (Δ3 & V3 & Hf3 & Hc3 & Hp3).
  exists (Δ1 ++ Δ2 ++ Δ3), (V1 ∪ V2 ∪ V3). split; [|split].
  - intros st. rewrite Hf1, Hf2, Hf3, !emit_emit.
    by rewrite (assoc_L (∪)).
  - rewrite !count_issues_app, Hc1, Hc2, Hc3, !filter_cons, filter_nil.
    destruct (timer_flagged (find_child d (bpmn "timeDate"))),
      (timer_flagged (find_child d (bpmn "timeDuration"))),
      (timer_flagged (find_child d (bpmn "timeCycle")));
      repeat case_decide; done.
  - by repeat apply Forall_app_2.
Qed.

(** A date and time in ISO 8601 form starts with a digit and is flagged. *)
Lemma timer_date_flagged :
  timer_flagged
    (Some (Node (bpmn "timeDate") ∅ (Some "2025-01-01T00:00:00Z") []))
  = true.
Proof. reflexivity. Qed.
(** ** Multi-instance characteristics *)

Lemma emits_validate_expression_syntax_issue P e eid en ctx :
  (∀ msg det, P (mkIssue CRITICAL "Expression" eid en msg det)) →
  emits P (validate_expression_syntax e eid en ctx).
Proof.
  intros HP. unfold validate_expression_syntax.
  destruct (negb (Py.nonempty e)); [apply emits_id|]. cbv zeta.
  apply (emits_comp _ (λ st, when _ _ (update_variables _ st)) (when _ _)).
  - apply (emits_comp _ (update_variables _) (when _ _)).
    + apply emits_update_variables.
    + apply emits_when, emits_add_issue, HP.
  - apply emits_when, emits_add_issue, HP.
Qed.

(** X15: the multi-instance rule reports on the parent.  Every issue it
    adds is a CRITICAL Expression issue that carries the id and name of an
    element of the document which has a [multiInstanceLoopCharacteristics]
    child. *)
Theorem multi_instance_issues_parent rt :
  ∃ Δ V,
    (∀ st, validate_multi_instance rt st = emit Δ V st)
    ∧ Forall (λ i,
        severity i = CRITICAL ∧ category i = "Expression"
        ∧ ∃ parent mi,
            parent ∈ iter rt ∧ mi ∈ children parent
            ∧ tag mi = bpmn "multiInstanceLoopCharacteristics"
            ∧ attributed_to parent i) Δ.
Proof.
  cut (emits (λ i,
        severity i = CRITICAL ∧ category i = "Expression"
        ∧ ∃ parent mi,
            parent ∈ iter rt ∧ mi ∈ children parent
            ∧ tag mi = bpmn "multiInstanceLoopCharacteristics"
            ∧ attributed_to parent i) (validate_multi_instance rt)).
  { intros (Δ & V & HΔ & Hf). by exists Δ, V. }
  unfold validate_multi_instance. apply emits_for_each_in.
  intros [p m] [Htag Hpm]%list_elem_of_filter. cbn [snd] in Htag.
  assert (∀ msg det,
            (λ i, severity i = CRITICAL ∧ category i = "Expression"
                  ∧ ∃ parent mi,
                      parent ∈ iter rt ∧ mi ∈ children parent
                      ∧ tag mi = bpmn "multiInstanceLoopCharacteristics"
                      ∧ attributed_to parent i)
              (mkIssue CRITICAL "Expression" (get_or p "id" "unknown")
                 (get_or p "name" "Unnamed") msg det)) as HP.
  { intros msg det. split; [done|]. split; [done|]. exists p, m.
    split; [by apply descendants_with_parent_fst in Hpm|].
    split; [by apply descendants_with_parent_child in Hpm|]. done. }
  unfold multi_instance_body. cbv zeta. cbn [fst snd].
  apply (emits_comp _ (if_str _ _) (if_some _ _)).
  - apply emits_if_str. intros c.
    by apply emits_validate_expression_syntax_issue.
  - apply emits_if_some. intros cc. apply emits_if_str. intros t.
    by apply emits_validate_expression_syntax_issue.
Qed.

(** ** The further properties at work on the sample document *)

Lemma migration_complexity_levels_witness :
  issues (add_issue CRITICAL "Gateway" "Gateway_1" "Route"
            "Complex gateway not supported in Camunda 8" ""
            (init "order.bpmn"))
  = issues (init "order.bpmn")
    ++ [mkIssue CRITICAL "Gateway" "Gateway_1" "Route"
          "Complex gateway not supported in Camunda 8" ""]
  ∧ ∃ level description level' description',
      migration_complexity
        (calculate_statistics sample_document (init "order.bpmn"))
      = Done (level, description)
      ∧ migration_complexity
          (calculate_statistics sample_document
             (add_issue CRITICAL "Gateway" "Gateway_1" "Route"
                "Complex gateway not supported in Camunda 8" ""
                (init "order.bpmn")))
        = Done (level', description')
      ∧ level_rank level ≤ level_rank level'.
Proof.
  split; [reflexivity|].
  destruct (migration_complexity_levels sample_document (init "order.bpmn")
              (add_issue CRITICAL "Gateway" "Gateway_1" "Route"
                 "Complex gateway not supported in Camunda 8" ""
                 (init "order.bpmn"))
              [mkIssue CRITICAL "Gateway" "Gateway_1" "Route"
                 "Complex gateway not supported in Camunda 8" ""]
              eq_refl)
    as (l & d & l' & d' & H1 & H2 & _ & _ & _ & H3).
  exists l, d, l', d'. split; [exact H1|]. split; [exact H2 | exact H3].
Defined.

Lemma export_json_after_analyze_witness :
  ∃ r st',
    ((set_order_ok morning ∧ set_order_ok evening)
     ∧ analyze sample_parse rejecting_find morning (init "order.bpmn")
       = Done (ReportDict r, st'))
    ∧ ∃ r', export_json sample_parse rejecting_find evening st'
            = Done (ReportDict r', st')
        ∧ r_issues r' = r_issues r
        ∧ r_process_variables r' = r_process_variables r.
Proof.
  pose proof sample_run_is_report as Hr.
  assert (set_order_ok morning) as H1 by (intros s; reflexivity).
  assert (set_order_ok evening) as H2
    by (intros s; apply reverse_Permutation).
  destruct (analyze sample_parse rejecting_find morning (init "order.bpmn"))
    as [[[|r] st']|] eqn:H; try discriminate Hr.
  exists r, st'. split; [by split|].
  destruct (export_json_after_analyze sample_parse rejecting_find morning
              evening (init "order.bpmn") r st' H1 H2 H)
    as (r' & He & _ & _ & _ & Hi & Hv).
  exists r'. split; [exact He|]. split; [exact Hi | exact Hv].
Defined.

Lemma report_issues_located_witness :
  ∃ r st',
    analyze sample_parse rejecting_find morning (init "order.bpmn")
    = Done (ReportDict r, st')
    ∧ ∃ rt Δ, r_issues r = to_dict <$> (issues (init "order.bpmn") ++ Δ)
        ∧ Forall (located rt) Δ.
Proof.
  pose proof sample_run_is_report as Hr.
  destruct (analyze sample_parse rejecting_find morning (init "order.bpmn"))
    as [[[|r] st']|] eqn:H; try discriminate Hr.
  exists r, st'. split; [reflexivity|].
  destruct (report_issues_located sample_parse rejecting_find morning
              (init "order.bpmn") r st' H) as (rt & Δ & _ & H1 & H2).
  exists rt, Δ. split; [exact H1 | exact H2].
Defined.

Lemma main_options_witness :
  main.export_json
    (main.parse_options ["--json"; "--csv"; "out.csv"] main.no_options)
  = Some "--csv"
  ∧ follows "--json" "--csv" ["--json"; "--csv"; "out.csv"].
Proof.
  split; [reflexivity|].
  by apply (main_options ["--json"; "--csv"; "out.csv"]).
Defined.

(** * Service tasks and script tasks over a run *)

(** ** Statements that select *)

Section Selects.
Context (P : MigrationIssue → Prop) `{!∀ i, Decision (P i)}.

Lemma selects_id : selects P (λ st, st) [] ∅.
Proof. exists []. split; [intros st; by rewrite emit_nil|done]. Qed.

Lemma selects_comp f g L1 V1 L2 V2 :
  selects P f L1 V1 → selects P g L2 V2 →
  selects P (λ st, g (f st)) (L1 ++ L2) (V1 ∪ V2).
Proof.
  intros (Δ1 & Hf & <-) (Δ2 & Hg & <-). exists (Δ1 ++ Δ2).
  split; [|by rewrite filter_app]. intros st. by rewrite Hf, Hg, emit_emit.
Qed.

Lemma selects_eq f L V L' V' :
  selects P f L V → L = L' → V = V' → selects P f L' V'.
Proof. by intros ? <- <-. Qed.

Lemma selects_add_issue sev cat eid en msg det :
  selects P (add_issue sev cat eid en msg det)
    (filter P [mkIssue sev cat eid en msg det]) ∅.
Proof.
  exists [mkIssue sev cat eid en msg det]. split; [|done].
  intros [f r i s v].
  unfold add_issue, set_issues, emit; simpl. by rewrite (right_id_L ∅ (∪)).
Qed.

Lemma selects_add_issue_in sev cat eid en msg det :
  P (mkIssue sev cat eid en msg det) →
  selects P (add_issue sev cat eid en msg det)
    [mkIssue sev cat eid en msg det] ∅.
Proof.
  intros Hi. eapply selects_eq; [apply selects_add_issue| |done].
  by rewrite filter_cons, decide_True.
Qed.

Lemma selects_add_issue_out sev cat eid en msg det :
  ¬ P (mkIssue sev cat eid en msg det) →
  selects P (add_issue sev cat eid en msg det) [] ∅.
Proof.
  intros Hi. eapply selects_eq; [apply selects_add_issue| |done].
  by rewrite filter_cons, decide_False.
Qed.

Lemma selects_when_none b f :
  selects P f [] ∅ → selects P (when b f) [] ∅.
Proof. intros Hf. unfold when. destruct b; [done | apply selects_id]. Qed.

Lemma selects_if_str_none o k :
  (∀ s, selects P (k s) [] ∅) → selects P (if_str o k) [] ∅.
Proof.
  intros Hk. unfold if_str. destruct o as [s|]; [|apply selects_id].
  destruct (Py.nonempty s); [apply Hk | apply selects_id].
Qed.

Lemma selects_if_str_novars o k (L : string → list MigrationIssue) :
  (∀ s, selects P (k s) (L s) ∅) →
  selects P (if_str o k)
    (match o with
     | Some s => if Py.nonempty s then L s else []
     | None => []
     end) ∅.
Proof.
  intros Hk. unfold if_str. destruct o as [s|]; [|apply selects_id].
  destruct (Py.nonempty s); [apply Hk | apply selects_id].
Qed.

Lemma selects_if_str_vars o k (L : string → list MigrationIssue) :
  (∀ s, selects P (k s) (L s) (extract_variables_from_expression (Some s))) →
  selects P (if_str o k)
    (match o with
     | Some s => if Py.nonempty s then L s else []
     | None => []
     end)
    (extract_variables_from_expression o).
Proof.
  intros Hk. unfold if_str. destruct o as [s|]; [|apply selects_id].
  destruct (Py.nonempty s) eqn:Hs; [apply Hk|].
  unfold extract_variables_from_expression. rewrite Hs. apply selects_id.
Qed.

Lemma selects_for_each {A} (l : list A) body
    (L : A → list MigrationIssue) (V : A → gset string) :
  (∀ x, selects P (body x) (L x) (V x)) →
  selects P (for_each l body) (flat_map L l) (⋃ (V <$> l)).
Proof.
  intros Hb. unfold for_each. induction l as [|x l IH]; simpl.
  - apply selects_id.
  - apply (selects_comp (body x) (λ st, foldl (λ s y, body y s) st l));
      [apply Hb | apply IH].
Qed.

Hypothesis P_expression : ∀ i, category i = "Expression" → P i.

Lemma filter_all (l : list MigrationIssue) :
  Forall P l → filter P l = l.
Proof.
  induction 1 as [|i l Hi _ IH]; [done|].
  by rewrite filter_cons, decide_True, IH.
Qed.

Lemma selects_validate_expression_syntax e eid en ctx :
  selects P (validate_expression_syntax e eid en ctx)
    (expression_issues e eid en ctx)
    (extract_variables_from_expression (Some e)).
Proof.
  exists (expression_issues e eid en ctx).
  split; [intros st; apply validate_expression_syntax_emit|].
  apply filter_all.
  destruct (emits_validate_expression_syntax P P_expression e eid en ctx)
    as (Δ & V & HΔ & Hf).
  unfold expression_issues. rewrite Hf. cbn. exact HΔ.
Qed.

End Selects.

(** ** Service tasks *)

Lemma service_task_body_selects task :
  selects worker_or_expression (service_task_body task)
    (service_task_issues task) (service_task_variables task).
Proof.
  unfold service_task_body. cbv zeta.
  set (tid := get_or task "id" "unknown").
  set (tn := get_or task "name" "Unnamed").
  assert (∀ i, category i = "Expression" → worker_or_expression i) as HE
    by (intros i Hi; by left).
  assert (∀ sev cat eid en msg det,
            cat ≠ "Expression" → (cat = "Service Task" → sev ≠ CRITICAL) →
            selects worker_or_expression
              (add_issue sev cat eid en msg det) [] ∅) as Hout.
  { intros sev cat eid en msg det H1 H2. apply selects_add_issue_out.
    intros [?|[? ?]]; [done|]. by apply H2. }
  eapply selects_eq.
  - apply (selects_comp _ (λ st, _ (_ (_ (_ (_ (_ st)))))) (if_str _ _)).
    + apply (selects_comp _ (λ st, _ (_ (_ (_ (_ st))))) (when _ _)).
      * apply (selects_comp _ (λ st, _ (_ (_ (_ st)))) (if_str _ _)).
        -- apply (selects_comp _ (λ st, _ (_ (_ st))) (if_str _ _)).
           ++ apply (selects_comp _ (λ st, _ (_ st)) (if_str _ _)).
              ** apply (selects_comp _ (when _ _) (if_str _ _)).
                 --- by apply selects_when_none, Hout.
                 --- apply selects_if_str_vars. intros d.
                     eapply selects_eq;
                       [apply (selects_comp _
                                 (validate_expression_syntax _ _ _ _)
                                 (add_issue _ _ _ _ _ _));
                          [by apply selects_validate_expression_syntax
                          |apply selects_add_issue_in; by right]
                       |reflexivity|apply (right_id_L ∅ (∪))].
              ** apply selects_if_str_novars. intros c.
                 apply selects_add_issue_in. by right.
           ++ apply selects_if_str_vars. intros e.
              by apply selects_validate_expression_syntax.
        -- by apply selects_if_str_none; intros c; apply Hout.
      * by apply selects_when_none, Hout.
    + by apply selects_if_str_none; intros r; apply Hout.
  - unfold service_task_issues. cbv zeta. fold tid tn.
    by rewrite !app_nil_r, app_nil_l, <-app_assoc.
  - unfold service_task_variables. set_solver.
Qed.

Lemma emits_added (Q : MigrationIssue → Prop) f :
  emits Q f → ∀ st, f st = emit (added f) (merged f) st.
Proof.
  intros (Δ & V & _ & Hf) st. unfold added, merged. rewrite !Hf. cbn.
  by rewrite (left_id_L ∅ (∪)).
Qed.

Lemma emits_selects_all (Q : MigrationIssue → Prop) f :
  emits Q f → selects (λ _, True) f (added f) (merged f).
Proof.
  intros Hf. exists (added f). split; [by apply (emits_added Q)|].
  apply filter_all. by apply Forall_forall.
Qed.

(** ** The groups that use neither category *)

Lemma validate_namespaces_rest rt : emits other_task (validate_namespaces rt).
Proof. unfold validate_namespaces, other_task. emits_other. Qed.

Lemma validate_user_tasks_rest rt : emits other_task (validate_user_tasks rt).
Proof. unfold validate_user_tasks, user_task_body, other_task. emits_other. Qed.

Lemma validate_listeners_rest rt : emits other_task (validate_listeners rt).
Proof.
  unfold validate_listeners, listeners_body, validate_listener, other_task.
  emits_other.
Qed.

Lemma validate_call_activities_rest rt :
  emits other_task (validate_call_activities rt).
Proof.
  unfold validate_call_activities, call_activity_body, other_task.
  emits_other.
Qed.

Lemma validate_business_rule_tasks_rest rt :
  emits other_task (validate_business_rule_tasks rt).
Proof.
  unfold validate_business_rule_tasks, business_rule_task_body, other_task.
  emits_other.
Qed.

Lemma validate_multi_instance_rest rt :
  emits other_task (validate_multi_instance rt).
Proof.
  unfold validate_multi_instance, multi_instance_body, other_task.
  emits_other.
Qed.

Lemma validate_subprocesses_rest rt :
  emits other_task (validate_subprocesses rt).
Proof.
  unfold validate_subprocesses, subprocess_body, other_task. emits_other.
Qed.

Lemma validate_input_output_mappings_rest rt :
  emits other_task (validate_input_output_mappings rt).
Proof.
  unfold validate_input_output_mappings, input_output_body, io_param_body,
    other_task.
  emits_other.
Qed.

Lemma validate_configurations_rest rt :
  emits other_task (validate_configurations rt).
Proof.
  unfold validate_configurations, configuration_body, other_task.
  emits_other.
Qed.

Lemma validate_timer_event_rest d eid en :
  emits other_task (validate_timer_event d eid en).
Proof. unfold validate_timer_event, timer_body, other_task. emits_other. Qed.

Lemma validate_signal_event_rest d eid en :
  emits other_task (validate_signal_event d eid en).
Proof. unfold validate_signal_event, other_task. emits_other. Qed.

Lemma validate_service_tasks_no_script rt :
  emits (λ i, category i ≠ "Script Task") (validate_service_tasks rt).
Proof. unfold validate_service_tasks, service_task_body. emits_other. Qed.

Lemma validate_script_tasks_no_service rt :
  emits (λ i, category i ≠ "Service Task") (validate_script_tasks rt).
Proof. unfold validate_script_tasks, script_task_body. emits_other. Qed.

Section TaskRules.

Variable ET_parse : string → option Element.
Variable find_quoted : Element → string → string → outcome (option Element).

Lemma validate_message_event_rest rt d eid en :
  yields_exc (Forall other_task)
    (validate_message_event find_quoted rt d eid en).
Proof.
  unfold validate_message_event.
  destruct (get d "messageRef") as [ref|]; [|by apply yields_exc_id].
  destruct (Py.nonempty ref); [|by apply yields_exc_id].
  destruct (find_by_id find_quoted rt (bpmn "message") ref) as [found|];
    [|by left].
  cbn. apply yields_exc_emits. unfold other_task. emits_other.
Qed.

Lemma validate_error_event_rest rt d eid en :
  yields_exc (Forall other_task)
    (validate_error_event find_quoted rt d eid en).
Proof.
  unfold validate_error_event.
  destruct (get d "errorRef") as [ref|]; [|by apply yields_exc_id].
  destruct (Py.nonempty ref); [|by apply yields_exc_id].
  destruct (find_by_id find_quoted rt (bpmn "error") ref) as [found|];
    [|by left].
  cbn. apply yields_exc_emits. unfold other_task. emits_other.
Qed.

Lemma event_body_rest rt event :
  yields_exc (Forall other_task) (event_body find_quoted rt event).
Proof.
  unfold event_body; cbv zeta.
  set (Q := Forall other_task).
  assert (∀ Δ1 Δ2, Q Δ1 → Q Δ2 → Q (Δ1 ++ Δ2)) as HQ
    by (intros; by apply Forall_app_2).
  assert (∀ (o : option Element) k g,
            (∀ d, emits other_task (k d)) → yields_exc Q g →
            yields_exc Q (λ st, g (if_some o k st))) as Hstep.
  { intros o k g Hk Hg.
    apply (yields_exc_after Q Q Q (if_some o k) g); [done| |done].
    by apply emits_if_some. }
  apply (yields_exc_bind Q Q Q); [done| |].
  - destruct (find_child event (bpmn "messageEventDefinition")) as [md|].
    + apply (Hstep _ _ (validate_message_event find_quoted rt md _ _)).
      * intros d. apply validate_timer_event_rest.
      * apply validate_message_event_rest.
    + apply (Hstep _ _ Done); [|apply yields_exc_id; constructor].
      intros d. apply validate_timer_event_rest.
  - apply (yields_exc_bind Q Q Q); [done| |].
    + destruct (find_child event (bpmn "errorEventDefinition")) as [ed|].
      * apply (Hstep _ _ (validate_error_event find_quoted rt ed _ _)).
        -- intros d. apply validate_signal_event_rest.
        -- apply validate_error_event_rest.
      * apply (Hstep _ _ Done); [|apply yields_exc_id; constructor].
        intros d. apply validate_signal_event_rest.
    + apply yields_exc_emits. unfold other_task. emits_other.
Qed.

Lemma validate_events_rest rt :
  yields_exc (Forall other_task) (validate_events find_quoted rt).
Proof.
  unfold validate_events.
  apply yields_exc_for_each_exc; [done | apply Forall_app_2 |]. intros t.
  apply yields_exc_for_each_exc; [done | apply Forall_app_2 |]. intros e.
  apply event_body_rest.
Qed.

Lemma validate_gateways_rest rt :
  yields_exc (Forall other_task) (validate_gateways find_quoted rt).
Proof.
  unfold validate_gateways.
  apply yields_exc_for_each_exc; [done | apply Forall_app_2 |]. intros t.
  apply yields_exc_for_each_exc; [done | apply Forall_app_2 |]. intros g.
  unfold gateway_body; cbv zeta.
  apply (yields_exc_bind (Forall other_task) (Forall other_task));
    [apply Forall_app_2| |].
  - apply yields_exc_for_each_exc; [done | apply Forall_app_2 |]. intros o.
    unfold outgoing_body. destruct (text o) as [flow_id|];
      [|by apply yields_exc_id].
    destruct (Py.nonempty flow_id); [|by apply yields_exc_id].
    destruct (find_by_id find_quoted rt (bpmn "sequenceFlow") flow_id)
      as [flow|]; [|by left].
    cbn. apply yields_exc_emits. unfold other_task. emits_other.
  - apply yields_exc_emits. unfold other_task. emits_other.
Qed.

Ltac emits_groups_rest :=
  repeat lazymatch goal with
         | |- emits ?P (λ st, ?g (@?f st)) => apply (emits_comp P f g)
         end;
  first
    [ apply emits_id
    | apply validate_user_tasks_rest
    | apply validate_listeners_rest
    | apply validate_call_activities_rest
    | apply validate_business_rule_tasks_rest
    | apply validate_multi_instance_rest
    | apply validate_subprocesses_rest
    | apply validate_input_output_mappings_rest
    | apply validate_configurations_rest ].

(** The groups that run after the script tasks. *)
Lemma run_validations_tail rt :
  ∃ tail,
    yields_exc (Forall other_task) tail
    ∧ ∀ st, run_validations find_quoted rt st
            = tail (validate_script_tasks rt
                      (validate_service_tasks rt (validate_namespaces rt st))).
Proof.
  eexists (λ st,
    self ← validate_gateways find_quoted rt (validate_user_tasks rt st);
    self ← validate_events find_quoted rt self;
    Done (validate_configurations rt
            (validate_input_output_mappings rt
               (validate_subprocesses rt
                  (validate_multi_instance rt
                     (validate_business_rule_tasks rt
                        (validate_call_activities rt
                           (validate_listeners rt self)))))))).
  split; [|reflexivity].
  set (Q := Forall other_task).
  assert (∀ Δ1 Δ2, Q Δ1 → Q Δ2 → Q (Δ1 ++ Δ2)) as HQ
    by (intros; by apply Forall_app_2).
  apply (yields_exc_bind Q Q Q); [done| |].
  - apply (yields_exc_after Q Q Q (validate_user_tasks rt));
      [done|apply validate_user_tasks_rest|apply validate_gateways_rest].
  - apply (yields_exc_bind Q Q Q); [done| |].
    + apply validate_events_rest.
    + apply yields_exc_emits. emits_groups_rest.
Qed.

(** A run in four parts: the namespace check, the service tasks, the
    script tasks, and all the other groups. *)
Lemma run_validations_parts rt Δsvc Vsvc Δscr Vscr st st1 :
  (∀ s, validate_service_tasks rt s = emit Δsvc Vsvc s) →
  (∀ s, validate_script_tasks rt s = emit Δscr Vscr s) →
  run_validations find_quoted rt st = Done st1 →
  ∃ Δa Va Δb Vb,
    Forall other_task Δa ∧ Forall other_task Δb
    ∧ st1 = emit (Δa ++ Δsvc ++ Δscr ++ Δb) (Va ∪ Vsvc ∪ Vscr ∪ Vb) st.
Proof.
  intros Hsvc Hscr Hrun.
  destruct (run_validations_tail rt) as (tail & Htail & Heq).
  rewrite Heq in Hrun.
  destruct (validate_namespaces_rest rt) as (Δa & Va & Ha & Hns).
  rewrite Hns, Hsvc, Hscr in Hrun.
  apply (yields_exc_Done _ _ _ _ Htail) in Hrun as (Δb & Vb & Hb & ->).
  exists Δa, Va, Δb, Vb. split; [done|]. split; [done|].
  rewrite !emit_emit. f_equal; solve [by rewrite <-?app_assoc | set_solver].
Qed.

(** C5, as amended: over the service tasks of a document, in document
    order, the service-task rule validates the [delegateExpression] and
    the [expression] attribute that is present and not empty (the issues
    of the validator are appended, its variables merged) and adds the
    CRITICAL Service Task issue that asks for a job worker for a
    [delegateExpression] and for a [class] that is present and not empty.
    These are all the Expression issues, all the CRITICAL Service Task
    issues and all the variables of the rule: the [class] value is not
    validated, and an attribute that is empty contributes nothing.  A run
    that returns a report carries these issues, and its other rule groups
    add no Service Task issue. *)
Theorem service_task_attributes rt :
  ∃ Δ V,
    (∀ st, validate_service_tasks rt st = emit Δ V st)
    ∧ filter worker_or_expression Δ
      = flat_map service_task_issues (findall_desc rt (bpmn "serviceTask"))
    ∧ V = ⋃ (service_task_variables <$> findall_desc rt (bpmn "serviceTask"))
    ∧ ∀ amb self r st',
        ET_parse (bpmn_file self) = Some rt →
        analyze ET_parse find_quoted amb self = Done (ReportDict r, st') →
        ∃ Δa Δb,
          r_issues r = to_dict <$> (issues self ++ Δa ++ Δ ++ Δb)
          ∧ Forall (λ i, category i ≠ "Service Task") (Δa ++ Δb)
          ∧ process_variables self ∪ V ⊆ process_variables st'.
Proof.
  destruct (selects_for_each worker_or_expression
              (findall_desc rt (bpmn "serviceTask")) service_task_body
              service_task_issues service_task_variables
              service_task_body_selects) as (Δ & Hf & HL).
  exists Δ, (⋃ (service_task_variables <$> findall_desc rt (bpmn "serviceTask"))).
  split; [exact Hf|]. split; [exact HL|]. split; [done|].
  intros amb self r st' Hrt (rt' & st1 & Hrt' & Hrun & -> & ->)%analyze_report.
  assert (rt' = rt) as -> by congruence.
  destruct (validate_script_tasks_no_service rt) as (Δscr & Vscr & Hscr & Hfscr).
  destruct (run_validations_parts rt _ _ _ _ _ _ Hf Hfscr Hrun)
    as (Δa & Va & Δb & Vb & Ha & Hb & ->).
  exists Δa, (Δscr ++ Δb). split; [|split].
  - unfold make_report, calculate_statistics, set_statistics, emit, set_root.
    cbn [r_issues issues]. by rewrite <-?app_assoc.
  - apply Forall_app_2; [|apply Forall_app_2; [done|]];
      (eapply Forall_impl; [eassumption|]); by intros i [? ?].
  - unfold calculate_statistics, set_statistics, emit, set_root.
    cbn [process_variables]. set_solver.
Qed.

(** C6, as amended: the script-task rule appends, for the script tasks of
    a document in document order, what the body of its loop appends for
    each.  For a task whose [scriptFormat] is present and not empty that
    is exactly one CRITICAL Script Task issue when the lower-cased format
    is none of feel, javascript and groovy, exactly one WARNING Script Task
    issue when it is groovy or javascript, and nothing when it is feel;
    for a task whose format is empty or missing it is nothing.  A run that
    returns a report carries these issues, and its other rule groups add
    no Script Task issue. *)
Theorem script_task_format rt :
  ∃ Δ V,
    (∀ st, validate_script_tasks rt st = emit Δ V st)
    ∧ Δ = flat_map (λ task, added (script_task_body task))
            (findall_desc rt (bpmn "scriptTask"))
    ∧ (∀ task f,
         get task (camunda "scriptFormat") = Some f → f ≠ "" →
         (Py.lower f ∉ ["feel"; "javascript"; "groovy"] →
            added (script_task_body task)
            = [ mkIssue CRITICAL "Script Task"
                  (get_or task "id" "unknown") (get_or task "name" "Unnamed")
                  ("Script format '" +:+ f +:+ "' not supported in Camunda 8")
                  "Consider converting to FEEL or implementing as Job Worker." ])
         ∧ (Py.lower f ∈ ["groovy"; "javascript"] →
            added (script_task_body task)
            = [ mkIssue WARNING "Script Task"
                  (get_or task "id" "unknown") (get_or task "name" "Unnamed")
                  ("Script format '" +:+ f +:+ "' support is limited")
                  "Groovy and JavaScript support may differ. Test thoroughly or convert to FEEL." ])
         ∧ (Py.lower f = "feel" → added (script_task_body task) = []))
    ∧ (∀ task,
         get task (camunda "scriptFormat") = Some ""
         ∨ get task (camunda "scriptFormat") = None →
         added (script_task_body task) = [])
    ∧ ∀ amb self r st',
        ET_parse (bpmn_file self) = Some rt →
        analyze ET_parse find_quoted amb self = Done (ReportDict r, st') →
        ∃ Δa Δb,
          r_issues r = to_dict <$> (issues self ++ Δa ++ Δ ++ Δb)
          ∧ Forall (λ i, category i ≠ "Script Task") (Δa ++ Δb).
Proof.
  assert (∀ task, emits (λ _, True) (script_task_body task)) as Hbody.
  { intros task. unfold script_task_body. cbv zeta. by emits_all. }
  destruct (selects_for_each (λ _, True)
              (findall_desc rt (bpmn "scriptTask")) script_task_body
              (λ task, added (script_task_body task))
              (λ task, merged (script_task_body task))
              (λ task, emits_selects_all _ _ (Hbody task)))
    as (Δ & Hf & HL).
  rewrite filter_all in HL by by apply Forall_forall.
  exists Δ, (⋃ ((λ task, merged (script_task_body task))
                  <$> findall_desc rt (bpmn "scriptTask"))).
  split; [exact Hf|]. split; [done|]. split; [|split].
  - intros task f Hget Hne.
    destruct (script_task_body_format task f (init "") Hget Hne)
      as (H1 & H2 & H3).
    unfold added. auto.
  - intros task Hget. unfold added, script_task_body. cbv zeta.
    rewrite issues_if_str_update_variables.
    by destruct Hget as [-> | ->].
  - intros amb self r st' Hrt
      (rt' & st1 & Hrt' & Hrun & -> & ->)%analyze_report.
    assert (rt' = rt) as -> by congruence.
    destruct (validate_service_tasks_no_script rt)
      as (Δsvc & Vsvc & Hsvc & Hfsvc).
    destruct (run_validations_parts rt _ _ _ _ _ _ Hfsvc Hf Hrun)
      as (Δa & Va & Δb & Vb & Ha & Hb & ->).
    exists (Δa ++ Δsvc), Δb. split.
    + unfold make_report, calculate_statistics, set_statistics, emit, set_root.
      cbn [r_issues issues]. by rewrite <-?app_assoc.
    + apply Forall_app_2; [apply Forall_app_2; [|done]|];
        (eapply Forall_impl; [eassumption|]); by intros i [? ?].
Qed.

End TaskRules.

(** ** The two rules on sample documents *)

Lemma service_task_attributes_witness :
  ∃ Δ V,
    (∀ st, validate_service_tasks (process_of [service_task_delegate]) st
           = emit Δ V st)
    ∧ filter worker_or_expression Δ
      = expression_issues "${myDelegate}" "t2" "Unnamed" "delegateExpression"
        ++ [ mkIssue CRITICAL "Service Task" "t2" "Unnamed"
               "Delegate expression must be converted to Job Worker"
               "Delegate: ${myDelegate}. Implement as external task worker in Camunda 8." ]
        ++ expression_issues "#{order.total}" "t2" "Unnamed"
             "expression attribute"
    ∧ V = {[ "myDelegate"; "order" ]}.
Proof.
  destruct (service_task_attributes sample_parse rejecting_find
              (process_of [service_task_delegate]))
    as (Δ & V & Hf & HL & HV & _).
  exists Δ, V. split; [exact Hf|]. split.
  - rewrite HL. by vm_compute.
  - rewrite HV. by vm_compute.
Defined.

(** C5 fails as stated, on a run over two service tasks.  The first has
    [class="${foo}"]: the run reports the job-worker issue only, no
    Expression issue although the value holds the marker, and the name
    [foo] is not among the process variables.  The second has [class=""]:
    the attribute is present and the run reports nothing for it. *)
Lemma service_task_class_not_validated :
  get service_task_class (camunda "class") = Some "${foo}"
  ∧ Py.contains "${" "${foo}" = true
  ∧ extract_variables_from_expression (Some "${foo}") = {[ "foo" ]}
  ∧ get service_task_empty_class (camunda "class") = Some ""
  ∧ r_issues
      <$> report_of
            (analyze
               (λ _, Some (process_of
                             [service_task_class; service_task_empty_class]))
               rejecting_find morning (init "p.bpmn"))
    = Some
        [ to_dict
            (mkIssue CRITICAL "Service Task" "t1" "Unnamed"
               "Java delegate class must be converted to Job Worker"
               "Class: ${foo}. Implement as external task worker in Camunda 8.") ]
  ∧ r_process_variables
      <$> report_of
            (analyze
               (λ _, Some (process_of
                             [service_task_class; service_task_empty_class]))
               rejecting_find morning (init "p.bpmn"))
    = Some [].
Proof. repeat split; by vm_compute. Qed.

Lemma script_task_format_witness :
  ∃ Δ V,
    (∀ st, validate_script_tasks (process_of [script_task_python]) st
           = emit Δ V st)
    ∧ Δ = [ mkIssue CRITICAL "Script Task" "s2" "Unnamed"
              "Script format 'Python' not supported in Camunda 8"
              "Consider converting to FEEL or implementing as Job Worker." ].
Proof.
  destruct (script_task_format sample_parse rejecting_find
              (process_of [script_task_python]))
    as (Δ & V & Hf & HΔ & _).
  exists Δ, V. split; [exact Hf|]. rewrite HΔ. by vm_compute.
Defined.

(** C6 fails as stated, on a run over one script task that declares the
    empty format: the format is none of feel, javascript and groovy, and
    the report has no issue. *)
Lemma script_task_blank_format_no_issue :
  get script_task_blank_format (camunda "scriptFormat") = Some ""
  ∧ Py.mem (Py.lower "") ["feel"; "javascript"; "groovy"] = false
  ∧ r_issues
      <$> report_of
            (analyze (λ _, Some (process_of [script_task_blank_format]))
               rejecting_find morning (init "p.bpmn"))
    = Some [].
Proof. repeat split; by vm_compute. Qed.
